(** * x-crawler: the seen-tweets store and the crawl pipeline

  A shallow embedding of the Go sources

  - [storage.go]  : [SeenTweets] with [NewSeenTweets], [Has], [Add],
                    [Save], [Load], [Count];
  - [slack.go]    : [getEmojiByUrgency], [getColorByUrgency],
                    [getSentimentEmoji], and the notifier over HTTP:
                    [buildMessage], [NotifyTweet], [NotifySimple];
  - the crawler   : [Run], [processTrader], [processKeyword];
  - [main.go]     : the start-up sequence, the crawls, the shutdown;
  - [client.go]   : the client of the X API over HTTP: [GetUserTweets],
                    [SearchTweets], [getUserIDByUsername], [makeRequest],
                    [makeRequestWithUsers];
  - the config    : [Load] and its defaults;
  - the AI filter : [extractJSON] and [callClaudeAPI].

  Go values are rendered as follows.  A [string] is a Rocq [string]: the
  bytes of a text in UTF-8, which is what the program's strings are (tweet
  identifiers, user names and texts are decoded from the API's JSON, the
  rest comes from the configuration and from literals).  An [int] is a [Z]
  (the counters of a crawl are bounded by the number of tweets fetched,
  far inside the 64-bit range), an [error] is its message, [nil] being
  [None].  A [map[string]bool] is an [option (gmap string bool)], [None]
  being the nil map: reading a nil map yields the zero value, writing to
  it panics.  The mutex of [SeenTweets] guards a store that this
  sequential program reads and writes from one goroutine; it is not
  modelled, and neither is the [context.Context] handed to the
  collaborators, whose expiry shows as errors of their calls. *)

From stdpp Require Import base option gmap strings list sorting pretty.
From Stdlib Require Import ZArith Lia Ascii.

Open Scope string_scope.
Open Scope Z_scope.

(** Go's [error]: the message; [option error] is an [error] that may be nil. *)
Definition error : Type := string.

(** ** encoding/json, as far as [map[string]bool] goes

  The text layer of the library (escaping, indentation, the scanner) is
  outside the repository.  A byte sequence is represented by what the
  library's scanner makes of it: the JSON document it spells, or the fact
  that it spells none.  The library writes a text and reads it back
  unchanged, whatever it contains (only bytes that are not UTF-8, which
  the program's strings do not hold, would be replaced on writing). *)
Module json.

#[local] Unset Elimination Schemes.
Inductive Value : Type :=
| JNull
| JBool (b : bool)
| JNumber (literal : string)
| JString (s : string)
| JArray (elems : list Value)
| JObject (members : list (string * Value)).
#[local] Set Elimination Schemes.

Inductive Bytes : Type :=
| JSONText (doc : Value)
| NotJSON (raw : string).

(** Object keys are written in byte-wise increasing order. *)
Definition key_le (a b : string * bool) : Prop := String.leb a.1 b.1 = true.

#[global] Instance key_le_dec a b : Decision (key_le a b).
Proof. unfold key_le. apply _. Defined.

Definition member (kv : string * bool) : string * Value := (kv.1, JBool kv.2).

(** [json.MarshalIndent(m, "", "  ")] for [m : map[string]bool].  A nil
    map is written as [null]; encoding this type cannot fail. *)
Definition MarshalIndent (m : option (gmap string bool)) : error + Bytes :=
  match m with
  | None => inr (JSONText JNull)
  | Some m => inr (JSONText (JObject (member <$> merge_sort key_le (map_to_list m))))
  end.

Definition kind (v : Value) : string :=
  match v with
  | JNull => "null"
  | JBool _ => "bool"
  | JNumber _ => "number"
  | JString _ => "string"
  | JArray _ => "array"
  | JObject _ => "object"
  end.

Definition type_error (v : Value) (target : string) : error :=
  "json: cannot unmarshal " +:+ kind v +:+ " into Go value of type " +:+ target.

(** The decoder keeps the first type error and goes on decoding. *)
Definition saveError (saved : option error) (e : error) : option error :=
  match saved with
  | Some e0 => Some e0
  | None => Some e
  end.

(** One member of an object decoded into the map: a fresh zero element
    receives the value and is stored under the key. [null] leaves the
    element at zero; a value of another type is a type error and leaves
    it at zero too. *)
Definition storeMember (acc : gmap string bool * option error)
    (kv : string * Value) : gmap string bool * option error :=
  match kv.2 with
  | JBool b => (<[kv.1 := b]> acc.1, acc.2)
  | JNull => (<[kv.1 := false]> acc.1, acc.2)
  | v => (<[kv.1 := false]> acc.1, saveError acc.2 (type_error v "bool"))
  end.

(** [json.Unmarshal(data, &m)] for [m : map[string]bool]: the map after
    the call and the error returned.  Text that is not JSON is refused
    before the map is touched; [null] sets the map to nil; an object is
    decoded into the existing map (allocated if nil), entries it does not
    name being kept; any other document is a type error. *)
Definition Unmarshal (data : Bytes) (m : option (gmap string bool))
    : option (gmap string bool) * option error :=
  match data with
  | NotJSON _ => (m, Some "invalid character looking for beginning of value")
  | JSONText JNull => (None, None)
  | JSONText (JObject members) =>
      let r := foldl storeMember (default ∅ m, None) members in
      (Some r.1, r.2)
  | JSONText v => (m, Some (type_error v "map[string]bool"))
  end.

(** What a member that decodes without an error stores: its boolean, or
    [false] for [null]. *)
Definition flag_of (kv : string * Value) : string * bool :=
  (kv.1, match kv.2 with JBool b => b | _ => false end).

(** The documents [Unmarshal] decodes into a [map[string]bool] without an
    error: [null], and the objects whose members are booleans or [null]. *)
Definition is_flag (v : Value) : bool :=
  match v with
  | JBool _ | JNull => true
  | _ => false
  end.

Definition decodable (data : Bytes) : bool :=
  match data with
  | NotJSON _ => false
  | JSONText JNull => true
  | JSONText (JObject members) => forallb (fun kv => is_flag kv.2) members
  | JSONText _ => false
  end.

(** *** [json.Marshal] of a [map[string]interface{}]

    The maps, slices, strings, booleans and integers of a message are
    represented by the document they are written as; a map is written with
    its keys in increasing order, and encoding such values cannot fail. *)
Definition member_le (a b : string * Value) : Prop := String.leb a.1 b.1 = true.

#[global] Instance member_le_dec a b : Decision (member_le a b).
Proof. unfold member_le. apply _. Defined.

Fixpoint sorted (v : Value) : Value :=
  match v with
  | JArray elems => JArray (map sorted elems)
  | JObject members =>
      JObject (merge_sort member_le (map (fun '(k, v) => (k, sorted v)) members))
  | v => v
  end.

Definition Marshal (v : Value) : error + Bytes := inr (JSONText (sorted v)).

(** [m[key]] for a map written as an object. *)
Definition field (key : string) (v : Value) : option Value :=
  match v with
  | JObject members =>
      (fun found : nat * (string * Value) => found.2.2)
        <$> list_find (fun kv => kv.1 = key) members
  | _ => None
  end.

End json.

(** ** os: a flat file system

  A path names a regular file with its owner's read and write permission
  and its content, or a directory.  The process owns its files; a path is
  not empty, and the directory a new file is created in exists and is
  writable.  A write that fails fails when the file is opened, on a
  directory or on a file without write permission; the other failures of
  the real call (a missing parent directory, a full disk or an I/O error
  in the middle of a write, which would leave a truncated file) are
  outside this model. *)
Module os.

Record FileMode : Type := { readable : bool; writable : bool }.

(** [0644] for the owner. *)
Definition mode0644 : FileMode := {| readable := true; writable := true |}.

Inductive Node : Type :=
| File (mode : FileMode) (data : json.Bytes)
| Dir.

Abbreviation Disk := (gmap string Node).

Definition Stat (name : string) (d : Disk) : option error :=
  match d !! name with
  | Some _ => None
  | None => Some ("stat " +:+ name +:+ ": no such file or directory")
  end.

Definition ReadFile (name : string) (d : Disk) : error + json.Bytes :=
  match d !! name with
  | None => inl ("open " +:+ name +:+ ": no such file or directory")
  | Some Dir => inl ("read " +:+ name +:+ ": is a directory")
  | Some (File mode data) =>
      if readable mode then inr data
      else inl ("open " +:+ name +:+ ": permission denied")
  end.

(** [os.WriteFile(name, data, perm)]: creates the file with [perm], or
    truncates and rewrites an existing one, whose mode is kept. *)
Definition WriteFile (name : string) (data : json.Bytes) (perm : FileMode)
    (d : Disk) : option error * Disk :=
  match d !! name with
  | None => (None, <[name := File perm data]> d)
  | Some Dir => (Some ("open " +:+ name +:+ ": is a directory"), d)
  | Some (File mode _) =>
      if writable mode then (None, <[name := File mode data]> d)
      else (Some ("open " +:+ name +:+ ": permission denied"), d)
  end.

End os.

(** ** net/http, as far as the clients go

    A client builds a request ([http.NewRequestWithContext]), sets its
    headers and sends it ([httpClient.Do]); each of the two calls may
    return an error, which the client returns as it is.  The answer is the
    outside world's: a function of the request and of the world's state. *)
Module http.

Record Request : Type := {
  Method : string;
  URL : string;
  Header : list (string * string);     (* the headers set, in the order set *)
  body : option json.Bytes;            (* [nil], or the buffer's content *)
}.

Record Response : Type := {
  StatusCode : Z;
  Body : string;                       (* what [io.ReadAll(resp.Body)] reads *)
}.

Definition StatusOK : Z := 200.

(** The error of [NewRequestWithContext] or of [Do], or the response. *)
Definition Client (World : Type) : Type :=
  Request -> World -> (error + Response) * World.

End http.

(** ** storage.go *)
Module storage.

(** [type SeenTweets struct { mu; tweets map[string]bool; filePath string }] *)
Record SeenTweets : Type := {
  tweets : option (gmap string bool);
  filePath : string;
}.

(** [return st.tweets[tweetID]]: the stored value, [false] for a key that
    is absent (and for every key of a nil map). *)
Definition Has (st : SeenTweets) (tweetID : string) : bool :=
  match tweets st with
  | Some m => default false (m !! tweetID)
  | None => false
  end.

(** [st.tweets[tweetID] = true].  [None]: the run-time panic
    "assignment to entry in nil map". *)
Definition Add (st : SeenTweets) (tweetID : string) : option SeenTweets :=
  match tweets st with
  | Some m => Some {| tweets := Some (<[tweetID := true]> m); filePath := filePath st |}
  | None => None
  end.

(** [len(st.tweets)] *)
Definition Count (st : SeenTweets) : Z :=
  match tweets st with
  | Some m => Z.of_nat (size m)
  | None => 0
  end.

Definition Save (st : SeenTweets) (d : os.Disk) : option error * os.Disk :=
  match json.MarshalIndent (tweets st) with
  | inl err => (Some ("failed to marshal seen tweets: " +:+ err), d)
  | inr data =>
      match os.WriteFile (filePath st) data os.mode0644 d with
      | (Some err, d') => (Some ("failed to write seen tweets file: " +:+ err), d')
      | (None, d') => (None, d')
      end
  end.

(** [Load] mutates the receiver: the store after the call and the error. *)
Definition Load (st : SeenTweets) (d : os.Disk) : SeenTweets * option error :=
  match os.ReadFile (filePath st) d with
  | inl err => (st, Some ("failed to read seen tweets file: " +:+ err))
  | inr data =>
      match json.Unmarshal data (tweets st) with
      | (m, Some err) =>
          ({| tweets := m; filePath := filePath st |},
           Some ("failed to unmarshal seen tweets: " +:+ err))
      | (m, None) => ({| tweets := m; filePath := filePath st |}, None)
      end
  end.

Definition NewSeenTweets (filePath : string) (d : os.Disk) : error + SeenTweets :=
  let st := {| tweets := Some ∅; filePath := filePath |} in
  match os.Stat filePath d with
  | None =>
      match Load st d with
      | (_, Some err) => inl err
      | (st', None) => inr st'
      end
  | Some _ => inr st
  end.

(** The map after [m[id] = true] for each identifier of a list, in order. *)
Definition add_ids (m : gmap string bool) (ids : list string) : gmap string bool :=
  foldl (fun acc id => <[id := true]> acc) m ids.

(** [Add] for each identifier of a list, in order. *)
Definition AddAll (st : SeenTweets) (ids : list string) : option SeenTweets :=
  foldl (fun acc id => match acc with Some st => Add st id | None => None end)
    (Some st) ids.

End storage.

(** ** twitter/client.go: the tweet and the client's two queries

    The HTTP exchange is the outside world's: a query is a function of the
    world's state that returns the tweets or an error, and the state after. *)
Module twitter.

Record Tweet : Type := {
  ID : string;
  Text : string;
  AuthorID : string;
  CreatedAt : Z;        (* time.Time, as Unix seconds *)
  Username : string;
}.

Record Client (World : Type) : Type := {
  GetUserTweets : string -> Z -> World -> (error + list Tweet) * World;
  SearchTweets : string -> Z -> World -> (error + list Tweet) * World;
}.
Arguments GetUserTweets {World}.
Arguments SearchTweets {World}.

(** *** The client over HTTP *)

(** [type User]: its fields [ID], [Username] and [Name]. *)
Record User : Type := {
  UserID : string;
  UserUsername : string;
  Name : string;
}.

Record ResponseIncludes : Type := {
  Users : list User;
}.

(** [type Response]; [Data] is [None] for the nil slice, [Includes] for
    the nil pointer.  The field [Meta] is decoded and never read. *)
Record Response : Type := {
  Data : option (list Tweet);
  Includes : option ResponseIncludes;
}.

(** What the client calls outside of its package: the HTTP exchange, the
    decoding of a response body into [struct{ Data User }] and into
    [Response] ([json.NewDecoder(resp.Body).Decode]), and
    [url.Values.Encode] of the parameters set. *)
Record API (World : Type) : Type := {
  Do : http.Client World;
  decodeUser : string -> error + User;
  decodeResponse : string -> error + Response;
  Encode : list (string * string) -> string;
}.
Arguments Do {World}.
Arguments decodeUser {World}.
Arguments decodeResponse {World}.
Arguments Encode {World}.

(** [strings.TrimPrefix] *)
Definition TrimPrefix (s prefix : string) : string :=
  if String.prefix prefix s
  then String.substring (String.length prefix)
         (String.length s - String.length prefix)%nat s
  else s.

(** [tweets[i].Username = username] *)
Definition withUsername (username : string) (tweet : Tweet) : Tweet :=
  {| ID := ID tweet; Text := Text tweet; AuthorID := AuthorID tweet;
     CreatedAt := CreatedAt tweet; Username := username |}.

(** The methods of [*Client], by the client's [bearerToken]. *)
Module client.
Section WithWorld.
Context {World : Type} (api : API World).

(** The GET request with the authorization header, sent. *)
Definition get (bearerToken urlStr : string) : World -> (error + http.Response) * World :=
  Do api {| http.Method := "GET"; http.URL := urlStr;
            http.Header := [("Authorization", "Bearer " +:+ bearerToken)];
            http.body := None |}.

(** [fmt.Errorf("Twitter API error (status %d): %s", ...)] *)
Definition statusError (resp : http.Response) : error :=
  "Twitter API error (status " +:+ pretty (http.StatusCode resp) +:+ "): "
  +:+ http.Body resp.

Definition getUserIDByUsername (bearerToken username : string) (w : World)
    : (error + string) * World :=
  let username := TrimPrefix username "@" in
  let endpoint := "https://api.twitter.com/2/users/by/username/" +:+ username in
  match get bearerToken endpoint w with
  | (inl err, w) => (inl err, w)
  | (inr resp, w) =>
      if decide (http.StatusCode resp <> http.StatusOK) then (inl (statusError resp), w)
      else
        match decodeUser api (http.Body resp) with
        | inl err => (inl err, w)
        | inr user => (inr (UserID user), w)
        end
  end.

(** [urlStr], from the endpoint and the parameters. *)
Definition withParams (endpoint : string) (params : list (string * string)) : string :=
  if decide (0 < length params)%nat then endpoint +:+ "?" +:+ Encode api params
  else endpoint.

Definition makeRequest (bearerToken endpoint : string)
    (params : list (string * string)) (w : World) : (error + list Tweet) * World :=
  match get bearerToken (withParams endpoint params) w with
  | (inl err, w) => (inl err, w)
  | (inr resp, w) =>
      if decide (http.StatusCode resp <> http.StatusOK) then (inl (statusError resp), w)
      else
        match decodeResponse api (http.Body resp) with
        | inl err => (inl err, w)
        | inr result =>
            match Data result with
            | None => (inr [], w)
            | Some data => (inr data, w)
            end
        end
  end.

(** [userMap], after the loop over the users included. *)
Definition userMap (result : Response) : gmap string string :=
  match Includes result with
  | Some includes =>
      foldl (fun m user => <[UserID user := UserUsername user]> m) ∅ (Users includes)
  | None => ∅
  end.

(** One iteration of the loop that sets the user names. *)
Definition mapUsername (m : gmap string string) (tweet : Tweet) : Tweet :=
  match m !! AuthorID tweet with
  | Some username => withUsername username tweet
  | None => tweet
  end.

Definition makeRequestWithUsers (bearerToken endpoint : string)
    (params : list (string * string)) (w : World) : (error + list Tweet) * World :=
  match get bearerToken (withParams endpoint params) w with
  | (inl err, w) => (inl err, w)
  | (inr resp, w) =>
      if decide (http.StatusCode resp <> http.StatusOK) then (inl (statusError resp), w)
      else
        match decodeResponse api (http.Body resp) with
        | inl err => (inl err, w)
        | inr result =>
            match Data result with
            | None => (inr [], w)
            | Some data => (inr (mapUsername (userMap result) <$> data), w)
            end
        end
  end.

Definition GetUserTweets (bearerToken username : string) (maxResults : Z) (w : World)
    : (error + list Tweet) * World :=
  match getUserIDByUsername bearerToken username w with
  | (inl err, w) =>
      (inl ("failed to get user ID for @" +:+ username +:+ ": " +:+ err), w)
  | (inr userID, w) =>
      let endpoint := "https://api.twitter.com/2/users/" +:+ userID +:+ "/tweets" in
      let params := [("max_results", pretty maxResults);
                     ("tweet.fields", "created_at,author_id");
                     ("exclude", "retweets,replies")] in
      match makeRequest bearerToken endpoint params w with
      | (inl err, w) => (inl err, w)
      | (inr tweets, w) => (inr (withUsername username <$> tweets), w)
      end
  end.

Definition SearchTweets (bearerToken query : string) (maxResults : Z) (w : World)
    : (error + list Tweet) * World :=
  let endpoint := "https://api.twitter.com/2/tweets/search/recent" in
  let params := [("query", query);
                 ("max_results", pretty maxResults);
                 ("tweet.fields", "created_at,author_id");
                 ("expansions", "author_id");
                 ("user.fields", "username")] in
  makeRequestWithUsers bearerToken endpoint params w.

(** [NewClient]: the client of the crawler. *)
Definition NewClient (bearerToken : string) : Client World :=
  Build_Client World (GetUserTweets bearerToken) (SearchTweets bearerToken).

End WithWorld.
End client.

End twitter.

(** ** The AI filter: the analysis and the call that produces it *)
Module ai.

Record Analysis : Type := {
  Score : Z;
  Category : string;
  Sentiment : string;
  Tickers : list string;
  Summary : string;
  KeyPoints : list string;
  Urgency : string;
  Reasoning : string;
}.

(** [Analyze] returns a non-nil analysis or an error. *)
Record Filter (World : Type) : Type := {
  Analyze : twitter.Tweet -> string -> World -> (error + Analysis) * World;
}.
Arguments Analyze {World}.

(** *** [extractJSON]

    A Go string is a sequence of bytes, and so is a [string] here:
    [len(text)] is [String.length], [text[i]] and [text[lo:hi]] count
    bytes.  An index or a slice out of range is a run-time panic: [None]. *)

(** The bytes of a text, in order. *)
Definition bytes (text : string) : list ascii := String.list_ascii_of_string text.

(** [len(text)] *)
Definition len (text : string) : Z := Z.of_nat (String.length text).

(** [text[i]] *)
Definition index (text : string) (i : Z) : option ascii :=
  if decide (0 <= i) then String.get (Z.to_nat i) text else None.

(** [text[lo:hi]] *)
Definition slice (text : string) (lo hi : Z) : option string :=
  if decide (0 <= lo /\ lo <= hi /\ hi <= len text)
  then Some (String.substring (Z.to_nat lo) (Z.to_nat (hi - lo)) text)
  else None.

(** The first loop of [extractJSON], over the values [todo] that [i] still
    has to take: [(start, end)] when the loop is left, by [break] or at
    its end. *)
Fixpoint fenceLoop (text : string) (todo : list Z) (start : Z) : option (Z * Z) :=
  match todo with
  | [] => Some (start, -1)
  | i :: todo =>
      match slice text i (i + 7) with
      | None => None
      | Some opening =>
          if decide (opening = "```json") then fenceLoop text todo (i + 7)
          else
            match slice text i (i + 3) with
            | None => None
            | Some fence =>
                if decide (fence = "```" /\ start <> -1) then Some (start, i)
                else fenceLoop text todo start
            end
      end
  end.

(** The inner loop of the second part, over the values [js] of [j]: the
    first of them at which the text has a closing brace. *)
Fixpoint closingLoop (text : string) (js : list Z) : option (option Z) :=
  match js with
  | [] => Some None
  | j :: js =>
      match index text j with
      | None => None
      | Some b =>
          if decide (b = "}"%char) then Some (Some j) else closingLoop text js
      end
  end.

(** The second loop: what it returns, if it returns. *)
Fixpoint braceLoop (text : string) (todo : list Z) : option (option string) :=
  match todo with
  | [] => Some None
  | i :: todo =>
      match index text i with
      | None => None
      | Some b =>
          if decide (b = "{"%char) then
            match closingLoop text (reverse (seqZ (i + 1) (len text - 1 - i))) with
            | None => None
            | Some (Some j) =>
                match slice text i (j + 1) with
                | None => None
                | Some block => Some (Some block)
                end
            | Some None => braceLoop text todo
            end
          else braceLoop text todo
      end
  end.

Definition extractJSON (text : string) : option string :=
  match fenceLoop text (seqZ 0 (len text - 6)) (-1) with
  | None => None
  | Some (start, end_) =>
      if decide (start <> -1 /\ end_ <> -1) then slice text start end_
      else
        match braceLoop text (seqZ 0 (len text)) with
        | None => None
        | Some (Some block) => Some block
        | Some None => Some text
        end
  end.

(** *** The call of the scorer over HTTP *)
Module claude.

(** [type Filter struct]; beside the HTTP client, what [callClaudeAPI]
    calls outside of the package: the decoding of the response body into
    the texts of its content blocks ([json.NewDecoder(resp.Body).Decode]),
    and [json.Unmarshal] of a text into the zero [Analysis]. *)
Record Filter (World : Type) : Type := {
  apiKey : string;
  model : string;
  httpClient : http.Client World;
  decodeContent : string -> error + list string;
  unmarshalAnalysis : string -> error + Analysis;
}.
Arguments apiKey {World}.
Arguments model {World}.
Arguments httpClient {World}.
Arguments decodeContent {World}.
Arguments unmarshalAnalysis {World}.

Section WithWorld.
Context {World : Type}.

Definition requestBody (f : Filter World) (prompt : string) : json.Value :=
  json.JObject
    [("model", json.JString (model f));
     ("max_tokens", json.JNumber "2048");
     ("temperature", json.JNumber "0.2");
     ("messages",
      json.JArray [json.JObject [("role", json.JString "user");
                                 ("content", json.JString prompt)]])].

(** [req], with its headers set. *)
Definition request (f : Filter World) (jsonData : json.Bytes) : http.Request :=
  {| http.Method := "POST"; http.URL := "https://api.anthropic.com/v1/messages";
     http.Header := [("Content-Type", "application/json");
                     ("x-api-key", apiKey f);
                     ("anthropic-version", "2023-06-01")];
     http.body := Some jsonData |}.

(** [callClaudeAPI]: the analysis or the error, and the world after;
    [None] is a run-time panic. *)
Definition callClaudeAPI (f : Filter World) (prompt : string) (w : World)
    : option ((error + Analysis) * World) :=
  match json.Marshal (requestBody f prompt) with
  | inl err => Some (inl err, w)
  | inr jsonData =>
      match httpClient f (request f jsonData) w with
      | (inl err, w) => Some (inl err, w)
      | (inr resp, w) =>
          if decide (http.StatusCode resp <> http.StatusOK) then
            Some (inl ("Claude API error (status " +:+ pretty (http.StatusCode resp)
                       +:+ "): " +:+ http.Body resp), w)
          else
            match decodeContent f (http.Body resp) with
            | inl err => Some (inl err, w)
            | inr [] => Some (inl "empty response from Claude API", w)
            | inr (text :: _) =>
                match extractJSON text with
                | None => None
                | Some text =>
                    match unmarshalAnalysis f text with
                    | inl err =>
                        Some (inl ("failed to parse AI response: " +:+ err
                                   +:+ " (response: " +:+ text +:+ ")"), w)
                    | inr analysis => Some (inr analysis, w)
                    end
                end
            end
      end
  end.

End WithWorld.
End claude.

End ai.

(** ** slack.go *)
Module slack.

Definition getEmojiByUrgency (urgency : string) : string :=
  if decide (urgency = "critical") then "🚨"
  else if decide (urgency = "high") then "⚠️"
  else if decide (urgency = "normal") then "💡"
  else if decide (urgency = "low") then "ℹ️"
  else "💡".

Definition getColorByUrgency (urgency : string) : string :=
  if decide (urgency = "critical") then "#FF0000"      (* 赤 *)
  else if decide (urgency = "high") then "#FF9900"     (* オレンジ *)
  else if decide (urgency = "normal") then "#36A64F"   (* 緑 *)
  else if decide (urgency = "low") then "#808080"      (* グレー *)
  else "#36A64F".

Definition getSentimentEmoji (sentiment : string) : string :=
  if decide (sentiment = "bullish") then "📈 強気"
  else if decide (sentiment = "bearish") then "📉 弱気"
  else if decide (sentiment = "neutral") then "➡️ 中立"
  else "❓ 不明".

(** The two deliveries post to the webhook: [None] is the nil error. *)
Record Notifier (World : Type) : Type := {
  NotifyTweet : twitter.Tweet -> ai.Analysis -> World -> option error * World;
  NotifySimple : twitter.Tweet -> string -> World -> option error * World;
}.
Arguments NotifyTweet {World}.
Arguments NotifySimple {World}.

(** *** The notifier over HTTP *)

(** [type SlackNotifier struct] *)
Record SlackNotifier (World : Type) : Type := {
  webhookURL : string;
  username : string;
  iconEmoji : string;
  httpClient : http.Client World;
}.
Arguments webhookURL {World}.
Arguments username {World}.
Arguments iconEmoji {World}.
Arguments httpClient {World}.

(** The line feed of the format strings. *)
Definition LF : string := String "010"%char "".

(** [fmt.Errorf("Slack webhook returned status %d", resp.StatusCode)] *)
Definition statusError (resp : http.Response) : error :=
  "Slack webhook returned status " +:+ pretty (http.StatusCode resp).

(** The methods of [*SlackNotifier]. *)
Module notifier.
Section WithWorld.
Context {World : Type}.

(** [tickerLinks] *)
Definition tickerLinks (analysis : ai.Analysis) : list string :=
  (fun ticker => "<https://finance.yahoo.com/quote/" +:+ ticker +:+ "|$" +:+ ticker +:+ ">")
    <$> ai.Tickers analysis.

(** One field of the attachment. *)
Definition fieldOf (title value : string) (short : bool) : json.Value :=
  json.JObject [("title", json.JString title); ("value", json.JString value);
                ("short", json.JBool short)].

(** [fields], when the attachment is built. *)
Definition fields (analysis : ai.Analysis) : list json.Value :=
  let fields := [fieldOf "📝 AI分析サマリー" (ai.Summary analysis) false] in
  let fields :=
    if decide (ai.Sentiment analysis <> "")
    then (fields ++ [fieldOf "💹 センチメント"
                       (getSentimentEmoji (ai.Sentiment analysis)) true])%list
    else fields in
  let fields :=
    if decide (0 < length (tickerLinks analysis))%nat
    then (fields ++ [fieldOf "🎯 関連銘柄"
                       (String.concat ", " (tickerLinks analysis)) true])%list
    else fields in
  let fields :=
    if decide (0 < length (ai.KeyPoints analysis))%nat
    then (fields ++ [fieldOf "📌 重要ポイント"
                       ("• " +:+ String.concat (LF +:+ "• ") (ai.KeyPoints analysis))
                       false])%list
    else fields in
  fields.

(** [attachment["actions"]], when the message is built. *)
Definition actions (tweet : twitter.Tweet) (analysis : ai.Analysis) : list json.Value :=
  let actions :=
    [json.JObject
       [("type", json.JString "button");
        ("text", json.JString "🔗 ポストを見る");
        ("url", json.JString ("https://x.com/" +:+ twitter.Username tweet +:+ "/status/"
                              +:+ twitter.ID tweet));
        ("style", json.JString "primary")]] in
  match ai.Tickers analysis with
  | first :: _ =>
      (actions ++
       [json.JObject
          [("type", json.JString "button");
           ("text", json.JString "📊 チャート");
           ("url", json.JString ("https://www.tradingview.com/chart/?symbol=" +:+ first))]])%list
  | [] => actions
  end.

Definition attachment (tweet : twitter.Tweet) (analysis : ai.Analysis) : json.Value :=
  json.JObject
    [("color", json.JString (getColorByUrgency (ai.Urgency analysis)));
     ("author_name", json.JString ("@" +:+ twitter.Username tweet));
     ("title", json.JString (getEmojiByUrgency (ai.Urgency analysis) +:+ " ["
                             +:+ ai.Category analysis +:+ "] スコア: "
                             +:+ pretty (ai.Score analysis) +:+ "/100"));
     ("text", json.JString (twitter.Text tweet));
     ("fields", json.JArray (fields analysis));
     ("footer", json.JString "X Trading Crawler");
     ("footer_icon", json.JString "https://abs.twimg.com/icons/apple-touch-icon-192x192.png");
     ("ts", json.JNumber (pretty (twitter.CreatedAt tweet)));
     ("actions", json.JArray (actions tweet analysis))].

Definition buildMessage (s : SlackNotifier World) (tweet : twitter.Tweet)
    (analysis : ai.Analysis) : json.Value :=
  json.JObject
    [("username", json.JString (username s));
     ("icon_emoji", json.JString (iconEmoji s));
     ("attachments", json.JArray [attachment tweet analysis])].

(** [req], with its header set. *)
Definition request (s : SlackNotifier World) (jsonData : json.Bytes) : http.Request :=
  {| http.Method := "POST"; http.URL := webhookURL s;
     http.Header := [("Content-Type", "application/json")];
     http.body := Some jsonData |}.

(** The message marshalled and posted to the webhook: what both
    notifications do once the message is built. *)
Definition post (s : SlackNotifier World) (message : json.Value) (w : World)
    : option error * World :=
  match json.Marshal message with
  | inl err => (Some err, w)
  | inr jsonData =>
      match httpClient s (request s jsonData) w with
      | (inl err, w) => (Some err, w)
      | (inr resp, w) =>
          if decide (http.StatusCode resp <> http.StatusOK)
          then (Some (statusError resp), w)
          else (None, w)
      end
  end.

Definition NotifyTweet (s : SlackNotifier World) (tweet : twitter.Tweet)
    (analysis : ai.Analysis) : World -> option error * World :=
  post s (buildMessage s tweet analysis).

(** [message], in [NotifySimple]. *)
Definition simpleMessage (s : SlackNotifier World) (tweet : twitter.Tweet) : json.Value :=
  let text :=
    "*@" +:+ twitter.Username tweet +:+ "* さんの新しい投稿:" +:+ LF
    +:+ twitter.Text tweet +:+ LF +:+ LF +:+ "🔗 <"
    +:+ ("https://x.com/" +:+ twitter.Username tweet +:+ "/status/" +:+ twitter.ID tweet)
    +:+ "|ポストを見る>" in
  json.JObject
    [("username", json.JString (username s));
     ("icon_emoji", json.JString (iconEmoji s));
     ("text", json.JString text)].

Definition NotifySimple (s : SlackNotifier World) (tweet : twitter.Tweet)
    (traderInfo : string) : World -> option error * World :=
  post s (simpleMessage s tweet).

(** The notifier as the crawler holds it. *)
Definition asNotifier (s : SlackNotifier World) : Notifier World :=
  Build_Notifier World (NotifyTweet s) (NotifySimple s).

End WithWorld.
End notifier.

End slack.

(** ** config *)
Module config.

Record AIConfig : Type := {
  Enabled : bool;
  MinScore : Z;
  Model : string;
}.

Record Trader : Type := {
  Username : string;
  DisplayName : string;
  Priority : string;
}.

Record Keyword : Type := {
  Query : string;
  Name : string;
}.

(** [SlackUsername] is the field [Username] of [SlackConfig]. *)
Record SlackConfig : Type := {
  WebhookURL : string;
  SlackUsername : string;
  IconEmoji : string;
}.

Record Config : Type := {
  Interval : string;
  AI : AIConfig;
  Traders : list Trader;
  Keywords : list Keyword;
  Slack : SlackConfig;
}.

(** *** [Load]

    [Config] above has the fields that [main] and the crawler read.  The
    struct has one more, [Log], which only [Load] touches: [Load] returns
    it beside the configuration. *)
Record LogConfig : Type := {
  Level : string;
}.

(** What [Load] calls outside of the package: [os.ReadFile] (with the
    bytes read as a string), [os.ExpandEnv], and [yaml.Unmarshal] into the
    zero [Config]. *)
Record Loader : Type := {
  ReadFile : string -> error + string;
  ExpandEnv : string -> string;
  Unmarshal : string -> error + Config * LogConfig;
}.

Definition Load (env : Loader) (path : string) : error + Config * LogConfig :=
  match ReadFile env path with
  | inl err => inl ("failed to read config file: " +:+ err)
  | inr data =>
      let content := ExpandEnv env data in
      match Unmarshal env content with
      | inl err => inl ("failed to parse config file: " +:+ err)
      | inr (config, log) =>
          let interval :=
            if decide (Interval config = "") then "5m" else Interval config in
          let minScore :=
            if decide (MinScore (AI config) = 0) then 70 else MinScore (AI config) in
          let model :=
            if decide (Model (AI config) = "") then "claude-3-5-sonnet-20241022"
            else Model (AI config) in
          let username :=
            if decide (SlackUsername (Slack config) = "") then "X Trading Bot"
            else SlackUsername (Slack config) in
          let iconEmoji :=
            if decide (IconEmoji (Slack config) = "") then ":chart_with_upwards_trend:"
            else IconEmoji (Slack config) in
          let level := if decide (Level log = "") then "info" else Level log in
          inr ({| Interval := interval;
                  AI := {| Enabled := Enabled (AI config); MinScore := minScore;
                           Model := model |};
                  Traders := Traders config;
                  Keywords := Keywords config;
                  Slack := {| WebhookURL := WebhookURL (Slack config);
                              SlackUsername := username; IconEmoji := iconEmoji |} |},
               {| Level := level |})
      end
  end.

End config.

(** ** The crawler

    The outside world (the X API, the scorer, the Slack webhook) has a state
    of type [World]; the crawler's collaborators act on it.  A run of the
    crawler is a computation over the [State]: the world, the shared
    [SeenTweets] the crawler points to, the disk, and a trace of what the
    crawler did, in order (every call to a collaborator, every [Save], every
    log line, every sleep).  The trace is how the properties below speak of
    a call having been attempted or not. *)
Module crawler.

(** One [log.Printf] of the crawler, by its arguments. *)
Inductive LogLine : Type :=
| TraderError (username : string) (err : error)
| KeywordError (name : string) (err : error)
| SaveFailed (err : error)
| CrawlComplete (processed notified total_seen : Z)
| AnalysisFailed (tweetID : string) (err : error)
| SimpleNotificationFailed (err : error)
| ScoreTooLow (tweetID : string) (score minScore : Z)
| NotifyFailed (tweetID : string) (err : error)
| Notified (username : string) (score : Z) (category sentiment : string)
| NotifiedNoAI (username : string)
| NotifiedKeyword (username : string) (score : Z) (category : string)
| NotifiedKeywordNoAI (username : string)
| CrawlError (err : error).

(** What the trace records: a call with its arguments and its answer, a
    [Save] with the error it returned, a sleep, a log line. *)
Inductive Event : Type :=
| EvGetUserTweets (username : string) (maxResults : Z) (result : error + list twitter.Tweet)
| EvSearchTweets (query : string) (maxResults : Z) (result : error + list twitter.Tweet)
| EvAnalyze (tweet : twitter.Tweet) (info : string) (result : error + ai.Analysis)
| EvNotifySimple (tweet : twitter.Tweet) (info : string) (err : option error)
| EvNotifyTweet (tweet : twitter.Tweet) (analysis : ai.Analysis) (err : option error)
| EvSave (path : string) (err : option error)
| EvSleep (milliseconds : Z)
| EvLog (line : LogLine).

(** A delivery attempt: the tweet it is for and the error it returned. *)
Definition delivery (ev : Event) : option (twitter.Tweet * option error) :=
  match ev with
  | EvNotifySimple tweet _ err => Some (tweet, err)
  | EvNotifyTweet tweet _ err => Some (tweet, err)
  | _ => None
  end.

(** The event is a call (scoring or delivery) about a tweet with this identifier. *)
Definition about (tweetID : string) (ev : Event) : bool :=
  match ev with
  | EvAnalyze tweet _ _ => bool_decide (twitter.ID tweet = tweetID)
  | EvNotifySimple tweet _ _ => bool_decide (twitter.ID tweet = tweetID)
  | EvNotifyTweet tweet _ _ => bool_decide (twitter.ID tweet = tweetID)
  | _ => false
  end.

(** The fetch the event records, by its target: [inl username] or [inr query]. *)
Definition fetch (ev : Event) : option (string + string) :=
  match ev with
  | EvGetUserTweets username _ _ => Some (inl username)
  | EvSearchTweets query _ _ => Some (inr query)
  | _ => None
  end.

Definition is_save (ev : Event) : bool :=
  match ev with
  | EvSave _ _ => true
  | _ => false
  end.

Definition is_log (ev : Event) : bool :=
  match ev with
  | EvLog _ => true
  | _ => false
  end.

(** A delivery that returned nil, for a tweet with this identifier. *)
Definition delivered (tweetID : string) (ev : Event) : bool :=
  match ev with
  | EvNotifySimple tweet _ None => bool_decide (twitter.ID tweet = tweetID)
  | EvNotifyTweet tweet _ None => bool_decide (twitter.ID tweet = tweetID)
  | _ => false
  end.

(** How many deliveries returned nil for tweets with this identifier. *)
Definition successes (tweetID : string) (new : list Event) : nat :=
  length (filter (fun ev => delivered tweetID ev = true) new).

(** How many deliveries returned nil, for whatever tweet. *)
Definition delivered_count (new : list Event) : Z :=
  Z.of_nat (length (filter (fun p : twitter.Tweet * option error => p.2 = None)
                      (omap delivery new))).

(** The log line of a score below the minimum, for this identifier. *)
Definition scored_low (tweetID : string) (ev : Event) : bool :=
  match ev with
  | EvLog (ScoreTooLow id score minScore) =>
      bool_decide (id = tweetID) && (score <? minScore)
  | _ => false
  end.

(** A call to the scorer, or the rich delivery that needs its analysis. *)
Definition is_scoring (ev : Event) : bool :=
  match ev with
  | EvAnalyze _ _ _ => true
  | EvNotifyTweet _ _ _ => true
  | _ => false
  end.

(** The pause the event records, in milliseconds. *)
Definition pause (ev : Event) : option Z :=
  match ev with
  | EvSleep milliseconds => Some milliseconds
  | _ => None
  end.

(** A [continue] statement, or control reaching the end of the block. *)
Inductive Flow : Type := Continue | Through.

Section WithWorld.
Context {World : Type}.

Record Crawler : Type := {
  config : config.Config;
  twitterClient : twitter.Client World;
  aiFilter : option (ai.Filter World);       (* [None]: the nil filter *)
  slackNotifier : slack.Notifier World;
}.

Record State : Type := {
  world : World;
  seenTweets : storage.SeenTweets;           (* what [c.seenTweets] points to *)
  disk : os.Disk;
  trace : list Event;
}.

(** A computation returns a value and the state after, or panics. *)
Inductive Result (A : Type) : Type :=
| Ok (a : A) (s : State)
| Panic (msg : string) (s : State).
Arguments Ok {A}.
Arguments Panic {A}.

Definition M (A : Type) : Type := State -> Result A.

Definition ret {A : Type} (a : A) : M A := fun s => Ok a s.

Definition bind {A B : Type} (m : M A) (k : A -> M B) : M B :=
  fun s =>
    match m s with
    | Ok a s' => k a s'
    | Panic msg s' => Panic msg s'
    end.

Notation "x <- m ;; k" := (bind m (fun x => k))
  (at level 20, m at level 99, k at level 200, only parsing).
Notation "m ;; k" := (bind m (fun _ => k))
  (at level 100, k at level 200, right associativity, only parsing).

Definition record (ev : Event) (s : State) : State :=
  {| world := world s; seenTweets := seenTweets s; disk := disk s;
     trace := trace s ++ [ev] |}.

(** A call to a collaborator: the world answers, the trace records it. *)
Definition call {A : Type} (ev : A -> Event) (f : World -> A * World) : M A :=
  fun s =>
    let r := f (world s) in
    Ok r.1 {| world := r.2; seenTweets := seenTweets s; disk := disk s;
              trace := trace s ++ [ev r.1] |}.

Definition logPrintf (line : LogLine) : M unit :=
  fun s => Ok tt (record (EvLog line) s).

Definition Sleep (milliseconds : Z) : M unit :=
  fun s => Ok tt (record (EvSleep milliseconds) s).

(** [c.seenTweets.Has(id)], [.Add(id)], [.Save()], [.Count()] on the shared store. *)
Definition seenHas (tweetID : string) : M bool :=
  fun s => Ok (storage.Has (seenTweets s) tweetID) s.

Definition seenAdd (tweetID : string) : M unit :=
  fun s =>
    match storage.Add (seenTweets s) tweetID with
    | Some st => Ok tt {| world := world s; seenTweets := st; disk := disk s;
                          trace := trace s |}
    | None => Panic "assignment to entry in nil map" s
    end.

Definition seenSave : M (option error) :=
  fun s =>
    let r := storage.Save (seenTweets s) (disk s) in
    Ok r.1 {| world := world s; seenTweets := seenTweets s; disk := r.2;
              trace := trace s ++ [EvSave (storage.filePath (seenTweets s)) r.1] |}.

Definition seenCount : M Z :=
  fun s => Ok (storage.Count (seenTweets s)) s.

(** [for _, x := range xs { acc = body(x, acc) }] *)
Fixpoint forEach {A B : Type} (body : A -> B -> M B) (xs : list A) (acc : B) : M B :=
  match xs with
  | [] => ret acc
  | x :: rest => acc' <- body x acc ;; forEach body rest acc'
  end.

(** The body of the loop of [processTrader]; [cnt] is [(processed, notified)]. *)
Definition traderTweet (c : Crawler) (traderInfo : string)
    (tweet : twitter.Tweet) (cnt : Z * Z) : M (Z * Z) :=
  let '(processed, notified) := cnt in
  seen <- seenHas (twitter.ID tweet) ;;
  if (seen : bool) then ret (processed, notified) else
  let processed := processed + 1 in
  flow <-
    match aiFilter c with
    | Some f =>
        r <- call (EvAnalyze tweet traderInfo) (ai.Analyze f tweet traderInfo) ;;
        match r with
        | inl err =>
            logPrintf (AnalysisFailed (twitter.ID tweet) err) ;;
            e <- call (EvNotifySimple tweet traderInfo)
                   (slack.NotifySimple (slackNotifier c) tweet traderInfo) ;;
            match e with
            | Some err => logPrintf (SimpleNotificationFailed err) ;; ret Continue
            | None => ret Through
            end
        | inr analysis =>
            if ai.Score analysis <? config.MinScore (config.AI (config c)) then
              logPrintf (ScoreTooLow (twitter.ID tweet) (ai.Score analysis)
                           (config.MinScore (config.AI (config c)))) ;;
              seenAdd (twitter.ID tweet) ;;
              ret Continue
            else
              e <- call (EvNotifyTweet tweet analysis)
                     (slack.NotifyTweet (slackNotifier c) tweet analysis) ;;
              match e with
              | Some err => logPrintf (NotifyFailed (twitter.ID tweet) err) ;; ret Continue
              | None =>
                  logPrintf (Notified (twitter.Username tweet) (ai.Score analysis)
                               (ai.Category analysis) (ai.Sentiment analysis)) ;;
                  ret Through
              end
        end
    | None =>
        e <- call (EvNotifySimple tweet traderInfo)
               (slack.NotifySimple (slackNotifier c) tweet traderInfo) ;;
        match e with
        | Some err => logPrintf (NotifyFailed (twitter.ID tweet) err) ;; ret Continue
        | None => logPrintf (NotifiedNoAI (twitter.Username tweet)) ;; ret Through
        end
    end ;;
  match flow with
  | Continue => ret (processed, notified)
  | Through =>
      seenAdd (twitter.ID tweet) ;;
      let notified := notified + 1 in
      Sleep 500 ;;
      ret (processed, notified)
  end.

(** [processTrader]: [(processed, notified, err)]. *)
Definition processTrader (c : Crawler) (trader : config.Trader)
    : M (Z * Z * option error) :=
  r <- call (EvGetUserTweets (config.Username trader) 10)
         (twitter.GetUserTweets (twitterClient c) (config.Username trader) 10) ;;
  match r with
  | inl err => ret (0, 0, Some err)
  | inr tweets =>
      let traderInfo :=
        config.DisplayName trader +:+ " (Priority: " +:+ config.Priority trader +:+ ")" in
      cnt <- forEach (traderTweet c traderInfo) tweets (0, 0) ;;
      ret (cnt.1, cnt.2, None)
  end.

(** The body of the loop of [processKeyword]. *)
Definition keywordTweet (c : Crawler) (keyword : config.Keyword)
    (tweet : twitter.Tweet) (cnt : Z * Z) : M (Z * Z) :=
  let '(processed, notified) := cnt in
  seen <- seenHas (twitter.ID tweet) ;;
  if (seen : bool) then ret (processed, notified) else
  let processed := processed + 1 in
  let keywordInfo := "Keyword: " +:+ config.Name keyword in
  flow <-
    match aiFilter c with
    | Some f =>
        r <- call (EvAnalyze tweet keywordInfo) (ai.Analyze f tweet keywordInfo) ;;
        match r with
        | inl err =>
            logPrintf (AnalysisFailed (twitter.ID tweet) err) ;;
            e <- call (EvNotifySimple tweet keywordInfo)
                   (slack.NotifySimple (slackNotifier c) tweet keywordInfo) ;;
            match e with
            | Some err => logPrintf (SimpleNotificationFailed err) ;; ret Continue
            | None => ret Through
            end
        | inr analysis =>
            if ai.Score analysis <? config.MinScore (config.AI (config c)) then
              logPrintf (ScoreTooLow (twitter.ID tweet) (ai.Score analysis)
                           (config.MinScore (config.AI (config c)))) ;;
              seenAdd (twitter.ID tweet) ;;
              ret Continue
            else
              e <- call (EvNotifyTweet tweet analysis)
                     (slack.NotifyTweet (slackNotifier c) tweet analysis) ;;
              match e with
              | Some err => logPrintf (NotifyFailed (twitter.ID tweet) err) ;; ret Continue
              | None =>
                  logPrintf (NotifiedKeyword (twitter.Username tweet) (ai.Score analysis)
                               (ai.Category analysis)) ;;
                  ret Through
              end
        end
    | None =>
        e <- call (EvNotifySimple tweet keywordInfo)
               (slack.NotifySimple (slackNotifier c) tweet keywordInfo) ;;
        match e with
        | Some err => logPrintf (NotifyFailed (twitter.ID tweet) err) ;; ret Continue
        | None => logPrintf (NotifiedKeywordNoAI (twitter.Username tweet)) ;; ret Through
        end
    end ;;
  match flow with
  | Continue => ret (processed, notified)
  | Through =>
      seenAdd (twitter.ID tweet) ;;
      let notified := notified + 1 in
      Sleep 500 ;;
      ret (processed, notified)
  end.

Definition processKeyword (c : Crawler) (keyword : config.Keyword)
    : M (Z * Z * option error) :=
  r <- call (EvSearchTweets (config.Query keyword) 10)
         (twitter.SearchTweets (twitterClient c) (config.Query keyword) 10) ;;
  match r with
  | inl err => ret (0, 0, Some err)
  | inr tweets =>
      cnt <- forEach (keywordTweet c keyword) tweets (0, 0) ;;
      ret (cnt.1, cnt.2, None)
  end.

(** One iteration of each of the two loops of [Run]; [tot] is
    [(totalProcessed, totalNotified)]. *)
Definition runTrader (c : Crawler) (trader : config.Trader) (tot : Z * Z) : M (Z * Z) :=
  r <- processTrader c trader ;;
  match r with
  | (_, _, Some err) =>
      logPrintf (TraderError (config.Username trader) err) ;; ret tot
  | (processed, notified, None) => ret (tot.1 + processed, tot.2 + notified)
  end.

Definition runKeyword (c : Crawler) (keyword : config.Keyword) (tot : Z * Z) : M (Z * Z) :=
  r <- processKeyword c keyword ;;
  match r with
  | (_, _, Some err) =>
      logPrintf (KeywordError (config.Name keyword) err) ;; ret tot
  | (processed, notified, None) => ret (tot.1 + processed, tot.2 + notified)
  end.

(** [Run]: the error it returns. *)
Definition Run (c : Crawler) : M (option error) :=
  tot <- forEach (runTrader c) (config.Traders (config c)) (0, 0) ;;
  tot <- forEach (runKeyword c) (config.Keywords (config c)) tot ;;
  err <- seenSave ;;
  match err with
  | Some err => logPrintf (SaveFailed err)
  | None => ret tt
  end ;;
  n <- seenCount ;;
  logPrintf (CrawlComplete tot.1 tot.2 n) ;;
  ret None.

(** *** Reading a run *)

(** The state a computation ends in, also when it panics. *)
Definition final {A : Type} (r : Result A) : State :=
  match r with
  | Ok _ s => s
  | Panic _ s => s
  end.

(** What was recorded between the state [s] and the later state [s']. *)
Definition events_since (s s' : State) : list Event :=
  drop (length (trace s)) (trace s').

(** The store's map is allocated (not the nil map). *)
Definition allocated (s : State) : Prop := is_Some (storage.tweets (seenTweets s)).

(** [s'] comes after [s] by a stretch of the pipeline that recorded the
    events [new]: it fetched from the targets [fetched], in that order, did
    not save, left the disk and the store's path alone and the store's map
    allocated, and whatever identifier was seen before is still seen, no
    call having been made about a tweet with that identifier. *)
Definition stretch (fetched : list (string + string)) (s s' : State)
    (new : list Event) : Prop :=
  trace s' = (trace s ++ new)%list /\
  omap fetch new = fetched /\
  Forall (fun ev => is_save ev = false) new /\
  allocated s' /\
  disk s' = disk s /\
  storage.filePath (seenTweets s') = storage.filePath (seenTweets s) /\
  forall id,
    storage.Has (seenTweets s) id = true ->
    storage.Has (seenTweets s') id = true /\
    Forall (fun ev => about id ev = false) new.

(** A computation that, started where the identifier is seen, returns,
    leaves the identifier seen, and makes no call about a tweet with it. *)
Definition skips {A : Type} (id : string) (m : M A) : Prop :=
  forall s,
    storage.Has (seenTweets s) id = true ->
    exists a s',
      m s = Ok a s' /\
      storage.Has (seenTweets s') id = true /\
      Forall (fun ev => about id ev = false) (events_since s s').

(** What a stretch of the pipeline from [s] to [s'] that recorded [new]
    did to the store and through the webhook: an identifier seen before
    stays seen and no call is made about it; no identifier has two
    deliveries that returned nil; an identifier with such a delivery, or
    scored below the minimum, is seen after; an identifier seen after was
    seen before, or has such a delivery, or was scored below the minimum;
    a crawler without filter calls neither the scorer nor the rich
    delivery; and the pauses are of 500 milliseconds, one for each delivery
    that returned nil. *)
Definition ledger (c : Crawler) (s s' : State) (new : list Event) : Prop :=
  trace s' = (trace s ++ new)%list /\
  (forall id,
     storage.Has (seenTweets s) id = true ->
     storage.Has (seenTweets s') id = true /\
     Forall (fun ev => about id ev = false) new) /\
  (forall id, (successes id new <= 1)%nat) /\
  (forall id,
     Exists (fun ev => delivered id ev = true) new ->
     storage.Has (seenTweets s') id = true) /\
  (forall id,
     Exists (fun ev => scored_low id ev = true) new ->
     storage.Has (seenTweets s') id = true) /\
  (forall id,
     storage.Has (seenTweets s') id = true ->
     storage.Has (seenTweets s) id = true \/
     Exists (fun ev => delivered id ev = true) new \/
     Exists (fun ev => scored_low id ev = true) new) /\
  (aiFilter c = None -> Forall (fun ev => is_scoring ev = false) new) /\
  omap pause new = replicate (Z.to_nat (delivered_count new)) 500.

(** What [processTrader] and [processKeyword] return from [s], ending in
    [s'], by the answer [r] to the fetch: counters within each other that
    count the deliveries that returned nil; on a failed fetch, zeros, the
    error, and the store as it was; on fetched tweets, no error and no more
    processed than fetched. *)
Definition target_result (r : error + list twitter.Tweet) (s s' : State)
    (res : Z * Z * option error) : Prop :=
  0 <= res.1.2 <= res.1.1 /\
  res.1.2 = delivered_count (events_since s s') /\
  match r with
  | inl e => res = (0, 0, Some e) /\ seenTweets s' = seenTweets s
  | inr tweets => res.2 = None /\ res.1.1 <= Z.of_nat (length tweets)
  end.

(** The bodies of the two loops over fetched tweets, each with the context
    string it passes to the scorer and to the plain notification. *)
Inductive loop_body (c : Crawler)
    : string -> (twitter.Tweet -> Z * Z -> M (Z * Z)) -> Prop :=
| trader_body (traderInfo : string) :
    loop_body c traderInfo (traderTweet c traderInfo)
| keyword_body (keyword : config.Keyword) :
    loop_body c ("Keyword: " +:+ config.Name keyword) (keywordTweet c keyword).

End WithWorld.

(** The targets of a configuration, in the order [Run] visits them. *)
Definition targets (cfg : config.Config) : list (string + string) :=
  (inl ∘ config.Username <$> config.Traders cfg) ++
  (inr ∘ config.Query <$> config.Keywords cfg).

Arguments Crawler World : clear implicits.
Arguments State World : clear implicits.
Arguments Result World A : clear implicits.
Arguments M World A : clear implicits.
Arguments Ok {World A}.
Arguments Panic {World A}.

End crawler.

(** ** main.go *)
Module main.
Import crawler.

Section WithWorld.
Context {World : Type}.

(** What [main] reads from its surroundings: the two flags, the
    environment (after [godotenv.Load]), [config.Load] and
    [time.ParseDuration], and the constructors of the three clients. *)
Record Process : Type := {
  configPath : string;
  seenTweetsPath : string;
  Getenv : string -> string;
  config_Load : string -> error + config.Config;
  ParseDuration : string -> error + Z;
  NewClient : string -> twitter.Client World;
  NewNotifier : string -> string -> string -> slack.Notifier World;
  NewFilter : string -> string -> ai.Filter World;
}.

(** [main] up to the first crawl: [log.Fatal] with its message, or the
    crawler, the store it shares with [main], and the interval. *)
Inductive Startup : Type :=
| Fatal (msg : string)
| Started (crawlerInstance : Crawler World) (seenTweets : storage.SeenTweets) (interval : Z).

Definition startup (p : Process) (d : os.Disk) : Startup :=
  match config_Load p (configPath p) with
  | inl err => Fatal ("Failed to load config: " +:+ err)
  | inr cfg =>
      let xAPIToken := Getenv p "X_API_BEARER_TOKEN" in
      if decide (xAPIToken = "") then
        Fatal "X_API_BEARER_TOKEN environment variable is required"
      else
      let slackWebhookURL := config.WebhookURL (config.Slack cfg) in
      let slackWebhookURL :=
        if decide (slackWebhookURL = "") then Getenv p "SLACK_WEBHOOK_URL"
        else slackWebhookURL in
      if decide (slackWebhookURL = "") then
        Fatal "SLACK_WEBHOOK_URL is required (in config or environment variable)"
      else
      match storage.NewSeenTweets (seenTweetsPath p) d with
      | inl err => Fatal ("Failed to initialize seen tweets: " +:+ err)
      | inr seenTweets =>
          let twitterClient := NewClient p xAPIToken in
          let slackNotifier :=
            NewNotifier p slackWebhookURL (config.SlackUsername (config.Slack cfg))
              (config.IconEmoji (config.Slack cfg)) in
          let aiFilter :=
            if config.Enabled (config.AI cfg) then
              let apiKey := Getenv p "ANTHROPIC_API_KEY" in
              if decide (apiKey = "") then None
              else Some (NewFilter p apiKey (config.Model (config.AI cfg)))
            else None in
          let crawlerInstance :=
            {| config := cfg; twitterClient := twitterClient;
               aiFilter := aiFilter; slackNotifier := slackNotifier |} in
          match ParseDuration p (config.Interval cfg) with
          | inl err => Fatal ("Invalid interval: " +:+ err)
          | inr interval => Started crawlerInstance seenTweets interval
          end
      end
  end.

(** One crawl as [main] runs it, at start and at every tick ([main]'s own
    announcement of the crawl is not recorded). *)
Definition crawl (c : Crawler World) : M World unit :=
  bind (Run c) (fun err =>
    match err with
    | Some err => logPrintf (CrawlError err)
    | None => ret tt
    end).

(** The first [n] crawls of the process. *)
Fixpoint cycles (c : Crawler World) (n : nat) : M World unit :=
  match n with
  | O => ret tt
  | S n' => bind (crawl c) (fun _ => cycles c n')
  end.

(** The signal that ends [main]: the store is saved, and [main] returns
    (its two announcements of the shutdown are not recorded). *)
Definition shutdown : M World unit :=
  bind seenSave (fun err =>
    match err with
    | Some err => logPrintf (SaveFailed err)
    | None => ret tt
    end).

(** [main] from its start to the signal that ends it, the signal coming
    after the first crawl and [ticks] scheduled ones: the message of
    [log.Fatal], or the crawls and the shutdown on the store that
    [NewSeenTweets] returned, which [main] and the crawler share.  After
    the first crawl comes [time.NewTicker(interval)], which panics when
    the interval is not positive. *)
Definition run (p : Process) (w : World) (d : os.Disk) (ticks : nat)
    : string + Result World unit :=
  match startup p d with
  | Fatal msg => inl msg
  | Started crawlerInstance seenTweets interval =>
      inr (bind (crawl crawlerInstance) (fun _ =>
             if decide (interval <= 0)
             then fun s => Panic "non-positive interval for NewTicker" s
             else bind (cycles crawlerInstance ticks) (fun _ => shutdown))
             {| world := w; seenTweets := seenTweets; disk := d; trace := [] |})
  end.

End WithWorld.

Arguments Process World : clear implicits.
Arguments Startup World : clear implicits.

End main.

(** ** A small world to run the crawler in

    The API knows the trader [alice], whose timeline holds the tweets 1, 2
    and 3, and refuses [bob]; every search returns the tweets 2 and 4.  The
    scorer gives tweet 1 the score 70 and tweet 2 the score 69 and fails on
    the others.  The webhook refuses the plain notification of tweet 3. *)
Module example.
Import crawler.

Definition tweet (id : string) : twitter.Tweet :=
  {| twitter.ID := id; twitter.Text := "text of " +:+ id; twitter.AuthorID := "7";
     twitter.CreatedAt := 1700000000; twitter.Username := "alice" |}.

Definition analysis (score : Z) : ai.Analysis :=
  {| ai.Score := score; ai.Category := "market_news"; ai.Sentiment := "bullish";
     ai.Tickers := ["SPY"]; ai.Summary := "summary"; ai.KeyPoints := [];
     ai.Urgency := "high"; ai.Reasoning := "reasoning" |}.

Definition client : twitter.Client unit :=
  {| twitter.GetUserTweets username _ w :=
       (if decide (username = "alice") then inr [tweet "1"; tweet "2"; tweet "3"]
        else inl "Twitter API error (status 429)", w);
     twitter.SearchTweets _ _ w := (inr [tweet "2"; tweet "4"], w) |}.

Definition filter : ai.Filter unit :=
  {| ai.Analyze t _ w :=
       (if decide (twitter.ID t = "1") then inr (analysis 70)
        else if decide (twitter.ID t = "2") then inr (analysis 69)
        else inl "Claude API error (status 529)", w) |}.

Definition notifier : slack.Notifier unit :=
  {| slack.NotifyTweet _ _ w := (None, w);
     slack.NotifySimple t _ w :=
       (if decide (twitter.ID t = "3") then Some "Slack webhook returned status 404"
        else None, w) |}.

Definition bob : config.Trader :=
  {| config.Username := "bob"; config.DisplayName := "Bob"; config.Priority := "low" |}.

Definition alice : config.Trader :=
  {| config.Username := "alice"; config.DisplayName := "Alice"; config.Priority := "high" |}.

Definition etf : config.Keyword :=
  {| config.Query := "$SPY OR $QQQ"; config.Name := "ETF" |}.

Definition cfg : config.Config :=
  {| config.Interval := "5m";
     config.AI := {| config.Enabled := true; config.MinScore := 70; config.Model := "m" |};
     config.Traders := [bob; alice];
     config.Keywords := [etf];
     config.Slack := {| config.WebhookURL := "https://hooks.slack.com/services/T/B/X";
                        config.SlackUsername := "X Trading Bot";
                        config.IconEmoji := ":chart_with_upwards_trend:" |} |}.

Definition c : Crawler unit :=
  {| config := cfg; twitterClient := client; aiFilter := Some filter;
     slackNotifier := notifier |}.

(** The same crawler with no trader to watch, the keyword only. *)
Definition c_keywords : Crawler unit :=
  {| config :=
       {| config.Interval := "5m"; config.AI := config.AI cfg;
          config.Traders := []; config.Keywords := [etf];
          config.Slack := config.Slack cfg |};
     twitterClient := client; aiFilter := Some filter; slackNotifier := notifier |}.

(** The same crawler without the filter. *)
Definition c_plain : Crawler unit :=
  {| config := cfg; twitterClient := client; aiFilter := None;
     slackNotifier := notifier |}.

Definition fresh : storage.SeenTweets :=
  {| storage.tweets := Some ∅; storage.filePath := "seen_tweets.json" |}.

Definition s0 : State unit :=
  {| world := tt; seenTweets := fresh; disk := ∅; trace := [] |}.

(** The state after [Add] of the identifier 1 to the fresh store. *)
Definition s_seen : State unit :=
  {| world := tt;
     seenTweets := {| storage.tweets := Some {[ "1" := true ]};
                      storage.filePath := "seen_tweets.json" |};
     disk := ∅; trace := [] |}.

(** A disk whose seen file holds [null], and the state [main] starts the
    crawler in from it: [NewSeenTweets] returns a store whose map is nil. *)
Definition null_disk : os.Disk :=
  {[ "seen_tweets.json" := os.File os.mode0644 (json.JSONText json.JNull) ]}.

Definition s_null : State unit :=
  {| world := tt;
     seenTweets := {| storage.tweets := None; storage.filePath := "seen_tweets.json" |};
     disk := null_disk; trace := [] |}.

(** A disk on which the seen file cannot be written: its path is a directory. *)
Definition s_unwritable : State unit :=
  {| world := tt; seenTweets := fresh;
     disk := {[ "seen_tweets.json" := os.Dir ]}; trace := [] |}.

Definition process : main.Process unit :=
  {| main.configPath := "config.yaml";
     main.seenTweetsPath := "seen_tweets.json";
     main.Getenv name :=
       if decide (name = "X_API_BEARER_TOKEN") then "token"
       else if decide (name = "ANTHROPIC_API_KEY") then "key"
       else "";
     main.config_Load _ := inr cfg;
     main.ParseDuration _ := inr 300;
     main.NewClient _ := client;
     main.NewNotifier _ _ _ := notifier;
     main.NewFilter _ _ := filter |}.

(** The same configuration with the interval [0s], which [ParseDuration]
    accepts; the process that loads it, and the crawler it starts. *)
Definition cfg_0s : config.Config :=
  {| config.Interval := "0s"; config.AI := config.AI cfg;
     config.Traders := config.Traders cfg; config.Keywords := config.Keywords cfg;
     config.Slack := config.Slack cfg |}.

Definition process_0s : main.Process unit :=
  {| main.configPath := "config.yaml";
     main.seenTweetsPath := "seen_tweets.json";
     main.Getenv := main.Getenv process;
     main.config_Load _ := inr cfg_0s;
     main.ParseDuration _ := inr 0;
     main.NewClient _ := client;
     main.NewNotifier _ _ _ := notifier;
     main.NewFilter _ _ := filter |}.

Definition c_0s : Crawler unit :=
  {| config := cfg_0s; twitterClient := client; aiFilter := Some filter;
     slackNotifier := notifier |}.

(** The X API over HTTP: the user alice has the identifier 7 and a
    timeline of two tweets; a search returns a tweet of alice and one of an
    author who is not among the users included, alice being included
    twice, the second time under a new name; every other request is
    answered with the status 404. *)
Definition decoded (id author : string) : twitter.Tweet :=
  {| twitter.ID := id; twitter.Text := "text of " +:+ id; twitter.AuthorID := author;
     twitter.CreatedAt := 1700000000; twitter.Username := "" |}.

Definition api : twitter.API unit :=
  {| twitter.Do req w :=
       (if decide (http.URL req = "https://api.twitter.com/2/users/by/username/alice")
        then inr {| http.StatusCode := 200; http.Body := "user" |}
        else if String.prefix "https://api.twitter.com/2/users/7/tweets?" (http.URL req)
        then inr {| http.StatusCode := 200; http.Body := "timeline" |}
        else if String.prefix "https://api.twitter.com/2/tweets/search/recent?" (http.URL req)
        then inr {| http.StatusCode := 200; http.Body := "found" |}
        else inr {| http.StatusCode := 404; http.Body := "Not Found" |}, w);
     twitter.decodeUser body :=
       if decide (body = "user")
       then inr {| twitter.UserID := "7"; twitter.UserUsername := "alice";
                   twitter.Name := "Alice" |}
       else inl "unexpected EOF";
     twitter.decodeResponse body :=
       if decide (body = "timeline")
       then inr {| twitter.Data := Some [decoded "1" "7"; decoded "2" "7"];
                   twitter.Includes := None |}
       else if decide (body = "found")
       then inr {| twitter.Data := Some [decoded "2" "7"; decoded "4" "8"];
                   twitter.Includes :=
                     Some {| twitter.Users :=
                               [{| twitter.UserID := "7"; twitter.UserUsername := "alice";
                                   twitter.Name := "Alice" |};
                                {| twitter.UserID := "7"; twitter.UserUsername := "alice_x";
                                   twitter.Name := "Alice" |}] |} |}
       else inl "unexpected EOF";
     twitter.Encode params :=
       String.concat "&" ((fun kv : string * string => kv.1 +:+ "=" +:+ kv.2) <$> params) |}.


(** A configuration file that sets the traders, enables the filter and
    gives a minimum score of zero, and nothing else. *)
Definition loader : config.Loader :=
  {| config.ReadFile path :=
       if decide (path = "config.yaml") then inr "ai: {enabled: true, min_score: 0}"
       else inl ("open " +:+ path +:+ ": no such file or directory");
     config.ExpandEnv content := content;
     config.Unmarshal _ :=
       inr ({| config.Interval := "";
               config.AI := {| config.Enabled := true; config.MinScore := 0;
                               config.Model := "" |};
               config.Traders := [alice];
               config.Keywords := [];
               config.Slack := {| config.WebhookURL := ""; config.SlackUsername := "";
                                  config.IconEmoji := "" |} |},
            {| config.Level := "" |}) |}.

(** A process that loads its configuration from that file, and finds the
    webhook URL in its environment. *)
Definition process_yaml : main.Process unit :=
  {| main.configPath := "config.yaml";
     main.seenTweetsPath := "seen_tweets.json";
     main.Getenv name :=
       if decide (name = "X_API_BEARER_TOKEN") then "token"
       else if decide (name = "SLACK_WEBHOOK_URL")
            then "https://hooks.slack.com/services/T/B/X"
       else if decide (name = "ANTHROPIC_API_KEY") then "key"
       else "";
     main.config_Load path :=
       match config.Load loader path with
       | inl err => inl err
       | inr loaded => inr loaded.1
       end;
     main.ParseDuration _ := inr 300;
     main.NewClient _ := client;
     main.NewNotifier _ _ _ := notifier;
     main.NewFilter _ _ := filter |}.

(** A webhook that answers every message with the status 204. *)
Definition webhook : slack.SlackNotifier unit :=
  {| slack.webhookURL := "https://hooks.slack.com/services/T/B/X";
     slack.username := "X Trading Bot";
     slack.iconEmoji := ":chart_with_upwards_trend:";
     slack.httpClient _ w := (inr {| http.StatusCode := 204; http.Body := "" |}, w) |}.

End example.

(** * Properties *)

(** ** The store *)
Section Storage.
Import storage.

Implicit Types (st : SeenTweets) (m : gmap string bool) (id : string).

Lemma Has_true st id :
  Has st id = true <-> exists m, tweets st = Some m /\ m !! id = Some true.
Proof.
  unfold Has. split.
  - destruct (tweets st) as [m|]; [|done].
    destruct (m !! id) as [[]|] eqn:E; simpl; try done. eauto.
  - intros (m & -> & ->). done.
Qed.

Lemma Add_Some st id m :
  tweets st = Some m ->
  Add st id = Some {| tweets := Some (<[id := true]> m); filePath := filePath st |}.
Proof. unfold Add. by intros ->. Qed.

Lemma Add_allocated st id : is_Some (tweets st) -> is_Some (Add st id).
Proof. intros [m Hm]. rewrite (Add_Some _ _ _ Hm). eauto. Qed.

Lemma Add_inv st id st' :
  Add st id = Some st' ->
  exists m, tweets st = Some m /\ tweets st' = Some (<[id := true]> m)
            /\ filePath st' = filePath st.
Proof.
  unfold Add. destruct (tweets st) as [m|]; [|done].
  intros [= <-]. eauto.
Qed.

Lemma Has_Add st id st' : Add st id = Some st' -> Has st' id = true.
Proof.
  intros (m & _ & Hm & _)%Add_inv. apply Has_true.
  exists (<[id := true]> m). by rewrite lookup_insert_eq.
Qed.

Lemma Has_Add_mono st id st' id' :
  Add st id = Some st' -> Has st id' = true -> Has st' id' = true.
Proof.
  intros (m & Hm & Hm' & _)%Add_inv (m0 & Hm0 & Hid)%Has_true.
  apply Has_true. exists (<[id := true]> m). split; [done|].
  assert (m0 = m) as -> by congruence.
  destruct (decide (id = id')) as [->|Hne].
  - by rewrite lookup_insert_eq.
  - by rewrite lookup_insert_ne.
Qed.

Lemma Has_allocated st id : Has st id = true -> is_Some (tweets st).
Proof. intros (m & -> & _)%Has_true. eauto. Qed.

(** C8, as the code has it: [Has] reports an identifier as seen exactly
    when the map holds the value [true] for it.  The key being present is
    not enough: an entry whose value is [false] is reported as not seen, as
    an absent key is.  [Add] stores [true], so what [Add] wrote is seen. *)
Theorem Has_reads_the_stored_value st id :
  (Has st id = true <->
     exists m, tweets st = Some m /\ m !! id = Some true) /\
  (forall m, tweets st = Some m -> m !! id = Some false -> Has st id = false) /\
  (forall m, tweets st = Some m -> m !! id = None -> Has st id = false) /\
  (forall st', Add st id = Some st' -> Has st' id = true).
Proof.
  split; [apply Has_true|]. unfold Has. repeat split.
  - by intros m -> ->.
  - by intros m -> ->.
  - apply Has_Add.
Qed.

(** C8, as the claim has it, fails: the seen file [{"42": false}] loads
    without an error into a store whose map has the key ["42"], and [Has]
    reports ["42"] as not seen. *)
Lemma Has_false_entry_counterexample :
  let d : os.Disk :=
    {[ "seen_tweets.json" :=
         os.File os.mode0644 (json.JSONText (json.JObject [("42", json.JBool false)])) ]} in
  let st := {| tweets := Some {[ "42" := false ]}; filePath := "seen_tweets.json" |} in
  NewSeenTweets "seen_tweets.json" d = inr st /\
  is_Some (({[ "42" := false ]} : gmap string bool) !! "42") /\
  Has st "42" = false.
Proof. cbv zeta. split; [|split]; [vm_compute; reflexivity | by eexists | reflexivity]. Qed.

(** *** Decoding what [MarshalIndent] wrote *)

Lemma storeMember_flags (l : list (string * bool)) m0 :
  foldl json.storeMember (m0, None) (json.member <$> l)
  = (foldl (fun acc kv => <[kv.1 := kv.2]> acc) m0 l, None).
Proof.
  revert m0. induction l as [|[k v] l IH]; intros m0; [done|].
  simpl. unfold json.storeMember at 2. simpl. apply IH.
Qed.

Lemma foldl_insert_union (l : list (string * bool)) m0 :
  NoDup l.*1 ->
  foldl (fun acc kv => <[kv.1 := kv.2]> acc) m0 l = list_to_map l ∪ m0.
Proof.
  revert m0. induction l as [|[k v] l IH]; intros m0 Hnd.
  - simpl. by rewrite (left_id_L ∅ (∪)).
  - rewrite fmap_cons in Hnd. apply NoDup_cons in Hnd as [Hk Hnd].
    change (foldl _ m0 ((k, v) :: l))
      with (foldl (fun acc kv => <[kv.1 := kv.2]> acc) (<[k := v]> m0) l).
    rewrite IH by done.
    change (list_to_map ((k, v) :: l))
      with (<[k := v]> (list_to_map l : gmap string bool)).
    rewrite <- insert_union_l. symmetry. apply insert_union_r.
    by apply not_elem_of_list_to_map_1.
Qed.

Lemma sorted_members_to_map m :
  list_to_map (merge_sort json.key_le (map_to_list m)) = m.
Proof.
  rewrite <- (list_to_map_to_list m) at 2.
  apply list_to_map_proper.
  - rewrite merge_sort_Permutation. apply NoDup_fst_map_to_list.
  - apply merge_sort_Permutation.
Qed.

Lemma Unmarshal_MarshalIndent (v m0 : option (gmap string bool)) data :
  json.MarshalIndent v = inr data ->
  json.Unmarshal data m0
  = (match v with Some m => Some (m ∪ default ∅ m0) | None => None end, None).
Proof.
  destruct v as [m|]; simpl; intros [= <-]; [|done].
  simpl. rewrite storeMember_flags. simpl.
  rewrite foldl_insert_union.
  - by rewrite sorted_members_to_map.
  - rewrite merge_sort_Permutation. apply NoDup_fst_map_to_list.
Qed.

Lemma MarshalIndent_total (v : option (gmap string bool)) :
  exists data, json.MarshalIndent v = inr data.
Proof. destruct v; simpl; eauto. Qed.

(** After a [Save] that returned nil, the file holds what was marshalled. *)
Lemma Save_ok st d d' :
  Save st d = (None, d') ->
  exists mode data,
    json.MarshalIndent (tweets st) = inr data /\
    d' !! filePath st = Some (os.File mode data) /\
    (os.readable mode = true \/
     exists data0, d !! filePath st = Some (os.File mode data0)).
Proof.
  unfold Save. destruct (MarshalIndent_total (tweets st)) as [data ->].
  unfold os.WriteFile.
  destruct (d !! filePath st) as [[mode data0|]|] eqn:E.
  - destruct (os.writable mode); [|done].
    intros [= <-]. exists mode, data. rewrite lookup_insert_eq. eauto.
  - done.
  - intros [= <-]. exists os.mode0644, data. rewrite lookup_insert_eq. eauto.
Qed.

(** A store saved and loaded again from its path is the same store. *)
Lemma Save_NewSeenTweets st d d' :
  (forall mode data, d !! filePath st = Some (os.File mode data) ->
                     os.readable mode = true) ->
  Save st d = (None, d') ->
  NewSeenTweets (filePath st) d' = inr st /\ Load st d' = (st, None).
Proof.
  intros Hread (mode & data & Hdata & Hfile & Hmode)%Save_ok.
  assert (os.readable mode = true) as Hr.
  { destruct Hmode as [|[data0 H0]]; eauto. }
  unfold NewSeenTweets, Load, os.Stat, os.ReadFile. simpl.
  rewrite Hfile, Hr.
  rewrite !(Unmarshal_MarshalIndent _ _ _ Hdata). simpl.
  destruct st as [[m|] path]; simpl.
  - by rewrite (right_id_L ∅ (∪)), (idemp_L (∪)).
  - done.
Qed.

(** *** Adding a list of identifiers *)

Lemma AddAll_Some st ids m :
  tweets st = Some m ->
  AddAll st ids = Some {| tweets := Some (add_ids m ids); filePath := filePath st |}.
Proof.
  unfold AddAll, add_ids. revert st m.
  induction ids as [|id ids IH]; intros st m Hm; simpl.
  - destruct st; simpl in *; by subst.
  - rewrite (Add_Some _ _ _ Hm). by rewrite (IH _ (<[id := true]> m)).
Qed.

Lemma lookup_add_ids m ids id :
  add_ids m ids !! id = if decide (id ∈ ids) then Some true else m !! id.
Proof.
  unfold add_ids. revert m. induction ids as [|x ids IH]; intros m; cbn [foldl].
  - case_decide as H; [by apply elem_of_nil in H | done].
  - rewrite IH. case_decide as H1; case_decide as H2; try done.
    + exfalso. apply H2. by right.
    + apply elem_of_cons in H2 as [->|?]; [|done]. apply lookup_insert_eq.
    + apply lookup_insert_ne. intros ->. apply H2. by left.
Qed.

Lemma dom_add_ids m ids : dom (add_ids m ids) = list_to_set ids ∪ dom m.
Proof.
  apply set_eq. intros id.
  rewrite elem_of_union, elem_of_list_to_set, !elem_of_dom, lookup_add_ids.
  case_decide; [|tauto].
  split; [by left | eauto].
Qed.

Lemma size_add_ids_empty ids : NoDup ids -> size (add_ids ∅ ids) = length ids.
Proof.
  intros Hnd. rewrite <- size_dom, dom_add_ids, dom_empty_L, (right_id_L ∅ (∪)).
  by apply size_list_to_set.
Qed.

(** C5: a store that received exactly the identifiers [ids], all distinct,
    is saved (the [Save] returning nil; a file already at the path being
    readable) and loaded from the same path, by [NewSeenTweets] or by
    [Load] in place: the load returns no error, [Has] is true of the loaded
    store for exactly the identifiers of [ids], and [Count] is their
    number. *)
Theorem Save_Load_round_trip (path : string) (ids : list string) st (d d' : os.Disk) :
  NoDup ids ->
  AddAll {| tweets := Some ∅; filePath := path |} ids = Some st ->
  (forall mode data, d !! path = Some (os.File mode data) -> os.readable mode = true) ->
  Save st d = (None, d') ->
  exists st',
    NewSeenTweets path d' = inr st' /\
    Load st d' = (st', None) /\
    (forall id, Has st' id = true <-> id ∈ ids) /\
    Count st' = Z.of_nat (length ids).
Proof.
  intros Hnd Hadd Hread Hsave.
  rewrite (AddAll_Some {| tweets := Some ∅; filePath := path |} ids ∅ eq_refl) in Hadd.
  simpl in Hadd.
  injection Hadd as <-.
  destruct (Save_NewSeenTweets {| tweets := Some (add_ids ∅ ids); filePath := path |}
              d d' Hread Hsave) as [Hnew Hload].
  eexists. split; [exact Hnew|]. split; [exact Hload|]. split.
  - intros id. rewrite Has_true. simpl. split.
    + intros (m & [= <-] & Hid). rewrite lookup_add_ids in Hid.
      by destruct (decide (id ∈ ids)).
    + intros Hin. eexists. split; [done|].
      rewrite lookup_add_ids. by rewrite decide_True.
  - unfold Count. simpl. by rewrite size_add_ids_empty.
Qed.

(** The identifiers 1001, 1002 and 1003 written to a new file and read back. *)
Lemma Save_Load_round_trip_witness :
  exists st',
    NewSeenTweets "seen_tweets.json"
      {[ "seen_tweets.json" :=
           os.File os.mode0644
             (json.JSONText (json.JObject
                [("1001", json.JBool true); ("1002", json.JBool true);
                 ("1003", json.JBool true)])) ]} = inr st' /\
    Load {| tweets := Some (<["1002" := true]> (<["1001" := true]> (<["1003" := true]> ∅)));
            filePath := "seen_tweets.json" |}
      {[ "seen_tweets.json" :=
           os.File os.mode0644
             (json.JSONText (json.JObject
                [("1001", json.JBool true); ("1002", json.JBool true);
                 ("1003", json.JBool true)])) ]} = (st', None) /\
    (forall id, Has st' id = true <-> id ∈ ["1003"; "1001"; "1002"]) /\
    Count st' = Z.of_nat (length ["1003"; "1001"; "1002"]).
Proof.
  apply (Save_Load_round_trip "seen_tweets.json" ["1003"; "1001"; "1002"] _ ∅).
  - compute_done.
  - reflexivity.
  - intros mode data. rewrite lookup_empty. discriminate.
  - vm_compute. reflexivity.
Defined.

(** *** Loading at start-up *)

Lemma storeMember_error members acc :
  (foldl json.storeMember acc members).2 = None <->
  acc.2 = None /\ forallb (fun kv => json.is_flag kv.2) members = true.
Proof.
  revert acc. induction members as [|[k v] members IH]; intros acc; simpl.
  - tauto.
  - rewrite IH. unfold json.storeMember. simpl.
    destruct v; simpl; try tauto;
      destruct (acc.2); simpl; intuition discriminate.
Qed.

Lemma Unmarshal_error data mo :
  (json.Unmarshal data mo).2 = None <-> json.decodable data = true.
Proof.
  destruct data as [[]|]; simpl; try done.
  rewrite storeMember_error. simpl. tauto.
Qed.

Lemma NewSeenTweets_undecodable path d mode data :
  d !! path = Some (os.File mode data) ->
  os.readable mode = true ->
  json.decodable data = false ->
  exists err, NewSeenTweets path d = inl ("failed to unmarshal seen tweets: " +:+ err).
Proof.
  intros Hfile Hr Hbad.
  unfold NewSeenTweets, Load, os.Stat, os.ReadFile. simpl. rewrite Hfile, Hr.
  destruct (json.Unmarshal data (Some ∅)) as [m [err|]] eqn:E; [eauto|].
  assert ((json.Unmarshal data (Some ∅)).2 = None) as H by (by rewrite E).
  apply Unmarshal_error in H. congruence.
Qed.

End Storage.

(** ** The pipeline *)
Section Pipeline.
Import crawler.
Context {World : Type}.

Implicit Types (c : Crawler World) (s : State World) (tweet : twitter.Tweet).
Implicit Types (new : list Event) (id : string).

Lemma events_since_app s s' new :
  trace s' = (trace s ++ new)%list -> events_since s s' = new.
Proof. unfold events_since. intros ->. apply drop_app_length. Qed.

Lemma events_since_refl s : events_since s s = [].
Proof. apply events_since_app. by rewrite app_nil_r. Qed.

Lemma stretch_refl s : allocated s -> stretch [] s s [].
Proof.
  intros Halloc. unfold stretch. rewrite app_nil_r.
  repeat split; auto.
Qed.

Lemma stretch_trans f1 f2 s s1 s2 new1 new2 :
  stretch f1 s s1 new1 -> stretch f2 s1 s2 new2 ->
  stretch (f1 ++ f2) s s2 (new1 ++ new2).
Proof.
  intros (Ht1 & Hf1 & Hs1 & _ & Hd1 & Hp1 & Hseen1)
         (Ht2 & Hf2 & Hs2 & Ha2 & Hd2 & Hp2 & Hseen2).
  unfold stretch. repeat split.
  - by rewrite Ht2, Ht1, (assoc_L (++)).
  - by rewrite omap_app, Hf1, Hf2.
  - by apply Forall_app.
  - done.
  - congruence.
  - congruence.
  - by apply Hseen2, Hseen1.
  - apply Forall_app. split; [by apply Hseen1 | by apply Hseen2, Hseen1].
Qed.

(** A recorded event that is neither a save nor a call about a tweet. *)
Lemma stretch_record s w ev :
  allocated s ->
  is_save ev = false ->
  (forall id, about id ev = false) ->
  stretch (option_list (fetch ev)) s
    {| world := w; seenTweets := seenTweets s; disk := disk s;
       trace := trace s ++ [ev] |} [ev].
Proof.
  intros Halloc Hsave Habout. unfold stretch. cbn [trace seenTweets disk].
  repeat split; auto.
Qed.

(** *** The loop bodies, case by case *)

(** One step of the symbolic execution of a loop body: a case distinction
    on the next answer the body waits for. *)
Ltac body_step :=
  match goal with
  | |- context [storage.Has ?st ?id] => destruct (storage.Has st id) eqn:?
  | |- context [aiFilter ?c] => destruct (aiFilter c) as [?|] eqn:?
  | |- context [ai.Analyze ?f ?t ?i ?w] =>
      destruct (ai.Analyze f t i w) as [[?|?] ?] eqn:?
  | |- context [slack.NotifySimple ?n ?t ?i ?w] =>
      destruct (slack.NotifySimple n t i w) as [[?|] ?] eqn:?
  | |- context [slack.NotifyTweet ?n ?t ?a ?w] =>
      destruct (slack.NotifyTweet n t a w) as [[?|] ?] eqn:?
  | |- context [?x <? ?y] => destruct (Z.ltb_spec x y)
  | |- context [storage.Add ?st ?id] => destruct (storage.Add st id) as [?|] eqn:?
  end; cbn [fst snd world seenTweets disk trace].

Ltac run_body :=
  unfold traderTweet, keywordTweet, bind, call, ret, logPrintf, Sleep,
    seenHas, seenAdd, record;
  cbn [fst snd world seenTweets disk trace];
  repeat body_step.

(** Two recorded answers to the same call are one answer. *)
Ltac merge_answers :=
  intros; simplify_eq/=;
  repeat match goal with
         | H1 : ?t = _, H2 : ?t = _ |- _ => rewrite H1 in H2; simplify_eq/=
         end.

(** The trace of a leaf, as the old trace followed by the new events. *)
Ltac trace_shape := cbn [trace]; rewrite <- ?(assoc_L (++)); reflexivity.

Lemma not_about id tweet :
  twitter.ID tweet <> id -> bool_decide (twitter.ID tweet = id) = false.
Proof. intros. by apply bool_decide_eq_false. Qed.

Lemma Add_nil_absurd s id :
  allocated s -> storage.Add (seenTweets s) id = None -> False.
Proof.
  intros Halloc Hnone. destruct (Add_allocated _ id Halloc) as [st Hst]. congruence.
Qed.

Lemma Add_stays_allocated (st st' : storage.SeenTweets) id :
  storage.Add st id = Some st' -> is_Some (storage.tweets st').
Proof. intros (m & _ & -> & _)%Add_inv. eauto. Qed.

Lemma body_stretch c info body tweet cnt s :
  loop_body c info body ->
  allocated s ->
  exists cnt' s' new, body tweet cnt s = Ok cnt' s' /\ stretch [] s s' new.
Proof.
  intros Hbody Halloc. destruct cnt as [processed notified].
  destruct Hbody; run_body.
  all: try (exfalso; eapply Add_nil_absurd; eassumption).
  all: do 3 eexists; split; [reflexivity|].
  all: unfold stretch; cbn [trace seenTweets disk].
  all: split; [try trace_shape; by rewrite app_nil_r|].
  all: split; [reflexivity|].
  all: split; [repeat constructor|].
  all: split; [first [exact Halloc | eapply Add_stays_allocated; eassumption]|].
  all: split; [reflexivity|].
  all: split;
    [first [reflexivity
           | match goal with
             | H : storage.Add _ _ = Some _ |- _ =>
                 apply Add_inv in H as (? & _ & _ & H); exact H
             end]|].
  all: intros id Hid; split;
    [first [exact Hid | eapply Has_Add_mono; eassumption]|].
  all: repeat constructor; cbn [about]; try reflexivity.
  all: apply not_about; intros <-; congruence.
Qed.

(** *** Loops, targets, the cycle *)

Lemma forEach_stretch {A B : Type} (body : A -> B -> M World B)
    (f : A -> list (string + string)) (xs : list A) :
  (forall x acc s, allocated s ->
     exists acc' s' new, body x acc s = Ok acc' s' /\ stretch (f x) s s' new) ->
  forall acc s, allocated s ->
    exists acc' s' new,
      forEach body xs acc s = Ok acc' s' /\ stretch (xs ≫= f) s s' new.
Proof.
  intros Hbody. induction xs as [|x xs IH]; intros acc s Halloc.
  - exists acc, s, []. split; [done | by apply stretch_refl].
  - destruct (Hbody x acc s Halloc) as (acc1 & s1 & new1 & Hrun1 & Hst1).
    destruct (IH acc1 s1) as (acc2 & s2 & new2 & Hrun2 & Hst2).
    { apply Hst1. }
    exists acc2, s2, (new1 ++ new2)%list. split.
    + cbn [forEach]. unfold bind. by rewrite Hrun1.
    + apply (stretch_trans _ _ _ _ _ _ _ Hst1 Hst2).
Qed.

Lemma bind_no_target {A : Type} (xs : list A) :
  xs ≫= (fun _ => [] : list (string + string)) = [].
Proof. induction xs; [done|]. by rewrite bind_cons, IHxs. Qed.

Lemma bind_one_target {A : Type} (g : A -> string + string) (xs : list A) :
  xs ≫= (fun x => [g x]) = g <$> xs.
Proof. induction xs; [done|]. by rewrite bind_cons, IHxs. Qed.

Lemma tweets_stretch c info body tweets cnt s :
  loop_body c info body ->
  allocated s ->
  exists cnt' s' new, forEach body tweets cnt s = Ok cnt' s' /\ stretch [] s s' new.
Proof.
  intros Hbody Halloc.
  destruct (forEach_stretch body (fun _ => []) tweets) with (acc := cnt) (s := s)
    as (cnt' & s' & new & Hrun & Hst); [|done|].
  - intros. by eapply body_stretch.
  - rewrite bind_no_target in Hst. eauto.
Qed.

Lemma processTrader_stretch c trader s :
  allocated s ->
  exists r s' new,
    processTrader c trader s = Ok r s' /\
    stretch [inl (config.Username trader)] s s' new.
Proof.
  intros Halloc. unfold processTrader, bind, call.
  destruct (twitter.GetUserTweets _ _ _ _) as [[err|tweets] w] eqn:Hfetch;
    cbn [fst snd].
  - do 3 eexists. split; [reflexivity|].
    by apply (stretch_record s w (EvGetUserTweets _ _ _)).
  - match goal with |- context [forEach ?body tweets (0, 0) ?s1] =>
      destruct (tweets_stretch c _ body tweets (0, 0) s1 (trader_body c _) Halloc)
        as (cnt' & s' & new & -> & Hst)
    end.
    do 3 eexists. split; [reflexivity|].
    eapply (stretch_trans [_] []); [|exact Hst].
    by apply (stretch_record s w (EvGetUserTweets _ _ _)).
Qed.

Lemma processKeyword_stretch c keyword s :
  allocated s ->
  exists r s' new,
    processKeyword c keyword s = Ok r s' /\
    stretch [inr (config.Query keyword)] s s' new.
Proof.
  intros Halloc. unfold processKeyword, bind, call.
  destruct (twitter.SearchTweets _ _ _ _) as [[err|tweets] w] eqn:Hfetch;
    cbn [fst snd].
  - do 3 eexists. split; [reflexivity|].
    by apply (stretch_record s w (EvSearchTweets _ _ _)).
  - match goal with |- context [forEach ?body tweets (0, 0) ?s1] =>
      destruct (tweets_stretch c _ body tweets (0, 0) s1 (keyword_body c keyword) Halloc)
        as (cnt' & s' & new & -> & Hst)
    end.
    do 3 eexists. split; [reflexivity|].
    eapply (stretch_trans [_] []); [|exact Hst].
    by apply (stretch_record s w (EvSearchTweets _ _ _)).
Qed.

Lemma stretch_log fetched s s' new line :
  stretch fetched s s' new ->
  stretch fetched s (record (EvLog line) s') (new ++ [EvLog line]).
Proof.
  intros Hst. rewrite <- (app_nil_r fetched).
  eapply stretch_trans; [exact Hst|].
  apply (stretch_record s' (world s') (EvLog line)); [apply Hst|done..].
Qed.

Lemma runTrader_stretch c trader tot s :
  allocated s ->
  exists tot' s' new,
    runTrader c trader tot s = Ok tot' s' /\
    stretch [inl (config.Username trader)] s s' new.
Proof.
  intros Halloc. unfold runTrader, bind.
  destruct (processTrader_stretch c trader s Halloc)
    as ([[processed notified] [err|]] & s' & new & -> & Hst).
  - do 3 eexists. split; [reflexivity|]. by apply stretch_log.
  - do 3 eexists. split; [reflexivity|]. exact Hst.
Qed.

Lemma runKeyword_stretch c keyword tot s :
  allocated s ->
  exists tot' s' new,
    runKeyword c keyword tot s = Ok tot' s' /\
    stretch [inr (config.Query keyword)] s s' new.
Proof.
  intros Halloc. unfold runKeyword, bind.
  destruct (processKeyword_stretch c keyword s Halloc)
    as ([[processed notified] [err|]] & s' & new & -> & Hst).
  - do 3 eexists. split; [reflexivity|]. by apply stretch_log.
  - do 3 eexists. split; [reflexivity|]. exact Hst.
Qed.

(** The cycle: every target in order, then the save, then log lines only. *)
Lemma Run_returns c s :
  allocated s ->
  exists s1 new logs s',
    Run c s = Ok None s' /\
    stretch (targets (config c)) s s1 new /\
    trace s' = (trace s ++ new ++
                EvSave (storage.filePath (seenTweets s1))
                  (storage.Save (seenTweets s1) (disk s1)).1 :: logs)%list /\
    Forall (fun ev => is_log ev = true) logs /\
    seenTweets s' = seenTweets s1 /\
    disk s' = (storage.Save (seenTweets s1) (disk s1)).2.
Proof.
  intros Halloc. unfold Run.
  destruct (forEach_stretch (runTrader c) (fun t => [inl (config.Username t)])
              (config.Traders (config c))) with (acc := (0, 0)) (s := s)
    as (tot1 & sa & new1 & Hrun1 & Hst1); [|done|].
  { intros. by apply runTrader_stretch. }
  destruct (forEach_stretch (runKeyword c) (fun k => [inr (config.Query k)])
              (config.Keywords (config c))) with (acc := tot1) (s := sa)
    as (tot2 & sb & new2 & Hrun2 & Hst2); [|apply Hst1|].
  { intros. by apply runKeyword_stretch. }
  rewrite !bind_one_target in *.
  pose proof (stretch_trans _ _ _ _ _ _ _ Hst1 Hst2) as Hst.
  destruct Hst as (Htrace & Hrest).
  unfold bind at 1. rewrite Hrun1. unfold bind at 1. rewrite Hrun2.
  unfold bind, seenSave, seenCount, logPrintf, ret, record.
  cbn [fst snd world seenTweets disk trace].
  destruct (storage.Save (seenTweets sb) (disk sb)) as [[err|] d'] eqn:Hsave;
    cbn [fst snd world seenTweets disk trace].
  - exists sb, (new1 ++ new2)%list,
      [EvLog (SaveFailed err);
       EvLog (CrawlComplete tot2.1 tot2.2 (storage.Count (seenTweets sb)))].
    eexists. split; [reflexivity|]. split; [by split|].
    rewrite Hsave. cbn [fst snd trace seenTweets disk].
    split; [rewrite Htrace; by rewrite <- !(assoc_L (++))|].
    split; [by repeat constructor|]. by split.
  - exists sb, (new1 ++ new2)%list,
      [EvLog (CrawlComplete tot2.1 tot2.2 (storage.Count (seenTweets sb)))].
    eexists. split; [reflexivity|]. split; [by split|].
    rewrite Hsave. cbn [fst snd trace seenTweets disk].
    split; [rewrite Htrace; by rewrite <- !(assoc_L (++))|].
    split; [by repeat constructor|]. by split.
Qed.

(** The cycle, again, for an identifier that is seen. *)
Lemma Run_keeps_seen c s id :
  storage.Has (seenTweets s) id = true ->
  exists s' new,
    Run c s = Ok None s' /\
    trace s' = (trace s ++ new)%list /\
    storage.Has (seenTweets s') id = true /\
    Forall (fun ev => about id ev = false) new.
Proof.
  intros Hseen.
  destruct (Run_returns c s) as (s1 & new & logs & s' & Hrun & Hst & Htrace & Hlogs & Hstore & _).
  { eapply Has_allocated, Hseen. }
  destruct Hst as (_ & _ & _ & _ & _ & _ & Hkeep).
  destruct (Hkeep id Hseen) as [Hseen1 Hquiet].
  exists s', (new ++ EvSave (storage.filePath (seenTweets s1))
                      (storage.Save (seenTweets s1) (disk s1)).1 :: logs)%list.
  split; [done|]. split; [done|]. split; [by rewrite Hstore|].
  apply Forall_app. split; [done|]. constructor; [done|].
  eapply Forall_impl; [exact Hlogs|]. by intros [].
Qed.

Lemma cycles_keep_seen c n s id :
  storage.Has (seenTweets s) id = true ->
  exists s' new,
    main.cycles c n s = Ok tt s' /\
    trace s' = (trace s ++ new)%list /\
    storage.Has (seenTweets s') id = true /\
    Forall (fun ev => about id ev = false) new.
Proof.
  revert s. induction n as [|n IH]; intros s Hseen.
  - exists s, []. by rewrite app_nil_r.
  - destruct (Run_keeps_seen c s id Hseen) as (s1 & new1 & Hrun & Htrace1 & Hseen1 & Hq1).
    destruct (IH s1 Hseen1) as (s2 & new2 & Hcycles & Htrace2 & Hseen2 & Hq2).
    exists s2, (new1 ++ new2)%list.
    split; [|split; [|split]].
    + cbn [main.cycles]. unfold main.crawl, bind. rewrite Hrun. exact Hcycles.
    + by rewrite Htrace2, Htrace1, (assoc_L (++)).
    + done.
    + by apply Forall_app.
Qed.

Lemma stretch_skips {A : Type} (m : M World A) id :
  (forall s, allocated s ->
     exists a s' new fetched, m s = Ok a s' /\ stretch fetched s s' new) ->
  skips id m.
Proof.
  intros Hm s Hseen.
  destruct (Hm s) as (a & s' & new & fetched & Hrun & Hst).
  { eapply Has_allocated, Hseen. }
  destruct Hst as (Htrace & _ & _ & _ & _ & _ & Hkeep).
  destruct (Hkeep id Hseen) as [Hseen' Hquiet].
  exists a, s'. rewrite (events_since_app _ _ _ Htrace). done.
Qed.

(** A tweet whose identifier is seen: the body does nothing. *)
Lemma body_skip c info body tweet cnt s :
  loop_body c info body ->
  storage.Has (seenTweets s) (twitter.ID tweet) = true ->
  body tweet cnt s = Ok cnt s.
Proof.
  intros Hbody Hseen. destruct cnt as [processed notified].
  destruct Hbody; unfold traderTweet, keywordTweet, bind, seenHas, ret;
    by rewrite Hseen.
Qed.

(** C2: once [Add] has stored the identifier, [Has] reports it; from then
    on, wherever it is seen, a tweet with that identifier fed to either loop
    is skipped (the body returns at once: same counters, same store, same
    trace), and every part of the pipeline (a loop body on any tweet, a
    target, a cycle, any number of cycles) returns with the identifier
    still seen and without a scoring or delivery call about a tweet with
    that identifier. *)
Theorem seen_post_is_skipped c id (st0 st1 : storage.SeenTweets) :
  storage.Add st0 id = Some st1 ->
  storage.Has st1 id = true /\
  (forall s info body tweet cnt,
     storage.Has (seenTweets s) id = true ->
     loop_body c info body -> twitter.ID tweet = id ->
     body tweet cnt s = Ok cnt s) /\
  (forall info body tweet cnt, loop_body c info body -> skips id (body tweet cnt)) /\
  (forall trader, skips id (processTrader c trader)) /\
  (forall keyword, skips id (processKeyword c keyword)) /\
  skips id (Run c) /\
  (forall n, skips id (main.cycles c n)).
Proof.
  intros Hadd. split; [by eapply Has_Add|]. split; [|split; [|split; [|split; [|split]]]].
  - intros s info body tweet cnt Hseen Hbody <-. by eapply body_skip.
  - intros info body tweet cnt Hbody. apply stretch_skips. intros s Halloc.
    destruct (body_stretch c info body tweet cnt s Hbody Halloc) as (a & s' & new & H).
    by exists a, s', new, [].
  - intros trader. apply stretch_skips. intros s Halloc.
    destruct (processTrader_stretch c trader s Halloc) as (a & s' & new & H).
    by exists a, s', new, [inl (config.Username trader)].
  - intros keyword. apply stretch_skips. intros s Halloc.
    destruct (processKeyword_stretch c keyword s Halloc) as (a & s' & new & H).
    by exists a, s', new, [inr (config.Query keyword)].
  - intros s Hseen.
    destruct (Run_keeps_seen c s id Hseen) as (s' & new & Hrun & Htrace & Hseen' & Hq).
    exists None, s'. by rewrite (events_since_app _ _ _ Htrace).
  - intros n s Hseen.
    destruct (cycles_keep_seen c n s id Hseen) as (s' & new & Hrun & Htrace & Hseen' & Hq).
    exists tt, s'. by rewrite (events_since_app _ _ _ Htrace).
Qed.

(** When the store's map is allocated, as [NewSeenTweets] makes it from
    every seen file but one that holds [null], [Run] returns, and the
    error it returns is nil, whatever the collaborators and the disk
    answer: a failed fetch, scoring, delivery or save is logged and goes
    no further.  The map is allocated still when [Run] returns. *)
Theorem Run_returns_nil c s :
  allocated s -> exists s', Run c s = Ok None s' /\ allocated s'.
Proof.
  intros Halloc.
  destruct (Run_returns c s Halloc)
    as (s1 & new & logs & s' & Hrun & Hst & _ & _ & Hstore & _).
  exists s'. split; [done|]. unfold allocated. rewrite Hstore. apply Hst.
Qed.

(** A target whose fetch fails ends its iteration with a log line, totals
    and store as they were, and the loop goes on with the targets that
    follow.  When the store's map is allocated a cycle returns; what it
    recorded is a first stretch in which every configured target was
    fetched, once and in order, and nothing was saved, then the one [Save]
    of the store, then log lines only. *)
Theorem cycle_isolates_fetch_errors_and_saves_once c s :
  (forall trader rest tot err w,
     twitter.GetUserTweets (twitterClient c) (config.Username trader) 10 (world s)
       = (inl err, w) ->
     forEach (runTrader c) (trader :: rest) tot s
     = forEach (runTrader c) rest tot
         {| world := w; seenTweets := seenTweets s; disk := disk s;
            trace := (trace s ++ [EvGetUserTweets (config.Username trader) 10 (inl err)])
                       ++ [EvLog (TraderError (config.Username trader) err)] |}) /\
  (forall keyword rest tot err w,
     twitter.SearchTweets (twitterClient c) (config.Query keyword) 10 (world s)
       = (inl err, w) ->
     forEach (runKeyword c) (keyword :: rest) tot s
     = forEach (runKeyword c) rest tot
         {| world := w; seenTweets := seenTweets s; disk := disk s;
            trace := (trace s ++ [EvSearchTweets (config.Query keyword) 10 (inl err)])
                       ++ [EvLog (KeywordError (config.Name keyword) err)] |}) /\
  (allocated s ->
   exists s' new err logs,
     Run c s = Ok None s' /\
     events_since s s'
     = (new ++ EvSave (storage.filePath (seenTweets s)) err :: logs)%list /\
     omap fetch new = targets (config c) /\
     Forall (fun ev => is_save ev = false) new /\
     Forall (fun ev => is_log ev = true) logs).
Proof.
  split; [|split].
  - intros trader rest tot err w Hfetch.
    cbn [forEach]. unfold bind at 1.
    unfold runTrader, processTrader, bind, call, ret, logPrintf, record.
    by rewrite Hfetch.
  - intros keyword rest tot err w Hfetch.
    cbn [forEach]. unfold bind at 1.
    unfold runKeyword, processKeyword, bind, call, ret, logPrintf, record.
    by rewrite Hfetch.
  - intros Halloc.
    destruct (Run_returns c s Halloc)
      as (s1 & new & logs & s' & Hrun & Hst & Htrace & Hlogs & _).
    destruct Hst as (_ & Hfetched & Hnosave & _ & _ & Hpath & _).
    exists s', new, (storage.Save (seenTweets s1) (disk s1)).1, logs.
    rewrite (events_since_app _ _ _ Htrace), Hpath. done.
Qed.

(** *** One new tweet *)

(** Closing a leaf whose events are known: the hypothesis names an event of
    the list. *)
Ltac pick_event H :=
  repeat (apply elem_of_cons in H as [->|H]);
  [..|by apply elem_of_nil in H].

Ltac leaf_events :=
  cbn [final];
  first [rewrite events_since_refl
        | erewrite events_since_app by trace_shape];
  cbn [app].

(** A new tweet makes the body call a collaborator about it. *)
Lemma body_unseen_calls c info body tweet cnt s :
  loop_body c info body ->
  storage.Has (seenTweets s) (twitter.ID tweet) = false ->
  Exists (fun ev => about (twitter.ID tweet) ev = true)
    (events_since s (final (body tweet cnt s))).
Proof.
  intros Hbody Hnew. destruct cnt as [processed notified].
  destruct Hbody; run_body; try congruence; leaf_events.
  all: apply Exists_cons_hd; cbn [about]; by apply bool_decide_eq_true.
Qed.

(** C1, as the code has it: when a delivery attempted for a tweet returns
    an error, the tweet was new, the iteration ends there (it returns, the
    tweet counted as processed and not as notified), and the store is what
    it was: the identifier is not added to it.  The tweet is therefore not
    skipped when it is fetched again: the body calls a collaborator about
    it anew. *)
Theorem failed_delivery_leaves_post_unseen c info body tweet cnt s err :
  loop_body c info body ->
  (exists ev, ev ∈ events_since s (final (body tweet cnt s)) /\
              delivery ev = Some (tweet, Some err)) ->
  storage.Has (seenTweets s) (twitter.ID tweet) = false /\
  exists s',
    body tweet cnt s = Ok (cnt.1 + 1, cnt.2) s' /\
    seenTweets s' = seenTweets s /\
    storage.Has (seenTweets s') (twitter.ID tweet) = false /\
    forall cnt',
      Exists (fun ev => about (twitter.ID tweet) ev = true)
        (events_since s' (final (body tweet cnt' s'))).
Proof.
  intros Hbody (ev & Hin & Hev). destruct cnt as [processed notified].
  assert (storage.Has (seenTweets s) (twitter.ID tweet) = false) as Hnew.
  { destruct (storage.Has _ _) eqn:Hseen; [|done].
    rewrite (body_skip c info body tweet _ s Hbody Hseen) in Hin.
    cbn [final] in Hin. rewrite events_since_refl in Hin.
    by apply elem_of_nil in Hin. }
  split; [done|].
  assert (exists s', body tweet (processed, notified) s = Ok (processed + 1, notified) s'
                     /\ seenTweets s' = seenTweets s) as (s' & Hrun & Hstore).
  { revert Hin. destruct Hbody; run_body; try congruence; leaf_events; intros Hin.
    all: pick_event Hin; try discriminate Hev.
    all: by eexists. }
  exists s'. split; [done|]. split; [done|]. split; [by rewrite Hstore|].
  intros cnt'. apply (body_unseen_calls c info); [done | by rewrite Hstore].
Qed.

(** The threshold: the filter is on, the tweet is new and the scorer
    returns an analysis.  If the score equals the minimum, the rich
    notification of the tweet with that analysis is attempted, and it is
    the only delivery attempted.  If the score is below the minimum, no
    delivery is attempted; when the store's map is allocated the iteration
    returns with the tweet counted as processed and not as notified, and
    the identifier is seen. *)
Theorem threshold_gate_is_exact c info body f tweet cnt s analysis :
  loop_body c info body ->
  aiFilter c = Some f ->
  storage.Has (seenTweets s) (twitter.ID tweet) = false ->
  (ai.Analyze f tweet info (world s)).1 = inr analysis ->
  (ai.Score analysis = config.MinScore (config.AI (config c)) ->
   exists err,
     EvNotifyTweet tweet analysis err ∈ events_since s (final (body tweet cnt s)) /\
     omap delivery (events_since s (final (body tweet cnt s))) = [(tweet, err)]) /\
  (ai.Score analysis < config.MinScore (config.AI (config c)) ->
   omap delivery (events_since s (final (body tweet cnt s))) = [] /\
   (allocated s ->
    exists s',
      body tweet cnt s = Ok (cnt.1 + 1, cnt.2) s' /\
      storage.Has (seenTweets s') (twitter.ID tweet) = true)).
Proof.
  intros Hbody Hfilter Hnew Hscore. destruct cnt as [processed notified].
  split.
  - intros Heq. revert Hfilter Hnew Hscore.
    destruct Hbody; run_body; leaf_events; merge_answers; try lia.
    all: eexists; split; [apply list_elem_of_further, list_elem_of_here | reflexivity].
  - intros Hlt. revert Hfilter Hnew Hscore.
    destruct Hbody; run_body; merge_answers; try lia.
    all: (split; [by erewrite events_since_app by trace_shape|]).
    all: intros Halloc.
    all: try (exfalso; eapply Add_nil_absurd; eassumption).
    all: eexists; split; [reflexivity|].
    all: cbn [seenTweets]; by eapply Has_Add.
Qed.

(** C4, as the code has it: the filter is on, the tweet is new and the
    scorer returns an error.  The plain notification of the tweet is
    attempted, and it is the only delivery attempted.  If it fails, the
    iteration returns with the tweet counted as processed only and the
    store as it was: the identifier is not added.  If it succeeds and the
    store's map is allocated, the iteration returns with the tweet counted
    as processed and as notified and the identifier seen. *)
Theorem scorer_error_falls_back_to_plain c info body f tweet cnt s e :
  loop_body c info body ->
  aiFilter c = Some f ->
  storage.Has (seenTweets s) (twitter.ID tweet) = false ->
  (ai.Analyze f tweet info (world s)).1 = inl e ->
  let r := (slack.NotifySimple (slackNotifier c) tweet info
              (ai.Analyze f tweet info (world s)).2).1 in
  EvNotifySimple tweet info r ∈ events_since s (final (body tweet cnt s)) /\
  omap delivery (events_since s (final (body tweet cnt s))) = [(tweet, r)] /\
  match r with
  | Some _ =>
      exists s',
        body tweet cnt s = Ok (cnt.1 + 1, cnt.2) s' /\
        seenTweets s' = seenTweets s /\
        storage.Has (seenTweets s') (twitter.ID tweet) = false
  | None =>
      allocated s ->
      exists s',
        body tweet cnt s = Ok (cnt.1 + 1, cnt.2 + 1) s' /\
        storage.Has (seenTweets s') (twitter.ID tweet) = true
  end.
Proof.
  intros Hbody Hfilter Hnew Hscore r. subst r.
  destruct cnt as [processed notified].
  revert Hfilter Hnew Hscore.
  destruct Hbody; run_body; merge_answers.
  all: erewrite events_since_app by trace_shape.
  all: split; [apply list_elem_of_further, list_elem_of_further, list_elem_of_here|].
  all: split; [reflexivity|].
  all: try (intros Halloc; exfalso; eapply Add_nil_absurd; eassumption).
  all: try intros Halloc.
  all: eexists; split; [reflexivity|].
  all: cbn [seenTweets]; try done; by eapply Has_Add.
Qed.

End Pipeline.

(** ** Start-up *)

(** C6: when no file is at the path, [NewSeenTweets] returns the empty
    store and no error.  When the path holds a readable file whose content
    does not decode (text that is not JSON, a document that is neither an
    object nor [null], an object with a member that is neither a boolean
    nor [null]), [NewSeenTweets] returns an error, and [main], having come
    as far as the store, ends in [log.Fatalf] with that error. *)
Theorem NewSeenTweets_missing_or_malformed (path : string) (d : os.Disk) :
  (d !! path = None ->
   storage.NewSeenTweets path d
   = inr {| storage.tweets := Some ∅; storage.filePath := path |}) /\
  (forall mode data,
     d !! path = Some (os.File mode data) ->
     os.readable mode = true ->
     json.decodable data = false ->
     exists err,
       storage.NewSeenTweets path d = inl err /\
       forall (World : Type) (p : main.Process World) (cfg : config.Config),
         main.seenTweetsPath p = path ->
         main.config_Load p (main.configPath p) = inr cfg ->
         main.Getenv p "X_API_BEARER_TOKEN" <> "" ->
         (config.WebhookURL (config.Slack cfg) <> "" \/
          main.Getenv p "SLACK_WEBHOOK_URL" <> "") ->
         main.startup p d = main.Fatal ("Failed to initialize seen tweets: " +:+ err)).
Proof.
  split.
  - intros Hnone. unfold storage.NewSeenTweets, os.Stat. by rewrite Hnone.
  - intros mode data Hfile Hr Hbad.
    destruct (NewSeenTweets_undecodable path d mode data Hfile Hr Hbad) as [err Herr].
    eexists. split; [exact Herr|].
    intros World p cfg Hpath Hcfg Htoken Hurl.
    unfold main.startup. rewrite Hcfg.
    rewrite decide_False by done.
    rewrite Hpath, Herr.
    destruct (decide (config.WebhookURL (config.Slack cfg) = "")) as [Hempty|Hset].
    + rewrite decide_False; [done|]. destruct Hurl; [congruence | done].
    + by rewrite decide_False.
Qed.

(** No seen file on an empty disk; and a seen file cut off in the middle
    of a write, which is not JSON. *)
Lemma NewSeenTweets_missing_or_malformed_witness :
  storage.NewSeenTweets "seen_tweets.json" ∅ = inr example.fresh /\
  exists err,
    storage.NewSeenTweets "seen_tweets.json"
      {[ "seen_tweets.json" := os.File os.mode0644 (json.NotJSON "{ 1001: tru") ]}
    = inl err /\
    main.startup example.process
      {[ "seen_tweets.json" := os.File os.mode0644 (json.NotJSON "{ 1001: tru") ]}
    = main.Fatal ("Failed to initialize seen tweets: " +:+ err).
Proof.
  split.
  - apply (NewSeenTweets_missing_or_malformed "seen_tweets.json" ∅). reflexivity.
  - destruct (proj2 (NewSeenTweets_missing_or_malformed "seen_tweets.json"
        {[ "seen_tweets.json" := os.File os.mode0644 (json.NotJSON "{ 1001: tru") ]})
        os.mode0644 (json.NotJSON "{ 1001: tru"))
      as (err & Herr & Hfatal); [reflexivity..|].
    exists err. split; [exact Herr|].
    apply (Hfatal unit example.process example.cfg); [reflexivity..| |].
    + compute_done.
    + left. compute_done.
Defined.

(** ** The notification's icons, colours and labels *)

(** C9: the four urgencies map to their icon and colour (red, orange,
    green, gray), every other urgency to the icon and colour of [normal];
    the three sentiments map to their labels, every other sentiment to the
    label for unknown.  The three mappings are functions of the tag alone. *)
Theorem urgency_and_sentiment_mappings :
  (slack.getEmojiByUrgency "critical" = "🚨" /\
   slack.getEmojiByUrgency "high" = "⚠️" /\
   slack.getEmojiByUrgency "normal" = "💡" /\
   slack.getEmojiByUrgency "low" = "ℹ️") /\
  (slack.getColorByUrgency "critical" = "#FF0000" /\
   slack.getColorByUrgency "high" = "#FF9900" /\
   slack.getColorByUrgency "normal" = "#36A64F" /\
   slack.getColorByUrgency "low" = "#808080") /\
  (forall urgency : string,
     urgency ∉ ["critical"; "high"; "normal"; "low"] ->
     slack.getEmojiByUrgency urgency = slack.getEmojiByUrgency "normal" /\
     slack.getColorByUrgency urgency = slack.getColorByUrgency "normal") /\
  (slack.getSentimentEmoji "bullish" = "📈 強気" /\
   slack.getSentimentEmoji "bearish" = "📉 弱気" /\
   slack.getSentimentEmoji "neutral" = "➡️ 中立") /\
  (forall sentiment : string,
     sentiment ∉ ["bullish"; "bearish"; "neutral"] ->
     slack.getSentimentEmoji sentiment = "❓ 不明").
Proof.
  split; [by repeat split|]. split; [by repeat split|].
  split; [|split; [by repeat split|]].
  - intros urgency Hnot.
    unfold slack.getEmojiByUrgency, slack.getColorByUrgency.
    repeat case_decide; subst; try done; exfalso; apply Hnot;
      repeat (first [by left | right]).
  - intros sentiment Hnot. unfold slack.getSentimentEmoji.
    repeat case_decide; subst; try done; exfalso; apply Hnot;
      repeat (first [by left | right]).
Qed.

(** An urgency the scorer made up, the empty urgency, and a sentiment in
    capitals. *)
Lemma urgency_and_sentiment_mappings_witness :
  (slack.getEmojiByUrgency "urgent" = "💡" /\ slack.getColorByUrgency "urgent" = "#36A64F") /\
  (slack.getEmojiByUrgency "" = "💡" /\ slack.getColorByUrgency "" = "#36A64F") /\
  slack.getSentimentEmoji "Bullish" = "❓ 不明".
Proof.
  destruct urgency_and_sentiment_mappings as (_ & _ & Hurgency & _ & Hsentiment).
  split; [|split].
  - apply (Hurgency "urgent"). compute_done.
  - apply (Hurgency ""). compute_done.
  - apply (Hsentiment "Bullish"). compute_done.
Defined.

(** ** The pipeline in the small world *)
Section Examples.
Import crawler.

Lemma fresh_allocated : allocated example.s0.
Proof. by eexists. Qed.

(** C1, as the claim has it, fails.  The crawler without filter runs two
    cycles from the fresh store.  In the first, the plain notification of
    tweet 3 returns an error, and at the end of the cycle the identifier 3
    is not seen; in the second cycle, the tweets 1, 2 and 4 are skipped and
    the notification of tweet 3 is attempted again. *)
Lemma failed_delivery_counterexample :
  let s1 := final (Run example.c_plain example.s0) in
  let s2 := final (Run example.c_plain s1) in
  omap delivery (events_since example.s0 s1)
  = [(example.tweet "1", None); (example.tweet "2", None);
     (example.tweet "3", Some "Slack webhook returned status 404");
     (example.tweet "4", None)] /\
  storage.Has (seenTweets s1) "3" = false /\
  omap delivery (events_since s1 s2)
  = [(example.tweet "3", Some "Slack webhook returned status 404")].
Proof. cbv zeta. repeat split; vm_compute; reflexivity. Qed.

(** Tweet 3 at the crawler without filter: the webhook refuses it. *)
Lemma failed_delivery_leaves_post_unseen_witness :
  storage.Has (seenTweets example.s0) "3" = false /\
  exists s',
    traderTweet example.c_plain "Alice (Priority: high)" (example.tweet "3") (2, 2)
      example.s0 = Ok (3, 2) s' /\
    seenTweets s' = seenTweets example.s0 /\
    storage.Has (seenTweets s') "3" = false /\
    forall cnt',
      Exists (fun ev => about "3" ev = true)
        (events_since s'
           (final (traderTweet example.c_plain "Alice (Priority: high)"
                     (example.tweet "3") cnt' s'))).
Proof.
  apply (failed_delivery_leaves_post_unseen example.c_plain "Alice (Priority: high)"
           _ (example.tweet "3") (2, 2) example.s0 "Slack webhook returned status 404").
  - apply trader_body.
  - exists (EvNotifySimple (example.tweet "3") "Alice (Priority: high)"
              (Some "Slack webhook returned status 404")).
    split; [|reflexivity]. vm_compute. apply list_elem_of_here.
Defined.

(** The identifier 1 added to the fresh store, then two cycles. *)
Lemma seen_post_is_skipped_witness :
  storage.Has (seenTweets example.s_seen) "1" = true /\
  traderTweet example.c "Alice (Priority: high)" (example.tweet "1") (0, 0) example.s_seen
  = Ok (0, 0) example.s_seen /\
  exists a s',
    main.cycles example.c 2 example.s_seen = Ok a s' /\
    storage.Has (seenTweets s') "1" = true /\
    Forall (fun ev => about "1" ev = false) (events_since example.s_seen s').
Proof.
  destruct (seen_post_is_skipped example.c "1" example.fresh
              (seenTweets example.s_seen) eq_refl)
    as (Hseen & Hskip & _ & _ & _ & _ & Hcycles).
  split; [exact Hseen|]. split.
  - apply (Hskip example.s_seen "Alice (Priority: high)"); [exact Hseen | | reflexivity].
    apply trader_body.
  - apply (Hcycles 2%nat example.s_seen). exact Hseen.
Defined.

(** Tweet 1 scores 70, the minimum; tweet 2 scores 69. *)
Lemma threshold_gate_is_exact_witness :
  (exists err,
     EvNotifyTweet (example.tweet "1") (example.analysis 70) err
     ∈ events_since example.s0
         (final (traderTweet example.c "Alice (Priority: high)" (example.tweet "1")
                   (0, 0) example.s0)) /\
     omap delivery
       (events_since example.s0
          (final (traderTweet example.c "Alice (Priority: high)" (example.tweet "1")
                    (0, 0) example.s0)))
     = [(example.tweet "1", err)]) /\
  (omap delivery
     (events_since example.s0
        (final (keywordTweet example.c example.etf (example.tweet "2") (0, 0) example.s0)))
   = [] /\
   exists s',
     keywordTweet example.c example.etf (example.tweet "2") (0, 0) example.s0
     = Ok (1, 0) s' /\
     storage.Has (seenTweets s') "2" = true).
Proof.
  split.
  - apply (threshold_gate_is_exact example.c "Alice (Priority: high)" _ example.filter
             (example.tweet "1") (0, 0) example.s0 (example.analysis 70));
      [apply trader_body | reflexivity..].
  - destruct (threshold_gate_is_exact example.c _ _ example.filter
                (example.tweet "2") (0, 0) example.s0 (example.analysis 69)
                (keyword_body example.c example.etf) eq_refl eq_refl eq_refl)
      as [_ Hlow].
    destruct (Hlow eq_refl) as [Hnone Hseen].
    split; [exact Hnone | exact (Hseen fresh_allocated)].
Defined.

(** C3, at the input where the code misses it.  The seen file holds
    [null], which [NewSeenTweets] loads without an error into a store
    whose map is nil.  The crawler watches the keyword only; the search
    returns tweet 2, which is new, and the scorer gives it 69, below the
    minimum of 70.  No delivery is attempted, and the [Add] of the
    identifier panics: the identifier 2 is not seen, and the iteration
    does not return. *)
Lemma low_score_on_null_seen_file :
  let r := Run example.c_keywords example.s_null in
  let b := keywordTweet example.c example.etf (example.tweet "2") (0, 0) example.s_null in
  storage.NewSeenTweets "seen_tweets.json" example.null_disk
  = inr (seenTweets example.s_null) /\
  (ai.Analyze example.filter (example.tweet "2") "Keyword: ETF" tt).1
  = inr (example.analysis 69) /\
  ai.Score (example.analysis 69)
  < config.MinScore (config.AI (config example.c_keywords)) /\
  b = Panic "assignment to entry in nil map" (final b) /\
  r = Panic "assignment to entry in nil map" (final r) /\
  omap delivery (trace (final r)) = [] /\
  storage.Has (seenTweets (final r)) "2" = false.
Proof. cbv zeta. repeat split; vm_compute; reflexivity. Qed.

(** C4, as the claim has it, fails: the scorer fails on tweet 3, the plain
    notification of tweet 3 is attempted and refused, and the identifier 3
    is not seen after the iteration. *)
Lemma scorer_error_counterexample :
  let r := traderTweet example.c "Alice (Priority: high)" (example.tweet "3") (0, 0)
             example.s0 in
  (ai.Analyze example.filter (example.tweet "3") "Alice (Priority: high)" tt).1
  = inl "Claude API error (status 529)" /\
  r = Ok (1, 0) (final r) /\
  omap delivery (events_since example.s0 (final r))
  = [(example.tweet "3", Some "Slack webhook returned status 404")] /\
  storage.Has (seenTweets (final r)) "3" = false.
Proof. cbv zeta. repeat split; vm_compute; reflexivity. Qed.

(** The scorer fails on the tweets 4 and 3; the webhook takes the plain
    notification of tweet 4 and refuses that of tweet 3, which leaves the
    store as it was also when its map is nil. *)
Lemma scorer_error_falls_back_to_plain_witness :
  (EvNotifySimple (example.tweet "4") "Keyword: ETF" None
   ∈ events_since example.s0
       (final (keywordTweet example.c example.etf (example.tweet "4") (0, 0) example.s0)) /\
   omap delivery
     (events_since example.s0
        (final (keywordTweet example.c example.etf (example.tweet "4") (0, 0) example.s0)))
   = [(example.tweet "4", None)] /\
   exists s',
     keywordTweet example.c example.etf (example.tweet "4") (0, 0) example.s0
     = Ok (1, 1) s' /\
     storage.Has (seenTweets s') "4" = true) /\
  (omap delivery
     (events_since example.s0
        (final (traderTweet example.c "Alice (Priority: high)" (example.tweet "3") (0, 0)
                  example.s0)))
   = [(example.tweet "3", Some "Slack webhook returned status 404")] /\
   exists s',
     traderTweet example.c "Alice (Priority: high)" (example.tweet "3") (0, 0) example.s0
     = Ok (1, 0) s' /\
     seenTweets s' = seenTweets example.s0 /\
     storage.Has (seenTweets s') "3" = false) /\
  (exists s',
     traderTweet example.c "Alice (Priority: high)" (example.tweet "3") (0, 0)
       example.s_null
     = Ok (1, 0) s' /\
     seenTweets s' = seenTweets example.s_null /\
     storage.Has (seenTweets s') "3" = false).
Proof.
  split; [|split].
  - destruct (scorer_error_falls_back_to_plain example.c _ _ example.filter
                (example.tweet "4") (0, 0) example.s0 "Claude API error (status 529)"
                (keyword_body example.c example.etf) eq_refl eq_refl eq_refl)
      as (Hin & Hone & Hdone).
    split; [exact Hin|]. split; [exact Hone|]. exact (Hdone fresh_allocated).
  - destruct (scorer_error_falls_back_to_plain example.c "Alice (Priority: high)" _
                example.filter (example.tweet "3") (0, 0) example.s0
                "Claude API error (status 529)" (trader_body example.c _)
                eq_refl eq_refl eq_refl)
      as (_ & Hone & Hdone).
    split; [exact Hone | exact Hdone].
  - destruct (scorer_error_falls_back_to_plain example.c "Alice (Priority: high)" _
                example.filter (example.tweet "3") (0, 0) example.s_null
                "Claude API error (status 529)" (trader_body example.c _)
                eq_refl eq_refl eq_refl)
      as (_ & _ & Hdone).
    exact Hdone.
Defined.

(** The fetch for [bob] fails; [alice] and the keyword are fetched all the same. *)
Lemma cycle_isolates_fetch_errors_and_saves_once_witness :
  forEach (runTrader example.c) [example.bob; example.alice] (0, 0) example.s0
  = forEach (runTrader example.c) [example.alice] (0, 0)
      {| world := tt; seenTweets := example.fresh; disk := ∅;
         trace := [EvGetUserTweets "bob" 10 (inl "Twitter API error (status 429)");
                   EvLog (TraderError "bob" "Twitter API error (status 429)")] |} /\
  exists s' new err logs,
    Run example.c example.s0 = Ok None s' /\
    events_since example.s0 s' = (new ++ EvSave "seen_tweets.json" err :: logs)%list /\
    omap fetch new = [inl "bob"; inl "alice"; inr "$SPY OR $QQQ"] /\
    Forall (fun ev => is_save ev = false) new /\
    Forall (fun ev => is_log ev = true) logs.
Proof.
  destruct (cycle_isolates_fetch_errors_and_saves_once example.c example.s0)
    as (Htrader & _ & Hcycle).
  split; [|exact (Hcycle fresh_allocated)].
  apply (Htrader example.bob [example.alice] (0, 0) "Twitter API error (status 429)" tt).
  reflexivity.
Defined.

(** A cycle in which a fetch, two scorings and a delivery fail; and the
    same cycle on a disk that refuses the save. *)
Lemma Run_returns_nil_witness :
  (exists s', Run example.c example.s0 = Ok None s' /\ allocated s') /\
  (exists s', Run example.c example.s_unwritable = Ok None s' /\ allocated s') /\
  omap (fun ev => match ev with EvSave _ err => Some err | _ => None end)
    (trace (final (Run example.c example.s_unwritable)))
  = [Some "failed to write seen tweets file: open seen_tweets.json: is a directory"].
Proof.
  split; [|split].
  - apply (Run_returns_nil example.c example.s0). apply fresh_allocated.
  - apply (Run_returns_nil example.c example.s_unwritable). by eexists.
  - vm_compute. reflexivity.
Defined.

(** C7, at the input where the code misses it: the seen file holds
    [null].  The fetch for [bob] fails and the cycle goes on to [alice];
    the rich notification of her tweet 1 is delivered, and the [Add] that
    follows panics.  The keyword, the target after [alice], is never
    fetched, and [Save] is never called: the disk is as it was. *)
Lemma null_seen_file_ends_the_cycle :
  let r := Run example.c example.s_null in
  storage.NewSeenTweets "seen_tweets.json" example.null_disk
  = inr (seenTweets example.s_null) /\
  targets (config example.c) = [inl "bob"; inl "alice"; inr "$SPY OR $QQQ"] /\
  r = Panic "assignment to entry in nil map" (final r) /\
  omap fetch (trace (final r)) = [inl "bob"; inl "alice"] /\
  omap delivery (trace (final r)) = [(example.tweet "1", None)] /\
  forallb (fun ev => negb (is_save ev)) (trace (final r)) = true /\
  disk (final r) = example.null_disk.
Proof. cbv zeta. repeat split; vm_compute; reflexivity. Qed.

(** C10, at the input where the code misses it: a seen file that holds
    [null] loads without an error into a store whose map is nil, [main]
    starts the crawler on it, and the first [Add] of the first cycle
    panics: [Run] returns neither nil nor an error. *)
Lemma null_seen_file_panics :
  let d : os.Disk :=
    {[ "seen_tweets.json" := os.File os.mode0644 (json.JSONText json.JNull) ]} in
  let st := {| storage.tweets := None; storage.filePath := "seen_tweets.json" |} in
  let s := {| world := tt; seenTweets := st; disk := d; trace := [] |} in
  storage.NewSeenTweets "seen_tweets.json" d = inr st /\
  main.startup example.process d = main.Started example.c st 300 /\
  Run example.c s = Panic "assignment to entry in nil map" (final (Run example.c s)) /\
  main.run example.process tt d 0
  = inr (Panic "assignment to entry in nil map" (final (Run example.c s))).
Proof. cbv zeta. repeat split; vm_compute; reflexivity. Qed.

(** An entry with the value [false], an absent key, an added key. *)
Lemma Has_reads_the_stored_value_witness :
  storage.Has {| storage.tweets := Some {[ "42" := false ]};
                 storage.filePath := "seen_tweets.json" |} "42" = false /\
  storage.Has example.fresh "42" = false /\
  storage.Has {| storage.tweets := Some {[ "42" := true ]};
                 storage.filePath := "seen_tweets.json" |} "42" = true.
Proof.
  split; [|split].
  - destruct (Has_reads_the_stored_value
                {| storage.tweets := Some {[ "42" := false ]};
                   storage.filePath := "seen_tweets.json" |} "42")
      as (_ & Hfalse & _ & _).
    apply (Hfalse {[ "42" := false ]}); reflexivity.
  - destruct (Has_reads_the_stored_value example.fresh "42") as (_ & _ & Hnone & _).
    apply (Hnone ∅); reflexivity.
  - destruct (Has_reads_the_stored_value example.fresh "42") as (_ & _ & _ & Hadd).
    apply Hadd. reflexivity.
Defined.

End Examples.

(** * More of the code *)

(** ** More of the store *)
Section MoreStorage.
Import storage.

Implicit Types (st : SeenTweets) (m : gmap string bool) (id : string).

Lemma Save_other_paths st (d d' : os.Disk) e path :
  Save st d = (e, d') -> path <> filePath st -> d' !! path = d !! path.
Proof.
  unfold Save. destruct (MarshalIndent_total (tweets st)) as [bytes ->].
  unfold os.WriteFile. intros Hsave Hne. revert Hsave.
  destruct (d !! filePath st) as [[mode data|]|].
  - destruct (os.writable mode); intros [= <- <-]; [by rewrite lookup_insert_ne | done].
  - by intros [= <- <-].
  - intros [= <- <-]. by rewrite lookup_insert_ne.
Qed.

(** A path that cannot be opened for writing: a directory, or a file
    without write permission. *)
Lemma Save_refused st (d : os.Disk) :
  d !! filePath st = Some os.Dir \/
  (exists mode data,
     d !! filePath st = Some (os.File mode data) /\ os.writable mode = false) ->
  is_Some (Save st d).1 /\ (Save st d).2 = d.
Proof.
  unfold Save. destruct (MarshalIndent_total (tweets st)) as [bytes ->].
  unfold os.WriteFile. intros [-> | (mode & data & -> & ->)]; by eauto.
Qed.

(** X1: [Add] makes [Count] grow by one when the map had no entry for the
    identifier, and leaves it as it was when the map had one, whatever its
    value: an entry with the value [false] becomes [true] and the count
    stays. *)
Theorem Add_Count st id st' m :
  tweets st = Some m ->
  Add st id = Some st' ->
  Count st' = if decide (is_Some (m !! id)) then Count st else Count st + 1.
Proof.
  intros Hm Hadd. rewrite (Add_Some _ _ _ Hm) in Hadd. injection Hadd as <-.
  unfold Count. rewrite Hm. simpl. case_decide as Hin.
  - by rewrite map_size_insert_Some.
  - rewrite map_size_insert_None; [lia|].
    by apply eq_None_not_Some.
Qed.

Lemma Add_Count_witness :
  Count {| tweets := Some (<["7" := true]> {[ "42" := false ]});
           filePath := "seen_tweets.json" |} = 1 + 1 /\
  Count {| tweets := Some (<["42" := true]> {[ "42" := false ]});
           filePath := "seen_tweets.json" |} = 1.
Proof.
  split.
  - rewrite (Add_Count {| tweets := Some {[ "42" := false ]};
                          filePath := "seen_tweets.json" |} "7"
               {| tweets := Some (<["7" := true]> {[ "42" := false ]});
                  filePath := "seen_tweets.json" |} {[ "42" := false ]} eq_refl eq_refl).
    reflexivity.
  - rewrite (Add_Count {| tweets := Some {[ "42" := false ]};
                          filePath := "seen_tweets.json" |} "42"
               {| tweets := Some (<["42" := true]> {[ "42" := false ]});
                  filePath := "seen_tweets.json" |} {[ "42" := false ]} eq_refl eq_refl).
    reflexivity.
Defined.

(** X2: [Add] changes the answer of [Has] for no other identifier, keeps
    the path, and adding an identifier a second time changes nothing; two
    identifiers added in either order give the same store. *)
Theorem Add_frame_idempotent_commutes st id st' :
  Add st id = Some st' ->
  (forall id', id' <> id -> Has st' id' = Has st id') /\
  filePath st' = filePath st /\
  Add st' id = Some st' /\
  (forall id' st1,
     Add st' id' = Some st1 ->
     exists st0, Add st id' = Some st0 /\ Add st0 id = Some st1).
Proof.
  intros Hadd. destruct (Add_inv _ _ _ Hadd) as (m & Hm & Hm' & Hpath).
  split; [|split; [done|split]].
  - intros id' Hne. unfold Has. rewrite Hm, Hm'.
    by rewrite lookup_insert_ne.
  - rewrite (Add_Some _ _ _ Hm'). f_equal. destruct st' as [t p]. simpl in *.
    subst. by rewrite insert_insert_eq.
  - intros id' st1 Hadd1. rewrite (Add_Some _ _ _ Hm') in Hadd1.
    injection Hadd1 as <-. rewrite (Add_Some _ _ _ Hm).
    eexists. split; [reflexivity|].
    unfold Add. simpl. rewrite Hpath.
    do 3 f_equal. destruct (decide (id = id')) as [->|Hne].
    + by rewrite !insert_insert_eq.
    + by apply insert_insert_ne.
Qed.

Lemma Add_frame_idempotent_commutes_witness :
  (forall id', id' <> "7" -> Has {| tweets := Some {[ "7" := true ]};
                                    filePath := "seen_tweets.json" |} id'
                             = Has example.fresh id') /\
  Add {| tweets := Some {[ "7" := true ]}; filePath := "seen_tweets.json" |} "7"
  = Some {| tweets := Some {[ "7" := true ]}; filePath := "seen_tweets.json" |}.
Proof.
  destruct (Add_frame_idempotent_commutes example.fresh "7"
              {| tweets := Some {[ "7" := true ]}; filePath := "seen_tweets.json" |}
              eq_refl) as (Hframe & _ & Hidem & _).
  split; [exact Hframe | exact Hidem].
Defined.

(** X3: [Save] on a path that is a directory, or a file that the process
    may not write, returns the error of [os.WriteFile] behind the words
    that name the write, and the disk is as it was: the file is not
    opened, so nothing of it is truncated.  An error that [Save] returns
    is never one of the encoding: it is a write error, wrapped. *)
Theorem Save_write_errors st d :
  (d !! filePath st = Some os.Dir ->
   Save st d
   = (Some ("failed to write seen tweets file: open " +:+ filePath st
            +:+ ": is a directory"), d)) /\
  (forall mode data,
     d !! filePath st = Some (os.File mode data) -> os.writable mode = false ->
     Save st d
     = (Some ("failed to write seen tweets file: open " +:+ filePath st
              +:+ ": permission denied"), d)) /\
  (forall err d',
     Save st d = (Some err, d') ->
     exists cause, err = "failed to write seen tweets file: " +:+ cause).
Proof.
  unfold Save. destruct (MarshalIndent_total (tweets st)) as [bytes ->].
  unfold os.WriteFile. split; [|split].
  - by intros ->.
  - by intros mode data -> ->.
  - intros err d'.
    destruct (d !! filePath st) as [[mode data|]|]; [|by intros [= <- <-]; eauto|done].
    destruct (os.writable mode); [done|]. intros [= <- <-]. eauto.
Qed.

Lemma Save_write_errors_witness :
  Save example.fresh {[ "seen_tweets.json" := os.Dir ]}
  = (Some "failed to write seen tweets file: open seen_tweets.json: is a directory",
     {[ "seen_tweets.json" := os.Dir ]}) /\
  Save example.fresh
    {[ "seen_tweets.json"
       := os.File {| os.readable := true; os.writable := false |}
            (json.JSONText (json.JObject [])) ]}
  = (Some "failed to write seen tweets file: open seen_tweets.json: permission denied",
     {[ "seen_tweets.json"
        := os.File {| os.readable := true; os.writable := false |}
             (json.JSONText (json.JObject [])) ]}).
Proof.
  split.
  - apply (Save_write_errors example.fresh {[ "seen_tweets.json" := os.Dir ]}).
    reflexivity.
  - destruct (Save_write_errors example.fresh
                {[ "seen_tweets.json"
                   := os.File {| os.readable := true; os.writable := false |}
                        (json.JSONText (json.JObject [])) ]})
      as (_ & Hdenied & _).
    apply (Hdenied {| os.readable := true; os.writable := false |}
             (json.JSONText (json.JObject []))); reflexivity.
Defined.

(** X4: after a [Save] that returned nil, every other path of the disk is
    as it was, whatever the file held before is gone, and [NewSeenTweets]
    on the path returns the very store that was saved: its entries with the
    value [false] too, and the nil map as the nil map. *)
Theorem Save_then_NewSeenTweets st d d' :
  (forall mode data, d !! filePath st = Some (os.File mode data) ->
                     os.readable mode = true) ->
  Save st d = (None, d') ->
  NewSeenTweets (filePath st) d' = inr st /\
  (forall path, path <> filePath st -> d' !! path = d !! path).
Proof.
  intros Hread Hsave. split; [by eapply Save_NewSeenTweets|].
  intros path Hne. by eapply Save_other_paths.
Qed.

(** A store with a [false] entry, saved over a file that was not JSON,
    beside a configuration file. *)
Lemma Save_then_NewSeenTweets_witness :
  let st := {| tweets := Some {[ "42" := false; "7" := true ]};
               filePath := "seen_tweets.json" |} in
  let d : os.Disk :=
    {[ "seen_tweets.json" := os.File os.mode0644 (json.NotJSON "{ 1001: tru");
       "config.yaml" := os.File os.mode0644 (json.NotJSON "interval: 5m") ]} in
  NewSeenTweets "seen_tweets.json" (Save st d).2 = inr st /\
  (forall path, path <> "seen_tweets.json" -> (Save st d).2 !! path = d !! path).
Proof.
  cbv zeta.
  apply (Save_then_NewSeenTweets
           {| tweets := Some {[ "42" := false; "7" := true ]};
              filePath := "seen_tweets.json" |}
           {[ "seen_tweets.json" := os.File os.mode0644 (json.NotJSON "{ 1001: tru");
              "config.yaml" := os.File os.mode0644 (json.NotJSON "interval: 5m") ]}).
  - intros mode data [= <- _]. reflexivity.
  - vm_compute. reflexivity.
Defined.

(** *** Loading into a store that is not empty *)

Lemma storeMember_flag_of members m0 :
  forallb (fun kv => json.is_flag kv.2) members = true ->
  foldl json.storeMember (m0, None) members
  = (foldl (fun acc kv => <[kv.1 := kv.2]> acc) m0 (json.flag_of <$> members), None).
Proof.
  revert m0. induction members as [|[k v] members IH]; intros m0 Hflags; [done|].
  simpl in Hflags. apply andb_true_iff in Hflags as [Hv Hflags].
  cbn [foldl fmap list_fmap]. rewrite <- (IH _ Hflags).
  by destruct v.
Qed.

(** X5: [Load] does not empty the store it loads into.  When the file is a
    readable object whose members are booleans or [null], with no key
    twice, [Load] returns nil; an identifier the file does not name keeps
    its answer, and one it names gets the file's value ([false] for
    [null]), whatever the store held for it. *)
Theorem Load_merges st m (d : os.Disk) mode members :
  tweets st = Some m ->
  d !! filePath st = Some (os.File mode (json.JSONText (json.JObject members))) ->
  os.readable mode = true ->
  forallb (fun kv => json.is_flag kv.2) members = true ->
  NoDup members.*1 ->
  exists st',
    Load st d = (st', None) /\
    filePath st' = filePath st /\
    (forall id, id ∉ members.*1 -> Has st' id = Has st id) /\
    (forall id v, (id, v) ∈ members -> Has st' id = (json.flag_of (id, v)).2).
Proof.
  intros Hm Hfile Hr Hflags Hnd.
  unfold Load, os.ReadFile. rewrite Hfile, Hr. cbn [json.Unmarshal].
  rewrite Hm. cbn [default]. rewrite (storeMember_flag_of _ _ Hflags).
  assert (NoDup (json.flag_of <$> members).*1) as Hnd'.
  { by rewrite <- list_fmap_compose. }
  rewrite (foldl_insert_union _ _ Hnd'). cbn [fst snd].
  eexists. split; [reflexivity|]. split; [reflexivity|]. unfold Has. simpl. rewrite Hm.
  split.
  - intros id Hnot. rewrite lookup_union_r; [done|].
    apply not_elem_of_list_to_map_1. by rewrite <- list_fmap_compose.
  - intros id v Hin.
    rewrite (lookup_union_Some_l _ _ _ (json.flag_of (id, v)).2); [done|].
    apply elem_of_list_to_map_1; [done|].
    by apply (list_elem_of_fmap_2 json.flag_of) in Hin.
Qed.

(** The store holds 7 and 42; the file says that 42 is not seen and 1001 is. *)
Lemma Load_merges_witness :
  exists st',
    Load {| tweets := Some {[ "7" := true; "42" := true ]};
            filePath := "seen_tweets.json" |}
      {[ "seen_tweets.json" :=
           os.File os.mode0644
             (json.JSONText (json.JObject [("42", json.JBool false);
                                           ("1001", json.JBool true)])) ]}
    = (st', None) /\
    filePath st' = "seen_tweets.json" /\
    (forall id, id ∉ ["42"; "1001"] ->
                Has st' id = Has {| tweets := Some {[ "7" := true; "42" := true ]};
                                    filePath := "seen_tweets.json" |} id) /\
    (forall id v, (id, v) ∈ [("42", json.JBool false); ("1001", json.JBool true)] ->
                  Has st' id = (json.flag_of (id, v)).2).
Proof.
  apply (Load_merges {| tweets := Some {[ "7" := true; "42" := true ]};
                        filePath := "seen_tweets.json" |}
           {[ "7" := true; "42" := true ]}
           {[ "seen_tweets.json" :=
                os.File os.mode0644
                  (json.JSONText (json.JObject [("42", json.JBool false);
                                                ("1001", json.JBool true)])) ]}
           os.mode0644
           [("42", json.JBool false); ("1001", json.JBool true)]);
    [reflexivity.. | compute_done].
Defined.

(** X6: [Load] returns the read error, wrapped, and leaves the store as it
    was when no file is at the path, when the path is a directory and when
    the file has no read permission.  [NewSeenTweets] forgives only the
    first: for a directory and for an unreadable file it returns the error. *)
Theorem Load_read_errors st (d : os.Disk) :
  (d !! filePath st = None \/
   d !! filePath st = Some os.Dir \/
   exists mode data,
     d !! filePath st = Some (os.File mode data) /\ os.readable mode = false) ->
  exists cause,
    Load st d = (st, Some ("failed to read seen tweets file: " +:+ cause)) /\
    (is_Some (d !! filePath st) ->
     NewSeenTweets (filePath st) d
     = inl ("failed to read seen tweets file: " +:+ cause)).
Proof.
  unfold NewSeenTweets, Load, os.Stat, os.ReadFile. simpl.
  intros [Hnone|[Hdir|(mode & data & Hfile & Hr)]].
  - rewrite Hnone. eexists. split; [reflexivity|]. by intros [? ?].
  - rewrite Hdir. eauto.
  - rewrite Hfile, Hr. eauto.
Qed.

Lemma Load_read_errors_witness :
  exists cause,
    Load example.fresh {[ "seen_tweets.json" := os.Dir ]}
    = (example.fresh, Some ("failed to read seen tweets file: " +:+ cause)) /\
    (is_Some (({[ "seen_tweets.json" := os.Dir ]} : os.Disk) !! "seen_tweets.json") ->
     NewSeenTweets "seen_tweets.json" {[ "seen_tweets.json" := os.Dir ]}
     = inl ("failed to read seen tweets file: " +:+ cause)).
Proof.
  apply (Load_read_errors example.fresh {[ "seen_tweets.json" := os.Dir ]}).
  right. left. reflexivity.
Defined.

End MoreStorage.

(** ** More of the pipeline: what is delivered and what is marked seen *)
Section Ledger.
Import crawler.
Context {World : Type}.

Implicit Types (c : Crawler World) (s : State World) (tweet : twitter.Tweet).
Implicit Types (new : list Event) (id : string).

Lemma successes_nil id : successes id [] = 0%nat.
Proof. done. Qed.

Lemma successes_cons id ev new :
  successes id (ev :: new)
  = ((if delivered id ev then 1 else 0) + successes id new)%nat.
Proof.
  unfold successes. rewrite filter_cons.
  destruct (delivered id ev); by case_decide.
Qed.

Lemma successes_app id new1 new2 :
  successes id (new1 ++ new2) = (successes id new1 + successes id new2)%nat.
Proof. unfold successes. by rewrite filter_app, length_app. Qed.

Lemma successes_Exists id new :
  (0 < successes id new)%nat <-> Exists (fun ev => delivered id ev = true) new.
Proof.
  induction new as [|ev new IH].
  - rewrite successes_nil, Exists_nil. lia.
  - rewrite successes_cons, Exists_cons, <- IH.
    destruct (delivered id ev); simpl; intuition (try lia; try discriminate).
Qed.

Lemma delivered_about id ev : delivered id ev = true -> about id ev = true.
Proof. by destruct ev as [| | | ? ? [] | ? ? [] | | |]. Qed.

Lemma not_about_successes id new :
  Forall (fun ev => about id ev = false) new -> successes id new = 0%nat.
Proof.
  induction 1 as [|ev new Hev _ IH]; [done|].
  rewrite successes_cons, IH.
  destruct (delivered id ev) eqn:Hd; [|done].
  apply delivered_about in Hd. congruence.
Qed.

Lemma Has_Add_ne (st st' : storage.SeenTweets) id id' :
  storage.Add st id = Some st' -> id' <> id ->
  storage.Has st' id' = storage.Has st id'.
Proof.
  intros (m & Hm & Hm' & _)%Add_inv Hne. unfold storage.Has.
  rewrite Hm, Hm'. by rewrite lookup_insert_ne.
Qed.

Lemma delivered_count_app new1 new2 :
  delivered_count (new1 ++ new2)%list = delivered_count new1 + delivered_count new2.
Proof. unfold delivered_count. rewrite omap_app, filter_app, length_app. lia. Qed.

Lemma delivered_count_nonneg new : 0 <= delivered_count new.
Proof. unfold delivered_count. lia. Qed.

Lemma ledger_refl c s : ledger c s s [].
Proof.
  unfold ledger. split; [by rewrite app_nil_r|].
  split; [|split; [|split; [|split; [|split; [|split]]]]].
  - by intros id Hseen.
  - intros id. rewrite successes_nil. lia.
  - intros id H. by apply Exists_nil in H.
  - intros id H. by apply Exists_nil in H.
  - auto.
  - intros _. constructor.
  - done.
Qed.

Lemma ledger_trans c s s1 s2 new1 new2 :
  ledger c s s1 new1 -> ledger c s1 s2 new2 -> ledger c s s2 (new1 ++ new2).
Proof.
  intros (Ht1 & Hkeep1 & Hone1 & Hdel1 & Hlow1 & Hwhy1 & Hplain1 & Hpace1)
         (Ht2 & Hkeep2 & Hone2 & Hdel2 & Hlow2 & Hwhy2 & Hplain2 & Hpace2).
  unfold ledger. split; [|split; [|split; [|split; [|split; [|split; [|split]]]]]].
  - by rewrite Ht2, Ht1, (assoc_L (++)).
  - intros id Hseen. destruct (Hkeep1 id Hseen) as [Hseen1 Hq1].
    destruct (Hkeep2 id Hseen1) as [Hseen2 Hq2]. split; [done|]. by apply Forall_app.
  - intros id. rewrite successes_app.
    destruct (decide (0 < successes id new1)%nat) as [Hpos|Hzero].
    + apply successes_Exists, Hdel1, Hkeep2 in Hpos as [_ Hq].
      rewrite (not_about_successes _ _ Hq). specialize (Hone1 id). lia.
    + specialize (Hone2 id). lia.
  - intros id [H1|H2]%Exists_app.
    + by apply Hkeep2, Hdel1.
    + by apply Hdel2.
  - intros id [H1|H2]%Exists_app.
    + by apply Hkeep2, Hlow1.
    + by apply Hlow2.
  - intros id Hseen2. rewrite !Exists_app.
    destruct (Hwhy2 id Hseen2) as [Hseen1|[?|?]]; [|tauto..].
    destruct (Hwhy1 id Hseen1) as [?|[?|?]]; tauto.
  - intros Hnone. apply Forall_app. auto.
  - pose proof (delivered_count_nonneg new1). pose proof (delivered_count_nonneg new2).
    rewrite omap_app, Hpace1, Hpace2, delivered_count_app, Z2Nat.inj_add by done.
    by rewrite replicate_add.
Qed.

(** An event that is about no tweet, and the store as it was. *)
Lemma ledger_record c s w d ev :
  (forall id, about id ev = false) ->
  (forall id, scored_low id ev = false) ->
  is_scoring ev = false ->
  delivery ev = None ->
  pause ev = None ->
  ledger c s {| world := w; seenTweets := seenTweets s; disk := d;
                trace := trace s ++ [ev] |} [ev].
Proof.
  intros Habout Hlow Hscoring Hdelivery Hpause. unfold ledger. cbn [trace seenTweets].
  assert (forall id, delivered id ev = false) as Hdel.
  { intros id. destruct (delivered id ev) eqn:Hd; [|done].
    apply delivered_about in Hd. by rewrite Habout in Hd. }
  split; [done|]. split; [|split; [|split; [|split; [|split; [|split]]]]].
  - intros id Hseen. split; [done|]. by repeat constructor.
  - intros id. rewrite successes_cons, successes_nil, Hdel. lia.
  - intros id [Hd|[]%Exists_nil]%Exists_cons. by rewrite Hdel in Hd.
  - intros id [Hd|[]%Exists_nil]%Exists_cons. by rewrite Hlow in Hd.
  - auto.
  - intros _. by repeat constructor.
  - unfold delivered_count. cbn [omap list_omap]. by rewrite Hpause, Hdelivery.
Qed.

Ltac body_step :=
  match goal with
  | |- context [storage.Has ?st ?id] => destruct (storage.Has st id) eqn:?
  | |- context [aiFilter ?c] => destruct (aiFilter c) as [?|] eqn:?
  | |- context [ai.Analyze ?f ?t ?i ?w] =>
      destruct (ai.Analyze f t i w) as [[?|?] ?] eqn:?
  | |- context [slack.NotifySimple ?n ?t ?i ?w] =>
      destruct (slack.NotifySimple n t i w) as [[?|] ?] eqn:?
  | |- context [slack.NotifyTweet ?n ?t ?a ?w] =>
      destruct (slack.NotifyTweet n t a w) as [[?|] ?] eqn:?
  | |- context [?x <? ?y] => destruct (Z.ltb_spec x y)
  | |- context [storage.Add ?st ?id] => destruct (storage.Add st id) as [?|] eqn:?
  end; cbn [fst snd world seenTweets disk trace].

Ltac run_body :=
  unfold traderTweet, keywordTweet, bind, call, ret, logPrintf, Sleep,
    seenHas, seenAdd, record;
  cbn [fst snd world seenTweets disk trace];
  repeat body_step.

Ltac trace_shape := cbn [trace]; rewrite <- ?(assoc_L (++)); reflexivity.

Lemma body_ledger c info body tweet cnt s :
  loop_body c info body ->
  allocated s ->
  exists cnt' s' new,
    body tweet cnt s = Ok cnt' s' /\
    allocated s' /\
    ledger c s s' new /\
    disk s' = disk s /\
    cnt.1 <= cnt'.1 <= cnt.1 + 1 /\
    cnt'.2 = cnt.2 + delivered_count new /\
    cnt'.2 - cnt.2 <= cnt'.1 - cnt.1.
Proof.
  intros Hbody Halloc. destruct cnt as [processed notified].
  destruct Hbody; run_body.
  all: try (exfalso; eapply Add_nil_absurd; eassumption).
  all: do 3 eexists; split; [reflexivity|].
  all: split; [first [exact Halloc | eapply Add_stays_allocated; eassumption]|].
  all: split;
    [unfold ledger; cbn [trace seenTweets];
     split; [try trace_shape; by rewrite app_nil_r|]; cbn [app]
    |unfold delivered_count; simpl; split_and!; try done; lia].
  all: split;
    [intros id Hid; split;
       [first [exact Hid | eapply Has_Add_mono; eassumption]
       |repeat constructor; cbn [about]; try reflexivity;
        apply not_about; intros <-; congruence]|].
  all: split;
    [intros id; rewrite ?successes_cons, successes_nil; cbn [delivered];
     try case_bool_decide; simpl; lia|].
  all: split;
    [intros id Hex;
     repeat (apply Exists_cons in Hex as [Hex|Hex]);
     try (by apply Exists_nil in Hex);
     cbn [delivered] in Hex; try discriminate Hex;
     apply bool_decide_eq_true in Hex as <-; eapply Has_Add; eassumption|].
  all: split;
    [intros id Hex;
     repeat (apply Exists_cons in Hex as [Hex|Hex]);
     try (by apply Exists_nil in Hex);
     cbn [scored_low] in Hex; try discriminate Hex;
     apply andb_true_iff in Hex as [Hex _];
     apply bool_decide_eq_true in Hex as <-; eapply Has_Add; eassumption|].
  all: split; [|split; [intros Hnone; try congruence; by repeat constructor|reflexivity]].
  all: intros id Hid; try (by left).
  all: destruct (decide (id = twitter.ID tweet)) as [->|Hne];
    [right|left; erewrite <- Has_Add_ne by eassumption; exact Hid].
  all: first
    [left;
     solve [repeat first
              [apply Exists_cons_hd; cbn [delivered]; by apply bool_decide_eq_true
              |apply Exists_cons_tl]]
    |right;
     solve [repeat first
              [apply Exists_cons_hd; cbn [scored_low]; apply andb_true_iff;
               split; [by apply bool_decide_eq_true | by apply Z.ltb_lt]
              |apply Exists_cons_tl]]].
Qed.

Lemma tweets_ledger c info body tweets cnt s :
  loop_body c info body ->
  allocated s ->
  exists cnt' s' new,
    forEach body tweets cnt s = Ok cnt' s' /\
    allocated s' /\
    ledger c s s' new /\
    disk s' = disk s /\
    cnt.1 <= cnt'.1 <= cnt.1 + Z.of_nat (length tweets) /\
    cnt'.2 = cnt.2 + delivered_count new /\
    cnt'.2 - cnt.2 <= cnt'.1 - cnt.1.
Proof.
  intros Hbody. revert cnt s.
  induction tweets as [|tweet tweets IH]; intros cnt s Halloc.
  - exists cnt, s, []. split; [done|]. split; [done|]. split; [apply ledger_refl|].
    unfold delivered_count. simpl. split_and!; try done; lia.
  - destruct (body_ledger c info body tweet cnt s Hbody Halloc)
      as (cnt1 & s1 & new1 & Hrun1 & Halloc1 & Hl1 & Hd1 & Hp1 & Hn1 & Hle1).
    destruct (IH cnt1 s1 Halloc1)
      as (cnt2 & s2 & new2 & Hrun2 & Halloc2 & Hl2 & Hd2 & Hp2 & Hn2 & Hle2).
    exists cnt2, s2, (new1 ++ new2)%list.
    split; [cbn [forEach]; unfold bind; by rewrite Hrun1|].
    split; [done|]. split; [by eapply ledger_trans|].
    split; [congruence|].
    rewrite delivered_count_app. cbn [length]. split_and!; try done; lia.
Qed.

Lemma target_ledger c s w (ev : Event) (r : error + list twitter.Tweet) info body :
  loop_body c info body ->
  allocated s ->
  (forall id, about id ev = false) ->
  (forall id, scored_low id ev = false) ->
  is_scoring ev = false ->
  delivery ev = None ->
  pause ev = None ->
  exists res s' new,
    bind (fun s0 : State World =>
            Ok r {| world := w; seenTweets := seenTweets s0; disk := disk s0;
                    trace := trace s0 ++ [ev] |})
      (fun r =>
         match r with
         | inl err => ret (0, 0, Some err)
         | inr tweets =>
             bind (forEach body tweets (0, 0)) (fun cnt => ret (cnt.1, cnt.2, None))
         end) s = Ok res s' /\
    allocated s' /\ ledger c s s' new /\ disk s' = disk s /\
    target_result r s s' res.
Proof.
  intros Hbody Halloc Habout Hlow Hscoring Hdel Hpause. unfold bind at 1.
  pose proof (ledger_record c s w (disk s) ev Habout Hlow Hscoring Hdel Hpause) as Hl0.
  destruct r as [err|tweets].
  - do 3 eexists. split; [reflexivity|]. split; [exact Halloc|].
    split; [exact Hl0|]. split; [done|].
    unfold target_result. erewrite events_since_app by reflexivity.
    unfold delivered_count. simpl. rewrite Hdel. simpl. split_and!; try done.
  - match goal with |- context [bind _ _ ?s1] =>
      destruct (tweets_ledger c info body tweets (0, 0) s1 Hbody Halloc)
        as (cnt' & s' & new & Hrun & Halloc' & Hl & Hd & Hp & Hn & Hle)
    end.
    unfold bind, ret. rewrite Hrun.
    do 3 eexists. split; [reflexivity|]. split; [exact Halloc'|].
    pose proof (ledger_trans _ _ _ _ _ _ Hl0 Hl) as Hl'.
    split; [exact Hl'|]. split; [exact Hd|].
    unfold target_result. rewrite (events_since_app _ _ _ (proj1 Hl')).
    rewrite delivered_count_app. unfold delivered_count at 1. simpl in *.
    rewrite Hdel. simpl. split_and!; try done; try lia. rewrite Hn. unfold delivered_count. lia.
Qed.

Lemma processTrader_ledger c trader s :
  allocated s ->
  exists res s' new,
    processTrader c trader s = Ok res s' /\
    allocated s' /\ ledger c s s' new /\ disk s' = disk s /\
    target_result
      (twitter.GetUserTweets (twitterClient c) (config.Username trader) 10 (world s)).1
      s s' res.
Proof.
  intros Halloc.
  apply (target_ledger c s _ (EvGetUserTweets _ _ _) _ _ _ (trader_body c _) Halloc);
    done.
Qed.

Lemma processKeyword_ledger c keyword s :
  allocated s ->
  exists res s' new,
    processKeyword c keyword s = Ok res s' /\
    allocated s' /\ ledger c s s' new /\ disk s' = disk s /\
    target_result
      (twitter.SearchTweets (twitterClient c) (config.Query keyword) 10 (world s)).1
      s s' res.
Proof.
  intros Halloc.
  apply (target_ledger c s _ (EvSearchTweets _ _ _) _ _ _ (keyword_body c keyword) Halloc);
    done.
Qed.

Lemma delivered_count_log new line :
  delivered_count (new ++ [EvLog line])%list = delivered_count new.
Proof. rewrite delivered_count_app. unfold delivered_count at 2. simpl. lia. Qed.

Lemma ledger_log c s s' new line :
  (forall id, scored_low id (EvLog line) = false) ->
  ledger c s s' new ->
  ledger c s (record (EvLog line) s') (new ++ [EvLog line]).
Proof.
  intros Hlow Hl. eapply ledger_trans; [exact Hl|].
  by apply (ledger_record c s' (world s') (disk s') (EvLog line)).
Qed.

Lemma runTrader_ledger c trader tot s :
  allocated s ->
  exists tot' s' new,
    runTrader c trader tot s = Ok tot' s' /\
    allocated s' /\
    ledger c s s' new /\
    disk s' = disk s /\
    tot.1 <= tot'.1 /\
    tot'.2 = tot.2 + delivered_count new /\
    tot'.2 - tot.2 <= tot'.1 - tot.1.
Proof.
  intros Halloc. unfold runTrader, bind.
  destruct (processTrader_ledger c trader s Halloc)
    as (res & s' & new & -> & Halloc' & Hl & Hd & Hb & Hn & Hr).
  rewrite (events_since_app _ _ _ (proj1 Hl)) in Hn.
  destruct (twitter.GetUserTweets _ _ _ _).1 as [e|tweets].
  - destruct Hr as [-> _]. simpl in *.
    do 3 eexists. split; [reflexivity|]. split; [exact Halloc'|].
    split; [by apply ledger_log|]. split; [exact Hd|].
    rewrite delivered_count_log. lia.
  - destruct res as [[processed notified] err]. simpl in *. destruct Hr as [-> _].
    do 3 eexists. split; [reflexivity|]. split; [exact Halloc'|].
    split; [exact Hl|]. split; [exact Hd|]. simpl. lia.
Qed.

Lemma runKeyword_ledger c keyword tot s :
  allocated s ->
  exists tot' s' new,
    runKeyword c keyword tot s = Ok tot' s' /\
    allocated s' /\
    ledger c s s' new /\
    disk s' = disk s /\
    tot.1 <= tot'.1 /\
    tot'.2 = tot.2 + delivered_count new /\
    tot'.2 - tot.2 <= tot'.1 - tot.1.
Proof.
  intros Halloc. unfold runKeyword, bind.
  destruct (processKeyword_ledger c keyword s Halloc)
    as (res & s' & new & -> & Halloc' & Hl & Hd & Hb & Hn & Hr).
  rewrite (events_since_app _ _ _ (proj1 Hl)) in Hn.
  destruct (twitter.SearchTweets _ _ _ _).1 as [e|tweets].
  - destruct Hr as [-> _]. simpl in *.
    do 3 eexists. split; [reflexivity|]. split; [exact Halloc'|].
    split; [by apply ledger_log|]. split; [exact Hd|].
    rewrite delivered_count_log. lia.
  - destruct res as [[processed notified] err]. simpl in *. destruct Hr as [-> _].
    do 3 eexists. split; [reflexivity|]. split; [exact Halloc'|].
    split; [exact Hl|]. split; [exact Hd|]. simpl. lia.
Qed.

(** A loop over targets whose iterations keep the ledger keeps it. *)
Lemma forEach_ledger {A : Type} c (body : A -> Z * Z -> M World (Z * Z)) (xs : list A) :
  (forall x tot s, allocated s ->
     exists tot' s' new,
       body x tot s = Ok tot' s' /\ allocated s' /\ ledger c s s' new /\
       disk s' = disk s /\ tot.1 <= tot'.1 /\
       tot'.2 = tot.2 + delivered_count new /\
       tot'.2 - tot.2 <= tot'.1 - tot.1) ->
  forall tot s, allocated s ->
    exists tot' s' new,
      forEach body xs tot s = Ok tot' s' /\ allocated s' /\ ledger c s s' new /\
      disk s' = disk s /\ tot.1 <= tot'.1 /\
      tot'.2 = tot.2 + delivered_count new /\
      tot'.2 - tot.2 <= tot'.1 - tot.1.
Proof.
  intros Hbody. induction xs as [|x xs IH]; intros tot s Halloc.
  - exists tot, s, []. split; [done|]. split; [done|]. split; [apply ledger_refl|].
    unfold delivered_count. simpl. split_and!; try done; lia.
  - destruct (Hbody x tot s Halloc)
      as (tot1 & s1 & new1 & Hrun1 & Halloc1 & Hl1 & Hd1 & Hp1 & Hn1 & Hle1).
    destruct (IH tot1 s1 Halloc1)
      as (tot2 & s2 & new2 & Hrun2 & Halloc2 & Hl2 & Hd2 & Hp2 & Hn2 & Hle2).
    exists tot2, s2, (new1 ++ new2)%list.
    split; [cbn [forEach]; unfold bind; by rewrite Hrun1|].
    split; [done|]. split; [by eapply ledger_trans|].
    split; [congruence|].
    rewrite delivered_count_app. split_and!; lia.
Qed.

(** The cycle: the ledger of all it recorded, the one write to the disk,
    and the summary it logs last. *)
Lemma Run_ledger c s :
  allocated s ->
  exists s' new processed notified,
    Run c s = Ok None s' /\
    allocated s' /\
    ledger c s s' new /\
    disk s' = (storage.Save (seenTweets s') (disk s)).2 /\
    last new = Some (EvLog (CrawlComplete processed notified
                              (storage.Count (seenTweets s')))) /\
    notified = delivered_count new /\
    0 <= notified <= processed.
Proof.
  intros Halloc. unfold Run.
  destruct (forEach_ledger c (runTrader c) (config.Traders (config c)))
    with (tot := (0, 0)) (s := s)
    as (tot1 & sa & new1 & Hrun1 & Halloc1 & Hl1 & Hd1 & Hp1 & Hn1 & Hle1); [|done|].
  { intros. by apply runTrader_ledger. }
  destruct (forEach_ledger c (runKeyword c) (config.Keywords (config c)))
    with (tot := tot1) (s := sa)
    as (tot2 & sb & new2 & Hrun2 & Halloc2 & Hl2 & Hd2 & Hp2 & Hn2 & Hle2); [|done|].
  { intros. by apply runKeyword_ledger. }
  pose proof (ledger_trans _ _ _ _ _ _ Hl1 Hl2) as Hl.
  assert (0 <= delivered_count new1) as Hpos by (unfold delivered_count; lia).
  assert (0 <= delivered_count new2) as Hpos2 by (unfold delivered_count; lia).
  unfold bind at 1. rewrite Hrun1. unfold bind at 1. rewrite Hrun2.
  unfold bind, seenSave, seenCount, logPrintf, ret.
  cbn [fst snd world seenTweets disk trace].
  assert (disk sb = disk s) as Hd by congruence.
  pose proof (ledger_record c sb (world sb)
                (storage.Save (seenTweets sb) (disk sb)).2
                (EvSave (storage.filePath (seenTweets sb))
                   (storage.Save (seenTweets sb) (disk sb)).1)
                (fun _ => eq_refl) (fun _ => eq_refl) eq_refl eq_refl eq_refl) as Hsave.
  pose proof (ledger_trans _ _ _ _ _ _ Hl Hsave) as Hl'.
  destruct (storage.Save (seenTweets sb) (disk sb)).1 as [err|] eqn:Herr.
  - eexists _, _, tot2.1, tot2.2. split; [reflexivity|].
    split; [exact Halloc2|].
    split; [apply ledger_log; [done|]; apply ledger_log; [done|]; exact Hl'|].
    cbn [record seenTweets disk]. rewrite Hd.
    split; [done|]. split; [by rewrite last_snoc|].
    rewrite !delivered_count_log, !delivered_count_app.
    unfold delivered_count at 3. simpl in *. lia.
  - eexists _, _, tot2.1, tot2.2. split; [reflexivity|].
    split; [exact Halloc2|].
    split; [apply ledger_log; [done|]; exact Hl'|].
    cbn [record seenTweets disk]. rewrite Hd.
    split; [done|]. split; [by rewrite last_snoc|].
    rewrite !delivered_count_log, !delivered_count_app.
    unfold delivered_count at 3. simpl in *. lia.
Qed.

Lemma crawl_ledger c s :
  allocated s ->
  exists s' new,
    main.crawl c s = Ok tt s' /\ allocated s' /\ ledger c s s' new.
Proof.
  intros Halloc.
  destruct (Run_ledger c s Halloc) as (s' & new & p & n & Hrun & Halloc' & Hl & _).
  exists s', new. unfold main.crawl, bind. by rewrite Hrun.
Qed.

Lemma cycles_ledger c n s :
  allocated s ->
  exists s' new,
    main.cycles c n s = Ok tt s' /\ allocated s' /\ ledger c s s' new.
Proof.
  revert s. induction n as [|n IH]; intros s Halloc.
  - exists s, []. split; [done|]. split; [done|]. apply ledger_refl.
  - destruct (crawl_ledger c s Halloc) as (s1 & new1 & Hrun1 & Halloc1 & Hl1).
    destruct (IH s1 Halloc1) as (s2 & new2 & Hrun2 & Halloc2 & Hl2).
    exists s2, (new1 ++ new2)%list.
    split; [cbn [main.cycles]; unfold bind; by rewrite Hrun1|].
    split; [done|]. by eapply ledger_trans.
Qed.




(** X7: what [processTrader] and [processKeyword] return.  Both return
    (the store's map being allocated); the number notified is the number of
    deliveries that returned nil, and it is at most the number processed;
    a failed fetch gives zeros and the fetch error, the store untouched;
    fetched tweets give no error, and no more are processed than fetched. *)
Theorem targets_count_their_deliveries c s :
  allocated s ->
  (forall trader,
     exists res s',
       processTrader c trader s = Ok res s' /\
       target_result
         (twitter.GetUserTweets (twitterClient c) (config.Username trader) 10 (world s)).1
         s s' res) /\
  (forall keyword,
     exists res s',
       processKeyword c keyword s = Ok res s' /\
       target_result
         (twitter.SearchTweets (twitterClient c) (config.Query keyword) 10 (world s)).1
         s s' res).
Proof.
  intros Halloc. split.
  - intros trader.
    destruct (processTrader_ledger c trader s Halloc) as (res & s' & new & Hrun & _ & _ & _ & Hr).
    by exists res, s'.
  - intros keyword.
    destruct (processKeyword_ledger c keyword s Halloc) as (res & s' & new & Hrun & _ & _ & _ & Hr).
    by exists res, s'.
Qed.




(** X11: for a store whose map is allocated, what a cycle does to the
    disk is the one [Save] of the store it ends with.  The store keeps its
    path and no other path of the disk changes; when the path is a
    directory or a file that the process may not write, the disk is as it
    was; and after a [Save] that returned nil (over nothing, or over a
    readable file) a new process that calls [NewSeenTweets] on the path
    starts with the store the cycle ended with. *)
Theorem Run_writes_only_the_seen_file c s :
  allocated s ->
  exists s',
    Run c s = Ok None s' /\
    storage.filePath (seenTweets s') = storage.filePath (seenTweets s) /\
    disk s' = (storage.Save (seenTweets s') (disk s)).2 /\
    (forall path,
       path <> storage.filePath (seenTweets s) -> disk s' !! path = disk s !! path) /\
    (disk s !! storage.filePath (seenTweets s) = Some os.Dir \/
     (exists mode data,
        disk s !! storage.filePath (seenTweets s) = Some (os.File mode data) /\
        os.writable mode = false) ->
     disk s' = disk s) /\
    ((storage.Save (seenTweets s') (disk s)).1 = None ->
     (forall mode data,
        disk s !! storage.filePath (seenTweets s) = Some (os.File mode data) ->
        os.readable mode = true) ->
     storage.NewSeenTweets (storage.filePath (seenTweets s)) (disk s')
     = inr (seenTweets s')).
Proof.
  intros Halloc.
  destruct (Run_returns c s Halloc)
    as (s1 & new0 & logs & s0 & Hrun0 & Hst & _ & _ & Hstore & _).
  destruct (Run_ledger c s Halloc) as (s' & new & p & m & Hrun & _ & _ & Hdisk & _).
  assert (s0 = s') as -> by congruence.
  assert (storage.filePath (seenTweets s') = storage.filePath (seenTweets s)) as Hpath.
  { rewrite Hstore. apply Hst. }
  exists s'. split; [done|]. split; [done|]. split; [done|].
  rewrite Hdisk, <- Hpath. split; [|split].
  - intros path Hne.
    destruct (storage.Save (seenTweets s') (disk s)) as [e d'] eqn:Hsave.
    by eapply Save_other_paths.
  - intros Hrefused. by apply Save_refused.
  - destruct (storage.Save (seenTweets s') (disk s)) as [e d'] eqn:Hsave. cbn [fst snd].
    intros -> Hread. by eapply Save_NewSeenTweets.
Qed.



End Ledger.

(** ** More of the pipeline in the small world *)
Section MoreExamples.
Import crawler.

(** The timeline of alice: three tweets fetched, three processed, one
    notified (tweet 1 at the minimum; tweet 2 scores 69; the scorer fails on
    tweet 3 and the webhook refuses its plain notification). *)
Lemma targets_count_their_deliveries_witness :
  exists res s',
    processTrader example.c example.alice example.s0 = Ok res s' /\
    target_result (inr [example.tweet "1"; example.tweet "2"; example.tweet "3"])
      example.s0 s' res.
Proof.
  destruct (targets_count_their_deliveries example.c example.s0 fresh_allocated)
    as [Htrader _].
  exact (Htrader example.alice).
Defined.




(** A cycle on the empty disk, and on a disk where the path is a directory. *)
Lemma Run_writes_only_the_seen_file_witness :
  (exists s',
     Run example.c example.s0 = Ok None s' /\
     storage.NewSeenTweets "seen_tweets.json" (disk s') = inr (seenTweets s')) /\
  (exists s',
     Run example.c example.s_unwritable = Ok None s' /\
     disk s' = disk example.s_unwritable).
Proof.
  split.
  - destruct (Run_writes_only_the_seen_file example.c example.s0 fresh_allocated)
      as (s' & Hrun & _ & _ & _ & _ & Hload).
    exists s'. split; [exact Hrun|].
    assert (s' = final (Run example.c example.s0)) as Hs' by (by rewrite Hrun).
    apply Hload; [|done]. rewrite Hs'. vm_compute. reflexivity.
  - destruct (Run_writes_only_the_seen_file example.c example.s_unwritable)
      as (s' & Hrun & _ & _ & _ & Hfail & _); [by eexists|].
    exists s'. split; [exact Hrun|].
    apply Hfail. left. reflexivity.
Defined.



End MoreExamples.

(** ** The scorer's answer: [extractJSON] *)
Section ExtractJSON.
Import ai.

Implicit Types (text pre body post block : string) (i j lo hi start : Z).

(** *** Texts as lists of bytes *)

Lemma bytes_app s1 s2 : bytes (s1 +:+ s2) = (bytes s1 ++ bytes s2)%list.
Proof. unfold bytes. induction s1 as [|a s1 IH]; simpl; [done|]. by rewrite IH. Qed.

Lemma bytes_length s : length (bytes s) = String.length s.
Proof. unfold bytes. induction s as [|a s IH]; simpl; [done|]. by rewrite IH. Qed.

Lemma bytes_inj s1 s2 : bytes s1 = bytes s2 -> s1 = s2.
Proof.
  unfold bytes. intros H.
  rewrite <- (String.string_of_list_ascii_of_string s1), <- (String.string_of_list_ascii_of_string s2).
  by rewrite H.
Qed.

Lemma bytes_get n s : String.get n s = bytes s !! n.
Proof.
  unfold bytes. revert n. induction s as [|a s IH]; intros [|n]; simpl; done.
Qed.

Lemma bytes_substring n m s :
  bytes (String.substring n m s) = take m (drop n (bytes s)).
Proof.
  unfold bytes. revert n m. induction s as [|a s IH]; intros [|n] [|m]; simpl; try done.
  by rewrite IH, drop_0.
Qed.

Lemma len_bytes s : len s = Z.of_nat (length (bytes s)).
Proof. unfold len. by rewrite bytes_length. Qed.

Lemma len_app s1 s2 : len (s1 +:+ s2) = len s1 + len s2.
Proof. rewrite !len_bytes, bytes_app, length_app. lia. Qed.

Lemma len_nonneg s : 0 <= len s.
Proof. unfold len. lia. Qed.

(** *** Indexing and slicing *)

Lemma slice_Some text lo hi block :
  slice text lo hi = Some block <->
  0 <= lo /\ lo <= hi /\ hi <= len text /\
  bytes block = take (Z.to_nat (hi - lo)) (drop (Z.to_nat lo) (bytes text)).
Proof.
  unfold slice. case_decide as H.
  - split.
    + intros [= <-]. rewrite bytes_substring. tauto.
    + intros (_ & _ & _ & Hb). f_equal. apply bytes_inj. by rewrite bytes_substring.
  - split; [done|]. tauto.
Qed.

Lemma slice_is_Some text lo hi :
  0 <= lo -> lo <= hi -> hi <= len text -> is_Some (slice text lo hi).
Proof. intros. unfold slice. rewrite decide_True by tauto. eauto. Qed.

Lemma index_lookup text i : 0 <= i -> index text i = bytes text !! Z.to_nat i.
Proof. intros. unfold index. rewrite decide_True by done. apply bytes_get. Qed.

Lemma index_is_Some text i : 0 <= i < len text -> is_Some (index text i).
Proof.
  intros. rewrite index_lookup by lia. apply lookup_lt_is_Some.
  rewrite len_bytes in *. lia.
Qed.

(** The bytes of a slice are those of the text. *)
Lemma slice_index text lo hi block k :
  slice text lo hi = Some block -> 0 <= k < hi - lo ->
  index text (lo + k) = index block k.
Proof.
  intros (Hlo & Hhi & Hlen & Hb)%slice_Some Hk.
  rewrite !index_lookup by lia. rewrite Hb.
  rewrite lookup_take_lt by lia. rewrite lookup_drop. f_equal. lia.
Qed.

(** A slice splits the text in three. *)
Lemma slice_part text lo hi block :
  slice text lo hi = Some block ->
  exists pre post, text = pre +:+ block +:+ post /\ len pre = lo.
Proof.
  intros (Hlo & Hhi & Hlen & Hb)%slice_Some.
  exists (String.substring 0 (Z.to_nat lo) text),
         (String.substring (Z.to_nat hi) (Z.to_nat (len text - hi)) text).
  split.
  - apply bytes_inj. rewrite !bytes_app, !bytes_substring, Hb, drop_0.
    rewrite len_bytes in *.
    rewrite (take_ge (drop (Z.to_nat hi) _)) by (rewrite length_drop; lia).
    replace (Z.to_nat hi) with (Z.to_nat lo + Z.to_nat (hi - lo))%nat by lia.
    rewrite <- drop_drop. by rewrite !take_drop.
  - rewrite len_bytes, bytes_substring, drop_0, length_take. rewrite len_bytes in *. lia.
Qed.

(** The slice that a text with a known middle part has there. *)
Lemma slice_app pre block post :
  slice (pre +:+ block +:+ post) (len pre) (len pre + len block) = Some block.
Proof.
  apply slice_Some. pose proof (len_nonneg pre). pose proof (len_nonneg block).
  pose proof (len_nonneg post). rewrite !len_app.
  split; [lia|]. split; [lia|]. split; [lia|].
  rewrite !bytes_app. rewrite !len_bytes.
  replace (Z.to_nat (Z.of_nat (length (bytes pre)))) with (length (bytes pre)) by lia.
  rewrite drop_app_length.
  replace (Z.to_nat _) with (length (bytes block)) by lia.
  by rewrite take_app_length.
Qed.

Lemma index_app_l pre post i :
  0 <= i < len pre -> index (pre +:+ post) i = index pre i.
Proof.
  intros. rewrite !index_lookup by lia. rewrite bytes_app.
  apply lookup_app_l. rewrite len_bytes in *. lia.
Qed.

Lemma index_app_r pre post i :
  len pre <= i -> index (pre +:+ post) i = index post (i - len pre).
Proof.
  intros. pose proof (len_nonneg pre).
  rewrite !index_lookup by lia. rewrite bytes_app.
  rewrite lookup_app_r by (rewrite len_bytes in *; lia).
  f_equal. rewrite len_bytes in *. lia.
Qed.

Lemma index_elem_of text i b : index text i = Some b -> b ∈ bytes text.
Proof.
  unfold index. case_decide; [|done]. rewrite bytes_get.
  apply list_elem_of_lookup_2.
Qed.

(** *** The loops return *)

(** Within an opening fence no fence begins. *)
Lemma opening_no_fence text a i :
  slice text a (a + 7) = Some "```json" -> a < i < a + 7 ->
  slice text i (i + 3) <> Some "```".
Proof.
  intros Ho Hi Hf.
  assert (forall k, 0 <= k < 7 -> index text (a + k) = index "```json" k) as Ha.
  { intros k Hk. apply (slice_index _ _ _ _ _ Ho). lia. }
  assert (forall k, 0 <= k < 3 -> index text (i + k) = index "```" k) as Hb.
  { intros k Hk. apply (slice_index _ _ _ _ _ Hf). lia. }
  assert (i = a + 1 \/ i = a + 2 \/ i = a + 3 \/ i = a + 4 \/ i = a + 5 \/ i = a + 6)
    as Hcases by lia.
  destruct Hcases as [-> | [-> | [-> | [-> | [-> | ->]]]]].
  - specialize (Ha 3 ltac:(lia)). specialize (Hb 2 ltac:(lia)).
    replace (a + 1 + 2) with (a + 3) in Hb by lia. rewrite Ha in Hb. by vm_compute in Hb.
  - specialize (Ha 3 ltac:(lia)). specialize (Hb 1 ltac:(lia)).
    replace (a + 2 + 1) with (a + 3) in Hb by lia. rewrite Ha in Hb. by vm_compute in Hb.
  - specialize (Ha 3 ltac:(lia)). specialize (Hb 0 ltac:(lia)).
    replace (a + 3 + 0) with (a + 3) in Hb by lia. rewrite Ha in Hb. by vm_compute in Hb.
  - specialize (Ha 4 ltac:(lia)). specialize (Hb 0 ltac:(lia)).
    replace (a + 4 + 0) with (a + 4) in Hb by lia. rewrite Ha in Hb. by vm_compute in Hb.
  - specialize (Ha 5 ltac:(lia)). specialize (Hb 0 ltac:(lia)).
    replace (a + 5 + 0) with (a + 5) in Hb by lia. rewrite Ha in Hb. by vm_compute in Hb.
  - specialize (Ha 6 ltac:(lia)). specialize (Hb 0 ltac:(lia)).
    replace (a + 6 + 0) with (a + 6) in Hb by lia. rewrite Ha in Hb. by vm_compute in Hb.
Qed.

Lemma seqZ_succ a (k : nat) :
  seqZ a (Z.of_nat (S k)) = a :: seqZ (a + 1) (Z.of_nat k).
Proof.
  rewrite Nat2Z.inj_succ, seqZ_cons by lia.
  by rewrite Z.pred_succ, <- Z.add_1_r.
Qed.

(** The first loop never slices out of range, and when it leaves a block
    the block's bounds are in order and within the text: no closing fence
    is found before the end of the opening fence. *)
Lemma fenceLoop_bounds text (k : nat) a start :
  0 <= a -> (forall i, a <= i < a + Z.of_nat k -> i + 7 <= len text) ->
  (start = -1 \/
   (0 <= start <= len text /\
    forall i, a <= i < start -> slice text i (i + 3) <> Some "```")) ->
  exists start' end',
    fenceLoop text (seqZ a (Z.of_nat k)) start = Some (start', end') /\
    (start' <> -1 -> end' <> -1 -> 0 <= start' /\ start' <= end' /\ end' <= len text).
Proof.
  revert a start. induction k as [|k IH]; intros a start Ha Hk Hinv.
  - exists start, (-1). by split.
  - rewrite seqZ_succ. cbn [fenceLoop].
    pose proof (Hk a ltac:(lia)) as Hlen.
    assert (forall i, a + 1 <= i < a + 1 + Z.of_nat k -> i + 7 <= len text) as Hk'.
    { intros i Hi. apply Hk. lia. }
    destruct (slice_is_Some text a (a + 7)) as [opening Ho]; [lia..|]. rewrite Ho.
    case_decide as Hopening.
    + subst opening. apply IH; [lia | done |]. right. split; [lia|].
      intros i Hi. apply (opening_no_fence text a); [done | lia].
    + destruct (slice_is_Some text a (a + 3)) as [fence Hf]; [lia..|]. rewrite Hf.
      case_decide as Hbreak.
      * destruct Hbreak as [-> Hstart]. exists start, a. split; [done|]. intros _ _.
        destruct Hinv as [->|[Hb Hno]]; [done|].
        destruct (decide (start <= a)) as [|Hlt]; [lia|].
        destruct (Hno a); [lia | done].
      * apply IH; [lia | done |]. destruct Hinv as [->|[Hb Hno]]; [by left|].
        right. split; [done|]. intros i Hi. apply Hno. lia.
Qed.

Lemma closingLoop_in text js :
  (forall j, j ∈ js -> 0 <= j < len text) ->
  exists r, closingLoop text js = Some r /\ (forall j, r = Some j -> j ∈ js).
Proof.
  induction js as [|j js IH]; intros Hjs.
  - exists None. by split.
  - cbn [closingLoop].
    destruct (index_is_Some text j) as [b ->]; [apply Hjs; left|].
    case_decide.
    + exists (Some j). split; [done|]. intros ? [= <-]. left.
    + destruct IH as (r & -> & Hr); [intros; apply Hjs; by right|].
      exists r. split; [done|]. intros j' Hj'. right. by apply Hr.
Qed.

Lemma braceLoop_in text todo :
  (forall i, i ∈ todo -> 0 <= i < len text) ->
  exists r,
    braceLoop text todo = Some r /\
    (forall block, r = Some block ->
       exists i j, slice text i (j + 1) = Some block).
Proof.
  induction todo as [|i todo IH]; intros Htodo.
  - exists None. by split.
  - cbn [braceLoop].
    destruct (index_is_Some text i) as [b ->]; [apply Htodo; left|].
    assert (exists r, braceLoop text todo = Some r /\
              (forall block, r = Some block ->
                 exists i j, slice text i (j + 1) = Some block)) as Hrest.
    { apply IH. intros; apply Htodo; by right. }
    case_decide; [|done].
    destruct (closingLoop_in text (reverse (seqZ (i + 1) (len text - 1 - i))))
      as ([j|] & -> & Hj); [|..|done].
    { intros j Hj%elem_of_reverse%elem_of_seqZ. pose proof (Htodo i ltac:(left)). lia. }
    specialize (Hj j eq_refl). apply elem_of_reverse, elem_of_seqZ in Hj.
    pose proof (Htodo i ltac:(left)).
    destruct (slice_is_Some text i (j + 1)) as [block Hblock]; [lia..|].
    rewrite Hblock. exists (Some block). split; [done|]. intros ? [= <-]. eauto.
Qed.

Lemma extractJSON_part text :
  exists pre block post,
    extractJSON text = Some block /\ text = pre +:+ block +:+ post.
Proof.
  unfold extractJSON.
  destruct (fenceLoop_bounds text (Z.to_nat (len text - 6)) 0 (-1))
    as (start & end_ & Hloop & Hbounds); [lia | intros; lia | by left |].
  replace (seqZ 0 (Z.of_nat (Z.to_nat (len text - 6)))) with (seqZ 0 (len text - 6))
    in Hloop by (unfold seqZ; by rewrite Nat2Z.id).
  rewrite Hloop. case_decide as Hfound.
  - destruct Hfound as [Hs He]. destruct (Hbounds Hs He) as (? & ? & ?).
    destruct (slice_is_Some text start end_) as [block Hblock]; [lia..|].
    destruct (slice_part _ _ _ _ Hblock) as (pre & post & -> & _).
    exists pre, block, post. by rewrite Hblock.
  - destruct (braceLoop_in text (seqZ 0 (len text))) as ([block|] & -> & Hr).
    { intros i Hi%elem_of_seqZ. lia. }
    + destruct (Hr block eq_refl) as (i & j & Hblock).
      destruct (slice_part _ _ _ _ Hblock) as (pre & post & -> & _).
      by exists pre, block, post.
    + exists "", text, "". split; [done|].
      apply bytes_inj. by rewrite !bytes_app, app_nil_r.
Qed.

(** X13: [extractJSON] returns for every text (no index and no slice is
    out of range), and what it returns is a contiguous part of the text. *)
Theorem extractJSON_returns_part_of_text text :
  exists pre block post,
    extractJSON text = Some block /\ text = pre +:+ block +:+ post.
Proof. apply extractJSON_part. Qed.

(** *** What the loops find *)

Lemma append_assoc s1 s2 s3 : (s1 +:+ s2) +:+ s3 = s1 +:+ s2 +:+ s3.
Proof. apply bytes_inj. by rewrite !bytes_app, (assoc_L (++)). Qed.

Lemma slice_middle text pre block post lo hi :
  text = pre +:+ block +:+ post -> lo = len pre -> hi = len pre + len block ->
  slice text lo hi = Some block.
Proof. intros -> -> ->. apply slice_app. Qed.

Lemma index_middle text pre b post i :
  text = pre +:+ String b post -> i = len pre -> index text i = Some b.
Proof.
  intros -> ->. rewrite index_app_r by lia. by rewrite Z.sub_diag.
Qed.

(** An opening fence begins with a fence. *)
Lemma opening_fence text i :
  slice text i (i + 7) = Some "```json" -> slice text i (i + 3) = Some "```".
Proof.
  intros (Hlo & Hhi & Hlen & Hb)%slice_Some. apply slice_Some.
  split; [lia|]. split; [lia|]. split; [lia|].
  replace (Z.to_nat (i + 3 - i)) with 3%nat by lia.
  replace (Z.to_nat (i + 7 - i)) with 7%nat in Hb by lia.
  change (take 3 (drop (Z.to_nat i) (bytes text)))
    with (take (3 `min` 7) (drop (Z.to_nat i) (bytes text))).
  rewrite <- take_take. by rewrite <- Hb.
Qed.

Lemma no_backtick_no_fence text i :
  index text i <> Some "`"%char -> slice text i (i + 3) <> Some "```".
Proof.
  intros Hi Hf. apply Hi.
  rewrite <- (Z.add_0_r i). by rewrite (slice_index _ _ _ _ 0 Hf) by lia.
Qed.

(** Positions at which no fence begins leave the first loop's variables
    as they are. *)
Lemma fenceLoop_skip text todo1 todo2 start :
  (forall i, i ∈ todo1 ->
     0 <= i /\ i + 7 <= len text /\ slice text i (i + 3) <> Some "```") ->
  fenceLoop text (todo1 ++ todo2) start = fenceLoop text todo2 start.
Proof.
  induction todo1 as [|i todo1 IH]; intros Hquiet; [done|].
  destruct (Hquiet i) as (Hi & Hlen & Hno); [left|].
  cbn [app fenceLoop].
  destruct (slice_is_Some text i (i + 7)) as [opening Ho]; [lia..|]. rewrite Ho.
  rewrite decide_False by (intros ->; by apply Hno, opening_fence).
  destruct (slice_is_Some text i (i + 3)) as [fence Hf]; [lia..|]. rewrite Hf.
  rewrite decide_False by (intros [-> _]; by apply Hno).
  apply IH. intros; apply Hquiet; by right.
Qed.

Lemma closingLoop_skip text js1 js2 :
  (forall j, j ∈ js1 -> exists b, index text j = Some b /\ b <> "}"%char) ->
  closingLoop text (js1 ++ js2) = closingLoop text js2.
Proof.
  induction js1 as [|j js1 IH]; intros Hjs; [done|].
  destruct (Hjs j) as (b & Hb & Hne); [left|].
  cbn [app closingLoop]. rewrite Hb, decide_False by done.
  apply IH. intros; apply Hjs; by right.
Qed.

Lemma braceLoop_skip text todo1 todo2 :
  (forall i, i ∈ todo1 ->
     exists b, index text i = Some b /\
       (b = "{"%char ->
        closingLoop text (reverse (seqZ (i + 1) (len text - 1 - i))) = Some None)) ->
  braceLoop text (todo1 ++ todo2) = braceLoop text todo2.
Proof.
  induction todo1 as [|i todo1 IH]; intros Htodo; [done|].
  destruct (Htodo i) as (b & Hb & Hclose); [left|].
  cbn [app braceLoop]. rewrite Hb.
  case_decide as Hbrace; [rewrite (Hclose Hbrace)|]; apply IH; intros; apply Htodo; by right.
Qed.

Lemma index_not_elem_of text i b :
  0 <= i < len text -> b ∉ bytes text ->
  exists b', index text i = Some b' /\ b' <> b.
Proof.
  intros Hi Hb. destruct (index_is_Some text i Hi) as [b' Hb'].
  exists b'. split; [done|]. intros ->. by apply Hb, (index_elem_of text i).
Qed.

Lemma starts_with_json post :
  (forall k, 0 <= k < 4 -> index post k = index "json" k) ->
  exists rest, post = "json" +:+ rest.
Proof.
  intros H.
  pose proof (H 0 ltac:(lia)) as H0. pose proof (H 1 ltac:(lia)) as H1.
  pose proof (H 2 ltac:(lia)) as H2. pose proof (H 3 ltac:(lia)) as H3.
  destruct post as [|a [|b [|c [|d rest]]]]; try done.
  vm_compute in H0, H1, H2, H3. simplify_eq. by exists rest.
Qed.

(** A text with an opening fence, a body and a closing fence, no backtick
    before the opening fence and none in the body. *)
Section Fenced.
Variables (pre body post : string).
Hypothesis pre_plain : "`"%char ∉ bytes pre.
Hypothesis body_plain : "`"%char ∉ bytes body.

Local Abbreviation text := (pre +:+ "```json" +:+ body +:+ "```" +:+ post).
Local Abbreviation p := (len pre).
Local Abbreviation e := (len pre + 7 + len body).

Lemma len_opening : len "```json" = 7.
Proof. done. Qed.

Lemma len_closing : len "```" = 3.
Proof. done. Qed.

Lemma fenced_len : len text = e + 3 + len post.
Proof. rewrite !len_app, len_opening, len_closing. lia. Qed.

Lemma fenced_opening : slice text p (p + 7) = Some "```json".
Proof. by apply (slice_middle _ pre _ (body +:+ "```" +:+ post)). Qed.

Lemma fenced_closing : slice text e (e + 3) = Some "```".
Proof.
  apply (slice_middle _ (pre +:+ "```json" +:+ body) _ post).
  - by rewrite !append_assoc.
  - rewrite !len_app, len_opening. lia.
  - rewrite !len_app, len_opening, len_closing. lia.
Qed.

Lemma fenced_body : slice text (p + 7) e = Some body.
Proof.
  apply (slice_middle _ (pre +:+ "```json") _ ("```" +:+ post)).
  - by rewrite !append_assoc.
  - by rewrite !len_app, len_opening.
  - rewrite !len_app, len_opening. lia.
Qed.

Lemma fenced_index_post k : 0 <= k -> index text (e + 3 + k) = index post k.
Proof.
  intros Hk. pose proof (len_nonneg pre). pose proof (len_nonneg body).
  rewrite index_app_r by lia.
  rewrite index_app_r by (rewrite len_opening; lia).
  rewrite index_app_r by (rewrite len_opening; lia).
  rewrite index_app_r by (rewrite len_opening, len_closing; lia).
  f_equal. rewrite len_opening, len_closing. lia.
Qed.

Lemma fenced_quiet_pre i : 0 <= i < p -> slice text i (i + 3) <> Some "```".
Proof.
  intros Hi. apply no_backtick_no_fence. rewrite index_app_l by done.
  destruct (index_not_elem_of pre i "`"%char Hi pre_plain) as (b & -> & Hb). congruence.
Qed.

Lemma fenced_quiet_body i : p < i < e -> slice text i (i + 3) <> Some "```".
Proof.
  intros Hi. destruct (decide (i < p + 7)) as [Hin|Hin].
  - apply (opening_no_fence text p); [apply fenced_opening | lia].
  - apply no_backtick_no_fence. pose proof (len_nonneg pre).
    rewrite index_app_r by lia.
    rewrite index_app_r by (rewrite len_opening; lia).
    rewrite index_app_l by (rewrite len_opening; lia).
    destruct (index_not_elem_of body (i - len pre - len "```json") "`"%char)
      as (b & -> & Hb); [rewrite len_opening; lia | done | congruence].
Qed.

(** The loop up to a position within the body, or at its end: the opening
    fence is found, and nothing else. *)
Lemma fenced_loop n todo :
  p < n <= e -> n <= len text - 6 ->
  fenceLoop text (seqZ 0 n ++ todo) (-1) = fenceLoop text todo (p + 7).
Proof.
  intros Hn Hlen. pose proof (len_nonneg pre) as Hp.
  replace n with (p + (1 + (n - p - 1))) by lia.
  rewrite seqZ_app by lia. rewrite seqZ_app by lia.
  rewrite <- !(assoc_L (++)).
  rewrite fenceLoop_skip.
  2:{ intros i Hi%elem_of_seqZ. split; [lia|]. split; [lia|]. apply fenced_quiet_pre. lia. }
  change (seqZ (0 + p) 1) with [0 + p]. cbn [app fenceLoop].
  rewrite Z.add_0_l, fenced_opening, decide_True by done.
  apply fenceLoop_skip.
  intros i Hi%elem_of_seqZ. split; [lia|]. split; [lia|]. apply fenced_quiet_body. lia.
Qed.

End Fenced.

Lemma append_nil_r s : s +:+ "" = s.
Proof. apply bytes_inj. by rewrite bytes_app, app_nil_r. Qed.

(** The closing fence too far at the end to be looked at: the first loop
    ends with the opening fence only. *)
Lemma fenced_unclosed pre body post :
  "`"%char ∉ bytes pre -> "`"%char ∉ bytes body -> len post <= 3 ->
  fenceLoop (pre +:+ "```json" +:+ body +:+ "```" +:+ post)
    (seqZ 0 (len (pre +:+ "```json" +:+ body +:+ "```" +:+ post) - 6)) (-1)
  = Some (len pre + 7, -1).
Proof.
  intros Hpre Hbody Hpost.
  pose proof (len_nonneg pre). pose proof (len_nonneg body). pose proof (len_nonneg post).
  rewrite <- (app_nil_r (seqZ _ _)).
  rewrite (fenced_loop pre body post Hpre Hbody); [done|..].
  - rewrite fenced_len. lia.
  - lia.
Qed.

Lemma plain_unfenced text :
  "`"%char ∉ bytes text ->
  fenceLoop text (seqZ 0 (len text - 6)) (-1) = Some (-1, -1).
Proof.
  intros Hplain. rewrite <- (app_nil_r (seqZ _ _)).
  rewrite fenceLoop_skip; [done|].
  intros i Hi%elem_of_seqZ. split; [lia|]. split; [lia|].
  apply no_backtick_no_fence.
  destruct (index_not_elem_of text i "`"%char) as (b & -> & Hb); [lia | done | congruence].
Qed.

(** The second loop on a text whose first opening brace has a closing
    brace after it. *)
Lemma braces_found pre mid post :
  "{"%char ∉ bytes pre -> "}"%char ∉ bytes post ->
  braceLoop (pre +:+ "{" +:+ mid +:+ "}" +:+ post)
    (seqZ 0 (len (pre +:+ "{" +:+ mid +:+ "}" +:+ post)))
  = Some (Some ("{" +:+ mid +:+ "}")).
Proof.
  intros Hpre Hpost.
  pose proof (len_nonneg pre). pose proof (len_nonneg mid). pose proof (len_nonneg post).
  assert (len (pre +:+ "{" +:+ mid +:+ "}" +:+ post) = len pre + 1 + len mid + 1 + len post)
    as Hlen.
  { rewrite !len_app. change (len "{") with 1. change (len "}") with 1. lia. }
  rewrite Hlen.
  replace (len pre + 1 + len mid + 1 + len post)
    with (len pre + (1 + (len mid + 1 + len post))) at 1 by lia.
  rewrite seqZ_app by lia. rewrite (seqZ_cons (0 + len pre)) by lia.
  rewrite braceLoop_skip.
  2:{ intros i Hi%elem_of_seqZ. rewrite index_app_l by lia.
      destruct (index_not_elem_of pre i "{"%char) as (b & -> & Hb); [lia | done |].
      exists b. by split. }
  cbn [braceLoop].
  rewrite (index_middle _ pre "{"%char (mid +:+ "}" +:+ post)) by (done || lia).
  rewrite decide_True by done. rewrite Hlen.
  replace (len pre + 1 + len mid + 1 + len post - 1 - (0 + len pre))
    with (len mid + (1 + len post)) by lia.
  rewrite seqZ_app by lia. rewrite (seqZ_cons _ (1 + len post)) by lia.
  rewrite reverse_app, reverse_cons, <- (assoc_L (++)).
  rewrite closingLoop_skip.
  2:{ intros j Hj%elem_of_reverse%elem_of_seqZ.
      rewrite index_app_r by lia.
      rewrite (index_app_r "{") by (change (len "{") with 1; lia).
      rewrite index_app_r by (change (len "{") with 1; lia).
      rewrite (index_app_r "}") by (change (len "{") with 1; change (len "}") with 1; lia).
      destruct (index_not_elem_of post
                  (j - len pre - len "{" - len mid - len "}") "}"%char)
        as (b & -> & Hb); [|done|by exists b].
      change (len "{") with 1; change (len "}") with 1. lia. }
  cbn [app closingLoop].
  rewrite (index_middle _ (pre +:+ "{" +:+ mid) "}"%char post).
  2:{ by rewrite !append_assoc. }
  2:{ rewrite !len_app. change (len "{") with 1. lia. }
  rewrite decide_True by done.
  rewrite (slice_middle _ pre ("{" +:+ mid +:+ "}") post); [done|..].
  - by rewrite !append_assoc.
  - lia.
  - rewrite !len_app. change (len "{") with 1. change (len "}") with 1. lia.
Qed.

(** The second loop on a text in which no closing brace follows an
    opening brace. *)
Lemma braces_none pre post :
  "{"%char ∉ bytes pre -> "}"%char ∉ bytes post ->
  braceLoop (pre +:+ post) (seqZ 0 (len (pre +:+ post))) = Some None.
Proof.
  intros Hpre Hpost.
  pose proof (len_nonneg pre). pose proof (len_nonneg post).
  rewrite <- (app_nil_r (seqZ _ _)).
  rewrite braceLoop_skip; [done|].
  intros i Hi%elem_of_seqZ.
  destruct (index_is_Some (pre +:+ post) i) as [b Hb]; [lia|].
  exists b. split; [done|]. intros ->.
  assert (len pre <= i) as Hi'.
  { destruct (decide (len pre <= i)) as [|Hlt]; [done|].
    rewrite index_app_l in Hb by lia. by apply index_elem_of in Hb. }
  rewrite <- (app_nil_r (reverse _)).
  rewrite closingLoop_skip; [done|].
  intros j Hj%elem_of_reverse%elem_of_seqZ.
  rewrite index_app_r by lia. rewrite len_app in Hj.
  destruct (index_not_elem_of post (j - len pre) "}"%char) as (b & -> & Hne);
    [lia | done | by exists b].
Qed.

Lemma extractJSON_fallback text start :
  fenceLoop text (seqZ 0 (len text - 6)) (-1) = Some (start, -1) ->
  extractJSON text
  = match braceLoop text (seqZ 0 (len text)) with
    | None => None
    | Some (Some block) => Some block
    | Some None => Some text
    end.
Proof. intros H. unfold extractJSON. rewrite H. by rewrite decide_False by tauto. Qed.

(** X14: a fenced block is extracted.  When the text has an opening
    fence, a body and a closing fence, with no backtick before the opening
    fence and none in the body, and at least four bytes follow the closing
    fence, and they are not [json], [extractJSON] returns the body. *)
Theorem extractJSON_fenced pre body post :
  "`"%char ∉ bytes pre ->
  "`"%char ∉ bytes body ->
  4 <= len post ->
  (forall rest, post <> "json" +:+ rest) ->
  extractJSON (pre +:+ "```json" +:+ body +:+ "```" +:+ post) = Some body.
Proof.
  intros Hpre Hbody Hpost Hjson.
  pose proof (len_nonneg pre). pose proof (len_nonneg body).
  unfold extractJSON. rewrite fenced_len.
  replace (len pre + 7 + len body + 3 + len post - 6)
    with ((len pre + 7 + len body) + (len post - 3)) by lia.
  rewrite seqZ_app by lia. rewrite (seqZ_cons _ (len post - 3)) by lia.
  rewrite (fenced_loop pre body post Hpre Hbody); [|lia|rewrite fenced_len; lia].
  cbn [fenceLoop]. rewrite Z.add_0_l.
  destruct (slice_is_Some (pre +:+ "```json" +:+ body +:+ "```" +:+ post)
              (len pre + 7 + len body) (len pre + 7 + len body + 7))
    as [opening Ho]; [lia | lia | rewrite fenced_len; lia |].
  rewrite Ho. rewrite decide_False.
  2:{ intros ->. destruct (starts_with_json post) as [rest Hrest]; [|by eapply Hjson].
      intros k Hk. rewrite <- (fenced_index_post pre body post) by lia.
      replace (len pre + 7 + len body + 3 + k) with (len pre + 7 + len body + (3 + k)) by lia.
      rewrite (slice_index _ _ _ _ (3 + k) Ho) by lia.
      assert (k = 0 \/ k = 1 \/ k = 2 \/ k = 3) as [-> | [-> | [-> | ->]]] by lia; done. }
  rewrite fenced_closing, decide_True by (split; [done | lia]).
  rewrite decide_True by lia. apply fenced_body.
Qed.

(** X15: a closing fence within the last six bytes of the text is not
    looked at.  When three bytes or fewer follow the closing fence (the
    answer ends with it), the fenced block is not extracted: the result is
    that of the search for braces over the whole text, which is the text
    from the first opening brace to the last closing brace when the body
    holds them, and the whole text, fences included, when there is no
    opening brace. *)
Theorem extractJSON_fence_at_end pre body post :
  "`"%char ∉ bytes pre ->
  "`"%char ∉ bytes body ->
  len post <= 3 ->
  (forall b1 mid b2,
     body = b1 +:+ "{" +:+ mid +:+ "}" +:+ b2 ->
     "{"%char ∉ bytes pre -> "{"%char ∉ bytes b1 ->
     "}"%char ∉ bytes b2 -> "}"%char ∉ bytes post ->
     extractJSON (pre +:+ "```json" +:+ body +:+ "```" +:+ post)
     = Some ("{" +:+ mid +:+ "}")) /\
  ("{"%char ∉ bytes pre -> "{"%char ∉ bytes body -> "{"%char ∉ bytes post ->
   extractJSON (pre +:+ "```json" +:+ body +:+ "```" +:+ post)
   = Some (pre +:+ "```json" +:+ body +:+ "```" +:+ post)).
Proof.
  intros Hpre Hbody Hpost.
  pose proof (extractJSON_fallback _ _ (fenced_unclosed pre body post Hpre Hbody Hpost))
    as Hfall.
  split.
  - intros b1 mid b2 -> Hpre' Hb1 Hb2 Hpost'. rewrite Hfall.
    replace (pre +:+ "```json" +:+ (b1 +:+ "{" +:+ mid +:+ "}" +:+ b2) +:+ "```" +:+ post)
      with ((pre +:+ "```json" +:+ b1) +:+ "{" +:+ mid +:+ "}" +:+ (b2 +:+ "```" +:+ post))
      by (by rewrite !append_assoc).
    rewrite braces_found; [done|..].
    + rewrite !bytes_app, !elem_of_app. intros [?|[Hin|?]]; [done| |done].
      unfold bytes in Hin. simpl in Hin.
      repeat (apply elem_of_cons in Hin as [Hin|Hin]; [done|]).
      by apply elem_of_nil in Hin.
    + rewrite !bytes_app, !elem_of_app. intros [?|[Hin|?]]; [done| |done].
      unfold bytes in Hin. simpl in Hin.
      repeat (apply elem_of_cons in Hin as [Hin|Hin]; [done|]).
      by apply elem_of_nil in Hin.
  - intros Hpre' Hbody' Hpost'. rewrite Hfall.
    rewrite <- (append_nil_r (pre +:+ "```json" +:+ body +:+ "```" +:+ post)) at 1 2.
    rewrite braces_none; [done| |by apply not_elem_of_nil].
    rewrite !bytes_app, !elem_of_app. intros [?|[Hin|[?|[Hin|?]]]]; try done.
    all: unfold bytes in Hin; simpl in Hin.
    all: repeat (apply elem_of_cons in Hin as [Hin|Hin]; [done|]).
    all: by apply elem_of_nil in Hin.
Qed.

(** X16: a text without a backtick.  [extractJSON] returns the text from
    the first opening brace to the last closing brace, when the latter
    comes after the former, and the whole text when no closing brace comes
    after an opening brace. *)
Theorem extractJSON_without_fences text :
  "`"%char ∉ bytes text ->
  (forall pre mid post,
     text = pre +:+ "{" +:+ mid +:+ "}" +:+ post ->
     "{"%char ∉ bytes pre -> "}"%char ∉ bytes post ->
     extractJSON text = Some ("{" +:+ mid +:+ "}")) /\
  (forall pre post,
     text = pre +:+ post ->
     "{"%char ∉ bytes pre -> "}"%char ∉ bytes post ->
     extractJSON text = Some text).
Proof.
  intros Hplain.
  pose proof (extractJSON_fallback _ _ (plain_unfenced text Hplain)) as Hfall.
  split.
  - intros pre mid post -> Hpre Hpost. rewrite Hfall. by rewrite braces_found.
  - intros pre post -> Hpre Hpost. rewrite Hfall. by rewrite braces_none.
Qed.

End ExtractJSON.

(** *** Answers of the scorer *)
Section ExtractJSONExamples.
Import ai.

Lemma extractJSON_fenced_witness :
  extractJSON ("Here it is: " +:+ "```json" +:+ " {7} " +:+ "```" +:+ " Done.")
  = Some " {7} ".
Proof.
  apply (extractJSON_fenced "Here it is: " " {7} " " Done.");
    [compute_done | compute_done | compute_done | intros rest; discriminate].
Defined.

(** The answer ends with the closing fence: the braces are found, the
    blanks around them are not part of the result; and with a list in
    place of the object, the fences stay. *)
Lemma extractJSON_fence_at_end_witness :
  extractJSON ("" +:+ "```json" +:+ (" " +:+ "{" +:+ "7" +:+ "}" +:+ " ") +:+ "```" +:+ "")
  = Some ("{" +:+ "7" +:+ "}") /\
  extractJSON ("" +:+ "```json" +:+ "[7]" +:+ "```" +:+ "") = Some "```json[7]```".
Proof.
  split.
  - destruct (extractJSON_fence_at_end "" " {7} " ""
                ltac:(compute_done) ltac:(compute_done) ltac:(compute_done))
      as [Hbraces _].
    apply (Hbraces " " "7" " " eq_refl); compute_done.
  - destruct (extractJSON_fence_at_end "" "[7]" ""
                ltac:(compute_done) ltac:(compute_done) ltac:(compute_done))
      as [_ Hwhole].
    apply Hwhole; compute_done.
Defined.

Lemma extractJSON_without_fences_witness :
  extractJSON "The analysis: {7} (end)" = Some "{7}" /\
  extractJSON "} no analysis {" = Some "} no analysis {".
Proof.
  split.
  - destruct (extractJSON_without_fences "The analysis: {7} (end)" ltac:(compute_done))
      as [Hbraces _].
    apply (Hbraces "The analysis: " "7" " (end)" eq_refl); compute_done.
  - destruct (extractJSON_without_fences "} no analysis {" ltac:(compute_done))
      as [_ Hwhole].
    apply (Hwhole "} no analysis " "{" eq_refl); compute_done.
Defined.

End ExtractJSONExamples.


(** ** More of [main]: from the start to the signal *)
Section MainRun.
Import crawler.
Context {World : Type}.

Implicit Types (c : Crawler World) (s : State World) (p : main.Process World).
Implicit Types (d : os.Disk) (st : storage.SeenTweets).

(** A second [Save] of the same store that returns nil, after a first
    that returned nil, writes what the first wrote. *)
Lemma Save_again st d d1 d2 :
  storage.Save st d = (None, d1) -> storage.Save st d1 = (None, d2) -> d2 = d1.
Proof.
  unfold storage.Save.
  destruct (MarshalIndent_total (storage.tweets st)) as [data ->].
  unfold os.WriteFile.
  destruct (d !! storage.filePath st) as [[mode data0|]|] eqn:Hfile.
  - destruct (os.writable mode) eqn:Hw; [|done]. intros [= <-].
    rewrite lookup_insert_eq, Hw. intros [= <-]. by rewrite insert_insert_eq.
  - done.
  - intros [= <-]. rewrite lookup_insert_eq. cbn.
    intros [= <-]. by rewrite insert_insert_eq.
Qed.

(** The store that [NewSeenTweets] returns has the nil map exactly when
    the file holds [null]. *)
Lemma NewSeenTweets_nil path d st :
  storage.NewSeenTweets path d = inr st ->
  storage.filePath st = path /\
  (storage.tweets st = None <->
   exists mode,
     d !! path = Some (os.File mode (json.JSONText json.JNull)) /\
     os.readable mode = true).
Proof.
  unfold storage.NewSeenTweets, storage.Load, os.Stat, os.ReadFile.
  cbn [storage.filePath storage.tweets].
  destruct (d !! path) as [[mode data|]|] eqn:Hfile.
  - destruct (os.readable mode) eqn:Hr; [|done].
    destruct data as [[| | | | |members]|raw]; cbn [json.Unmarshal]; try done.
    + intros [= <-]. split; [done|]. split; [eauto|done].
    + destruct (foldl _ _ _) as [m [err|]]; [done|]. intros [= <-].
      split; [done|]. split; [done|]. by intros (? & [= <- ?] & _).
  - done.
  - intros [= <-]. split; [done|]. split; [done|]. by intros (? & ? & _).
Qed.

Lemma shutdown_ledger c s :
  allocated s ->
  exists s' new,
    main.shutdown s = Ok tt s' /\ allocated s' /\ ledger c s s' new /\
    seenTweets s' = seenTweets s /\ world s' = world s /\
    disk s' = (storage.Save (seenTweets s) (disk s)).2.
Proof.
  intros Halloc. unfold main.shutdown, bind, seenSave, logPrintf, ret.
  pose proof (ledger_record c s (world s)
                (storage.Save (seenTweets s) (disk s)).2
                (EvSave (storage.filePath (seenTweets s))
                   (storage.Save (seenTweets s) (disk s)).1)
                (fun _ => eq_refl) (fun _ => eq_refl) eq_refl eq_refl eq_refl) as Hsave.
  destruct (storage.Save (seenTweets s) (disk s)).1 as [err|].
  - do 2 eexists. split; [reflexivity|]. split; [exact Halloc|].
    split; [apply ledger_log; [done|]; exact Hsave|]. done.
  - do 2 eexists. split; [reflexivity|]. split; [exact Halloc|].
    split; [exact Hsave|]. done.
Qed.

Lemma startup_shape p d c st interval :
  main.startup p d = main.Started c st interval ->
  storage.NewSeenTweets (main.seenTweetsPath p) d = inr st /\
  (config.Enabled (config.AI (config c)) = false \/
   main.Getenv p "ANTHROPIC_API_KEY" = "" -> aiFilter c = None).
Proof.
  unfold main.startup.
  destruct (main.config_Load p (main.configPath p)) as [err|cfg]; [done|].
  case_decide as Htoken; [done|].
  match goal with
  | |- context [decide ((if ?x then ?a else ?b) = "")] =>
      destruct (decide ((if x then a else b) = "")) as [?|Hhook]; [done|]
  end.
  destruct (storage.NewSeenTweets _ d) as [err|st'] eqn:Hnew; [done|].
  destruct (main.ParseDuration p _) as [err|interval'] eqn:Hparse; [done|].
  intros [= <- <- <-]. cbn [config aiFilter]. split; [done|].
  destruct (config.Enabled (config.AI cfg)); [|done].
  destruct (decide (main.Getenv p "ANTHROPIC_API_KEY" = "")); [done|]. by intros [|].
Qed.

(** X17: what holds when [main] gets as far as its first crawl.  The
    configuration was loaded and is the crawler's, the API token is not
    empty, a webhook URL is given by the configuration or by the
    environment, the store is what [NewSeenTweets] returned for the path,
    the interval parsed, the crawler has no filter exactly when the filter
    is disabled or the scorer's key is empty, and the store's map is nil
    exactly when the seen file is readable and holds [null]. *)
Theorem startup_checks p d c st interval :
  main.startup p d = main.Started c st interval ->
  main.config_Load p (main.configPath p) = inr (config c) /\
  main.Getenv p "X_API_BEARER_TOKEN" <> "" /\
  (config.WebhookURL (config.Slack (config c)) <> "" \/
   main.Getenv p "SLACK_WEBHOOK_URL" <> "") /\
  storage.NewSeenTweets (main.seenTweetsPath p) d = inr st /\
  main.ParseDuration p (config.Interval (config c)) = inr interval /\
  (aiFilter c = None <->
   config.Enabled (config.AI (config c)) = false \/
   main.Getenv p "ANTHROPIC_API_KEY" = "") /\
  (storage.tweets st = None <->
   exists mode,
     d !! main.seenTweetsPath p = Some (os.File mode (json.JSONText json.JNull)) /\
     os.readable mode = true).
Proof.
  unfold main.startup.
  destruct (main.config_Load p (main.configPath p)) as [err|cfg]; [done|].
  case_decide as Htoken; [done|].
  match goal with
  | |- context [decide ((if ?x then ?a else ?b) = "")] =>
      destruct (decide ((if x then a else b) = "")) as [?|Hhook]; [done|]
  end.
  destruct (storage.NewSeenTweets _ d) as [err|st'] eqn:Hnew; [done|].
  destruct (main.ParseDuration p _) as [err|interval'] eqn:Hparse; [done|].
  intros [= <- <- <-]. cbn [config aiFilter].
  split; [done|]. split; [done|].
  split; [revert Hhook; case_decide; tauto|].
  split; [done|]. split; [done|].
  split; [|by apply NewSeenTweets_nil].
  destruct (config.Enabled (config.AI cfg)); [|tauto].
  destruct (decide (main.Getenv p "ANTHROPIC_API_KEY" = "")); [tauto|].
  split; [done|]. by intros [|].
Qed.

(** X18: when [main] gets as far as its first crawl and the seen file
    does not hold [null], the first crawl returns.  If the interval is
    positive, [time.NewTicker] returns, and so do any number of scheduled
    crawls and the shutdown: over the whole run no identifier has two
    deliveries that returned nil, an identifier that the seen file marked
    as seen has none, and when the filter is disabled or the scorer's key
    is empty the scorer and the rich notification are never called.  If
    the interval is zero or negative, [main] panics in [time.NewTicker],
    after the first crawl and before any scheduled one or the shutdown. *)
Theorem main_returns_or_panics_at_NewTicker p d c st interval :
  main.startup p d = main.Started c st interval ->
  (forall mode,
     d !! main.seenTweetsPath p <> Some (os.File mode (json.JSONText json.JNull))) ->
  forall w ticks,
    (0 < interval ->
     exists s',
       main.run p w d ticks = inr (Ok tt s') /\
       allocated s' /\
       (forall id,
          (successes id (trace s') <= 1)%nat /\
          (storage.Has st id = true -> successes id (trace s') = 0%nat)) /\
       (config.Enabled (config.AI (config c)) = false \/
        main.Getenv p "ANTHROPIC_API_KEY" = "" ->
        Forall (fun ev => is_scoring ev = false) (trace s'))) /\
    (interval <= 0 ->
     exists s1,
       main.crawl c {| world := w; seenTweets := st; disk := d; trace := [] |}
       = Ok tt s1 /\
       main.run p w d ticks = inr (Panic "non-positive interval for NewTicker" s1)).
Proof.
  intros Hstart Hfile w ticks.
  destruct (startup_shape p d c st interval Hstart) as (Hnew & Hfilter).
  unfold main.run. rewrite Hstart.
  assert (allocated {| world := w; seenTweets := st; disk := d; trace := [] |}) as Halloc.
  { unfold allocated. cbn [seenTweets].
    destruct (storage.tweets st) eqn:Htweets; [eauto|].
    apply (NewSeenTweets_nil _ _ _ Hnew) in Htweets as (mode & Hmode & _).
    by destruct (Hfile mode). }
  destruct (crawl_ledger c _ Halloc) as (s0 & new0 & Hrun0 & Halloc0 & Hl0).
  split.
  - intros Hpos. unfold bind at 1. rewrite Hrun0, decide_False by lia.
    destruct (cycles_ledger c ticks s0 Halloc0) as (s1 & new1 & Hrun1 & Halloc1 & Hl1).
    destruct (shutdown_ledger c s1 Halloc1) as (s2 & new2 & Hrun2 & Halloc2 & Hl2 & _).
    destruct (ledger_trans _ _ _ _ _ _ (ledger_trans _ _ _ _ _ _ Hl0 Hl1) Hl2)
      as (Htrace & Hkeep & Hone & _ & _ & _ & Hplain & _).
    cbn [trace seenTweets app] in Htrace, Hkeep.
    exists s2. unfold bind. rewrite Hrun1.
    split; [by rewrite Hrun2|]. split; [done|]. rewrite Htrace. split.
    + intros id. split; [apply Hone|]. intros Hseen.
      apply not_about_successes. by apply Hkeep.
    + intros Hoff. apply Hplain. by apply Hfilter.
  - intros Hneg. unfold bind. rewrite Hrun0, decide_True by lia. by exists s0.
Qed.

(** X19: for a store whose map is allocated, the shutdown after a crawl
    calls no collaborator and leaves the store as the crawl left it.  It
    records one [Save] of that store, then log lines only, and changes no
    path of the disk but the store's.  When the [Save] of the crawl and
    the [Save] of the shutdown both returned nil, the second wrote what
    the first had written: the disk is as the crawl left it. *)
Theorem shutdown_saves_the_same_store c s :
  allocated s ->
  exists s1 s2 logs,
    Run c s = Ok None s1 /\
    main.shutdown s1 = Ok tt s2 /\
    seenTweets s2 = seenTweets s1 /\
    world s2 = world s1 /\
    events_since s1 s2
    = EvSave (storage.filePath (seenTweets s1))
        (storage.Save (seenTweets s1) (disk s1)).1 :: logs /\
    Forall (fun ev => is_log ev = true) logs /\
    (forall path,
       path <> storage.filePath (seenTweets s1) -> disk s2 !! path = disk s1 !! path) /\
    ((storage.Save (seenTweets s1) (disk s)).1 = None ->
     (storage.Save (seenTweets s1) (disk s1)).1 = None ->
     disk s2 = disk s1).
Proof.
  intros Halloc.
  destruct (Run_ledger c s Halloc) as (s1 & new & pr & nt & Hrun & _ & _ & Hdisk & _).
  exists s1. unfold main.shutdown, bind, seenSave, logPrintf, ret, record.
  destruct (storage.Save (seenTweets s1) (disk s)) as [e1 d1] eqn:Hsave1.
  destruct (storage.Save (seenTweets s1) (disk s1)) as [e2 d2] eqn:Hsave2.
  cbn [fst snd] in *.
  assert (forall path,
            path <> storage.filePath (seenTweets s1) -> d2 !! path = disk s1 !! path)
    as Hframe.
  { intros path Hne. by eapply Save_other_paths. }
  assert (e1 = None -> e2 = None -> d2 = disk s1) as Hsame.
  { intros -> ->. rewrite Hdisk in Hsave2 |- *. by eapply Save_again. }
  destruct e2 as [err|]; cbn [trace seenTweets disk world].
  - eexists _, [EvLog (SaveFailed err)]. split; [done|]. split; [reflexivity|].
    cbn [trace seenTweets disk world]. split; [done|]. split; [done|].
    split; [|split; [by repeat constructor|done]].
    apply events_since_app. cbn [trace]. by rewrite <- (assoc_L (++)).
  - eexists _, []. split; [done|]. split; [reflexivity|].
    cbn [trace seenTweets disk world]. split; [done|]. split; [done|].
    split; [|split; [constructor|done]]. by apply events_since_app.
Qed.

End MainRun.

(** *** The small world from start to signal *)
Section MainRunExamples.
Import crawler.

Lemma startup_checks_witness :
  main.config_Load example.process "config.yaml" = inr example.cfg /\
  main.Getenv example.process "X_API_BEARER_TOKEN" <> "" /\
  (config.WebhookURL (config.Slack example.cfg) <> "" \/
   main.Getenv example.process "SLACK_WEBHOOK_URL" <> "") /\
  storage.NewSeenTweets "seen_tweets.json" ∅ = inr example.fresh /\
  main.ParseDuration example.process "5m" = inr 300 /\
  (aiFilter example.c = None <->
   config.Enabled (config.AI example.cfg) = false \/
   main.Getenv example.process "ANTHROPIC_API_KEY" = "") /\
  (storage.tweets example.fresh = None <->
   exists mode,
     (∅ : os.Disk) !! "seen_tweets.json"
     = Some (os.File mode (json.JSONText json.JNull)) /\
     os.readable mode = true).
Proof.
  apply (startup_checks example.process ∅ example.c example.fresh 300).
  reflexivity.
Defined.

(** The seen file marks tweet 1 as seen; the signal comes after the first
    crawl and one scheduled crawl.  With the interval [0s], the process
    panics after the first crawl. *)
Lemma main_returns_or_panics_at_NewTicker_witness :
  let d : os.Disk :=
    {[ "seen_tweets.json" :=
         os.File os.mode0644 (json.JSONText (json.JObject [("1", json.JBool true)])) ]} in
  let st := {| storage.tweets := Some {[ "1" := true ]};
               storage.filePath := "seen_tweets.json" |} in
  (exists s',
     main.run example.process tt d 1 = inr (Ok tt s') /\
     allocated s' /\
     (forall id,
        (successes id (trace s') <= 1)%nat /\
        (storage.Has st id = true -> successes id (trace s') = 0%nat)) /\
     (config.Enabled (config.AI example.cfg) = false \/
      main.Getenv example.process "ANTHROPIC_API_KEY" = "" ->
      Forall (fun ev => is_scoring ev = false) (trace s'))) /\
  (exists s1,
     main.crawl example.c_0s example.s0 = Ok tt s1 /\
     main.run example.process_0s tt ∅ 1
     = inr (Panic "non-positive interval for NewTicker" s1)).
Proof.
  cbv zeta. split.
  - destruct (main_returns_or_panics_at_NewTicker example.process
                {[ "seen_tweets.json" :=
                     os.File os.mode0644
                       (json.JSONText (json.JObject [("1", json.JBool true)])) ]}
                example.c
                {| storage.tweets := Some {[ "1" := true ]};
                   storage.filePath := "seen_tweets.json" |} 300) with (w := tt) (ticks := 1%nat)
      as [Hpos _].
    + vm_compute. reflexivity.
    + intros mode H. vm_compute in H. discriminate H.
    + apply Hpos. reflexivity.
  - destruct (main_returns_or_panics_at_NewTicker example.process_0s ∅ example.c_0s
                example.fresh 0) with (w := tt) (ticks := 1%nat)
      as [_ Hzero].
    + vm_compute. reflexivity.
    + intros mode H. vm_compute in H. discriminate H.
    + apply Hzero. lia.
Defined.

Lemma shutdown_saves_the_same_store_witness :
  exists s1 s2 logs,
    Run example.c example.s0 = Ok None s1 /\
    main.shutdown s1 = Ok tt s2 /\
    seenTweets s2 = seenTweets s1 /\
    world s2 = world s1 /\
    events_since s1 s2
    = EvSave (storage.filePath (seenTweets s1))
        (storage.Save (seenTweets s1) (disk s1)).1 :: logs /\
    Forall (fun ev => is_log ev = true) logs /\
    (forall path,
       path <> storage.filePath (seenTweets s1) -> disk s2 !! path = disk s1 !! path) /\
    ((storage.Save (seenTweets s1) (disk example.s0)).1 = None ->
     (storage.Save (seenTweets s1) (disk s1)).1 = None ->
     disk s2 = disk s1).
Proof.
  apply (shutdown_saves_the_same_store example.c example.s0 fresh_allocated).
Defined.

End MainRunExamples.

(** ** The client of the X API *)
Section TwitterClient.
Import twitter twitter.client.
Context {World : Type} (api : API World).

Implicit Types (w : World) (tweet : Tweet) (tweets data : list Tweet).
Implicit Types (username bearerToken : string) (users : list User).

Lemma Username_withUsername username tweet :
  Username (withUsername username tweet) = username.
Proof. done. Qed.

Lemma withUsername_twice username1 username2 tweet :
  withUsername username1 (withUsername username2 tweet) = withUsername username1 tweet.
Proof. done. Qed.

(** What the map holds for an identifier: the name of the last user
    included with it. *)
Lemma userMap_lookup users (m : gmap string string) id :
  foldl (fun m user => <[UserID user := UserUsername user]> m) m users !! id
  = match last (filter (fun user => UserID user = id) users) with
    | Some user => Some (UserUsername user)
    | None => m !! id
    end.
Proof.
  revert m. induction users as [|user users IH]; intros m; [done|].
  cbn [foldl]. rewrite IH, filter_cons. case_decide as Hid.
  - destruct (filter _ users) as [|user' rest] eqn:Hrest.
    + cbn. by rewrite <- Hid, lookup_insert_eq.
    + rewrite last_cons_cons. destruct (last (user' :: rest)) eqn:Hlast; [done|].
      by apply last_None in Hlast.
  - destruct (last (filter _ users)); [done|]. by rewrite lookup_insert_ne.
Qed.

Lemma substring_all s : String.substring 0 (String.length s) s = s.
Proof. induction s as [|b s IH]; [done|]. cbn. by rewrite IH. Qed.

Lemma TrimPrefix_at name : TrimPrefix ("@" +:+ name) "@" = name.
Proof.
  unfold TrimPrefix. change ("@" +:+ name) with (String "@"%char name).
  cbn. destruct name as [|b name]; [done|].
  cbn [String.prefix]. rewrite Nat.sub_0_r. apply substring_all.
Qed.

Lemma TrimPrefix_no_at name : String.prefix "@" name = false -> TrimPrefix name "@" = name.
Proof. unfold TrimPrefix. by intros ->. Qed.

Lemma GetUserTweets_Username bearerToken username maxResults w tweets w' :
  GetUserTweets api bearerToken username maxResults w = (inr tweets, w') ->
  Forall (fun tweet => Username tweet = username) tweets.
Proof.
  unfold GetUserTweets.
  destruct (getUserIDByUsername api bearerToken username w) as [[err|userID] w1]; [done|].
  destruct (makeRequest _ _ _ _ w1) as [[err|data] w2]; [done|].
  intros [= <- <-]. apply Forall_fmap, Forall_true. done.
Qed.

(** X20: the tweets that [GetUserTweets] returns are the tweets that
    [makeRequest] decoded, one for one and in their order, each with its
    identifier, text, author and time as decoded, and with the user name
    the client was called with, as it was given (a leading [@] included),
    whatever name the API answered.  The request for them was made in the
    world that the lookup of the user left. *)
Theorem GetUserTweets_stamps_username bearerToken username maxResults w tweets w' :
  GetUserTweets api bearerToken username maxResults w = (inr tweets, w') ->
  Forall (fun tweet => Username tweet = username) tweets /\
  exists userID w1 data,
    getUserIDByUsername api bearerToken username w = (inr userID, w1) /\
    makeRequest api bearerToken
      ("https://api.twitter.com/2/users/" +:+ userID +:+ "/tweets")
      [("max_results", pretty maxResults);
       ("tweet.fields", "created_at,author_id");
       ("exclude", "retweets,replies")] w1 = (inr data, w') /\
    length tweets = length data /\
    forall (i : nat) decoded,
      data !! i = Some decoded ->
      exists tweet,
        tweets !! i = Some tweet /\
        ID tweet = ID decoded /\ Text tweet = Text decoded /\
        AuthorID tweet = AuthorID decoded /\ CreatedAt tweet = CreatedAt decoded /\
        Username tweet = username.
Proof.
  intros Hget. split; [by eapply GetUserTweets_Username|]. revert Hget.
  unfold GetUserTweets.
  destruct (getUserIDByUsername api bearerToken username w) as [[err|userID] w1]; [done|].
  destruct (makeRequest _ _ _ _ w1) as [[err|data] w2] eqn:Hreq; [done|].
  intros [= <- <-].
  exists userID, w1, data. split; [done|]. split; [done|].
  split; [by rewrite length_fmap|].
  intros i decoded Hi. exists (withUsername username decoded).
  by rewrite list_lookup_fmap, Hi.
Qed.

(** X21: when the lookup of the user fails (the exchange returns an error,
    the status is not 200, or the body does not decode), [GetUserTweets]
    returns that error behind the words that name the user, and asks for
    nothing more: the world is as the lookup request left it.  The lookup
    is made for the name without its leading [@]; the error names the user
    as given, after an [@] of its own. *)
Theorem GetUserTweets_lookup_failure bearerToken username maxResults w :
  let lookup :=
    get api bearerToken
      ("https://api.twitter.com/2/users/by/username/" +:+ TrimPrefix username "@") w in
  match lookup.1 with
  | inl _ => True
  | inr resp =>
      http.StatusCode resp <> 200 \/
      exists err, decodeUser api (http.Body resp) = inl err
  end ->
  exists cause,
    GetUserTweets api bearerToken username maxResults w
    = (inl ("failed to get user ID for @" +:+ username +:+ ": " +:+ cause), lookup.2).
Proof.
  intros lookup. subst lookup. unfold GetUserTweets, getUserIDByUsername.
  destruct (get api bearerToken _ w) as [[err|resp] w1]; cbn [fst snd].
  - eauto.
  - intros [Hstatus|[err Herr]].
    + rewrite decide_True by done. eauto.
    + case_decide; [eauto|]. rewrite Herr. eauto.
Qed.

(** X22: for a name that does not itself begin with [@], a leading [@]
    in the user name changes what is stamped on the tweets and nothing
    else.  Called with [@name] and with [name], the client makes the same
    requests and leaves the same world; it returns tweets in both cases or
    an error in both cases, and the tweets differ in the user name they
    carry only. *)
Theorem GetUserTweets_at_sign bearerToken name maxResults w :
  String.prefix "@" name = false ->
  (GetUserTweets api bearerToken ("@" +:+ name) maxResults w).2
  = (GetUserTweets api bearerToken name maxResults w).2 /\
  match (GetUserTweets api bearerToken ("@" +:+ name) maxResults w).1,
        (GetUserTweets api bearerToken name maxResults w).1 with
  | inr tweets1, inr tweets2 => tweets1 = withUsername ("@" +:+ name) <$> tweets2
  | inl _, inl _ => True
  | _, _ => False
  end.
Proof.
  intros Hname. unfold GetUserTweets, getUserIDByUsername.
  rewrite TrimPrefix_at, (TrimPrefix_no_at _ Hname).
  destruct (get api bearerToken _ w) as [[err|resp] w1]; cbn [fst snd]; [done|].
  case_decide; [done|].
  destruct (decodeUser api (http.Body resp)) as [err|user]; [done|].
  destruct (makeRequest _ _ _ _ w1) as [[err|data] w2]; cbn [fst snd]; [done|].
  split; [done|]. rewrite <- list_fmap_compose. done.
Qed.

(** X23: the tweets that [SearchTweets] returns are those decoded, one
    for one and in their order; each carries the user name of the last
    user included with its author's identifier, and the name it was
    decoded with when no user included has that identifier. *)
Theorem SearchTweets_maps_usernames bearerToken query maxResults w tweets w' :
  SearchTweets api bearerToken query maxResults w = (inr tweets, w') ->
  exists resp result,
    http.StatusCode resp = 200 /\
    decodeResponse api (http.Body resp) = inr result /\
    length tweets = length (default [] (Data result)) /\
    forall (i : nat) decoded,
      default [] (Data result) !! i = Some decoded ->
      exists tweet,
        tweets !! i = Some tweet /\
        ID tweet = ID decoded /\ Text tweet = Text decoded /\
        AuthorID tweet = AuthorID decoded /\ CreatedAt tweet = CreatedAt decoded /\
        Username tweet
        = match last (filter (fun user => UserID user = AuthorID decoded)
                        (from_option Users [] (Includes result))) with
          | Some user => UserUsername user
          | None => Username decoded
          end.
Proof.
  unfold SearchTweets, makeRequestWithUsers.
  destruct (get api bearerToken _ w) as [[err|resp] w1]; [done|].
  case_decide as Hstatus; [done|].
  destruct (decodeResponse api (http.Body resp)) as [err|result] eqn:Hdecode; [done|].
  intros Hresult. exists resp, result.
  split; [unfold http.StatusOK in Hstatus; lia|]. split; [done|].
  destruct (Data result) as [data|]; injection Hresult as <- <-; cbn [default].
  - split; [by rewrite length_fmap|].
    intros i decoded Hi. change (data !! i = Some decoded) in Hi.
    exists (mapUsername (userMap result) decoded).
    split; [by rewrite list_lookup_fmap, Hi|].
    unfold mapUsername, userMap.
    destruct (Includes result) as [includes|]; cbn [from_option].
    + rewrite userMap_lookup, lookup_empty.
      by destruct (last (filter _ (Users includes))).
    + by rewrite lookup_empty.
  - split; [done|]. intros i decoded Hi. by rewrite lookup_nil in Hi.
Qed.

End TwitterClient.

(** *** The example API *)
Section TwitterClientExamples.
Import twitter twitter.client.

Lemma GetUserTweets_stamps_username_witness :
  Forall (fun tweet => Username tweet = "@alice")
    [withUsername "@alice" (example.decoded "1" "7");
     withUsername "@alice" (example.decoded "2" "7")] /\
  exists userID w1 data,
    getUserIDByUsername example.api "token" "@alice" tt = (inr userID, w1) /\
    makeRequest example.api "token"
      ("https://api.twitter.com/2/users/" +:+ userID +:+ "/tweets")
      [("max_results", pretty 10);
       ("tweet.fields", "created_at,author_id");
       ("exclude", "retweets,replies")] w1 = (inr data, tt) /\
    length [withUsername "@alice" (example.decoded "1" "7");
            withUsername "@alice" (example.decoded "2" "7")] = length data /\
    forall (i : nat) decoded,
      data !! i = Some decoded ->
      exists tweet,
        [withUsername "@alice" (example.decoded "1" "7");
         withUsername "@alice" (example.decoded "2" "7")] !! i = Some tweet /\
        ID tweet = ID decoded /\ Text tweet = Text decoded /\
        AuthorID tweet = AuthorID decoded /\ CreatedAt tweet = CreatedAt decoded /\
        Username tweet = "@alice".
Proof.
  apply (GetUserTweets_stamps_username example.api "token" "@alice" 10 tt _ tt).
  vm_compute. reflexivity.
Defined.

(** The API does not know bob. *)
Lemma GetUserTweets_lookup_failure_witness :
  exists cause,
    GetUserTweets example.api "token" "bob" 10 tt
    = (inl ("failed to get user ID for @" +:+ "bob" +:+ ": " +:+ cause), tt).
Proof.
  apply (GetUserTweets_lookup_failure example.api "token" "bob" 10 tt).
  vm_compute. left. discriminate.
Defined.

Lemma GetUserTweets_at_sign_witness :
  (GetUserTweets example.api "token" ("@" +:+ "alice") 10 tt).2
  = (GetUserTweets example.api "token" "alice" 10 tt).2 /\
  match (GetUserTweets example.api "token" ("@" +:+ "alice") 10 tt).1,
        (GetUserTweets example.api "token" "alice" 10 tt).1 with
  | inr tweets1, inr tweets2 => tweets1 = withUsername ("@" +:+ "alice") <$> tweets2
  | inl _, inl _ => True
  | _, _ => False
  end.
Proof.
  apply (GetUserTweets_at_sign example.api "token" "alice" 10 tt). reflexivity.
Defined.

(** The tweet of alice gets the name of the second entry for her
    identifier; the other tweet keeps the name it was decoded with. *)
Lemma SearchTweets_maps_usernames_witness :
  SearchTweets example.api "token" "$SPY" 10 tt
  = (inr [withUsername "alice_x" (example.decoded "2" "7"); example.decoded "4" "8"], tt) /\
  exists resp result,
    http.StatusCode resp = 200 /\
    decodeResponse example.api (http.Body resp) = inr result /\
    length [withUsername "alice_x" (example.decoded "2" "7"); example.decoded "4" "8"]
    = length (default [] (Data result)) /\
    forall (i : nat) decoded,
      default [] (Data result) !! i = Some decoded ->
      exists tweet,
        [withUsername "alice_x" (example.decoded "2" "7"); example.decoded "4" "8"] !! i
        = Some tweet /\
        ID tweet = ID decoded /\ Text tweet = Text decoded /\
        AuthorID tweet = AuthorID decoded /\ CreatedAt tweet = CreatedAt decoded /\
        Username tweet
        = match last (filter (fun user => UserID user = AuthorID decoded)
                        (from_option Users [] (Includes result))) with
          | Some user => UserUsername user
          | None => Username decoded
          end.
Proof.
  split; [vm_compute; reflexivity|].
  apply (SearchTweets_maps_usernames example.api "token" "$SPY" 10 tt _ tt).
  vm_compute. reflexivity.
Defined.

End TwitterClientExamples.

(** ** The Slack notifier *)
Section SlackNotifier.
Import slack slack.notifier.
Context {World : Type}.

Implicit Types (s : SlackNotifier World) (w : World) (tweet : twitter.Tweet).
Implicit Types (analysis : ai.Analysis) (message : json.Value).

(** What [post] does with a message: one exchange, and nil for 200 only. *)
Lemma post_exchange s message w :
  (post s message w).2
  = (httpClient s (request s (json.JSONText (json.sorted message))) w).2 /\
  match (httpClient s (request s (json.JSONText (json.sorted message))) w).1 with
  | inl err => (post s message w).1 = Some err
  | inr resp =>
      (post s message w).1
      = if decide (http.StatusCode resp = 200) then None else Some (statusError resp)
  end.
Proof.
  unfold post. cbn [json.Marshal].
  destruct (httpClient s _ w) as [[err|resp] w1]; cbn [fst snd]; [done|].
  unfold http.StatusOK. by repeat case_decide.
Qed.

(** X24: both notifications make one exchange with the webhook, a POST of
    the marshalled message with the JSON content type, and return nil
    exactly when the answer has the status 200: an error of the exchange
    is returned as it is, and any other status, 204 or 302 as well as 404,
    is returned as an error that names it.  The plain notification does
    not depend on the context string it is given. *)
Theorem notification_is_nil_exactly_on_200 s tweet analysis traderInfo w :
  forall notify message,
    (notify = NotifyTweet s tweet analysis /\ message = buildMessage s tweet analysis) \/
    (notify = NotifySimple s tweet traderInfo /\ message = simpleMessage s tweet) ->
    let req :=
      {| http.Method := "POST"; http.URL := webhookURL s;
         http.Header := [("Content-Type", "application/json")];
         http.body := Some (json.JSONText (json.sorted message)) |} in
    (notify w).2 = (httpClient s req w).2 /\
    ((notify w).1 = None <->
     exists resp, (httpClient s req w).1 = inr resp /\ http.StatusCode resp = 200) /\
    (forall err, (httpClient s req w).1 = inl err -> (notify w).1 = Some err) /\
    (forall resp,
       (httpClient s req w).1 = inr resp -> http.StatusCode resp <> 200 ->
       (notify w).1 = Some (statusError resp)).
Proof.
  intros notify message Hnotify req.
  assert (notify w = post s message w) as ->.
  { by destruct Hnotify as [[-> ->]|[-> ->]]. }
  destruct (post_exchange s message w) as [Hworld Hresult].
  change (request s (json.JSONText (json.sorted message))) with req in *.
  split; [done|].
  destruct (httpClient s req w).1 as [err|resp].
  - rewrite Hresult. split; [|split; [by intros ? [= <-]|done]].
    split; [done|]. by intros (? & ? & _).
  - rewrite Hresult. case_decide as Hstatus.
    + split; [|split; [done|]].
      * split; [|done]. intros _. by exists resp.
      * by intros ? [= <-] ?.
    + split; [|split; [done|by intros ? [= <-] _]].
      split; [done|]. by intros (? & [= <-] & ?).
Qed.

(** X25: the rich message that [buildMessage] returns.  It has the
    notifier's user name and icon and one attachment.  The attachment's
    fields are, in this order: the summary, always; the sentiment's label,
    when the sentiment is not empty; the tickers as links joined by commas,
    when there is a ticker; the key points as bullets, when there is a key
    point; and no other.  Its actions are the button that links to the
    post and, when there is a ticker, the button for the chart of the
    first ticker, and no other.  Its colour and the icon of its title are
    those of one urgency: the analysis's, or normal when the analysis's is
    none of critical, high, normal and low. *)
Theorem rich_message_shape s tweet analysis :
  json.field "username" (buildMessage s tweet analysis)
  = Some (json.JString (username s)) /\
  json.field "icon_emoji" (buildMessage s tweet analysis)
  = Some (json.JString (iconEmoji s)) /\
  exists att,
    json.field "attachments" (buildMessage s tweet analysis) = Some (json.JArray [att]) /\
    json.field "fields" att
    = Some (json.JArray
        (json.JObject [("title", json.JString "📝 AI分析サマリー");
                       ("value", json.JString (ai.Summary analysis));
                       ("short", json.JBool false)]
         :: (if decide (ai.Sentiment analysis = "") then []
             else [json.JObject
                     [("title", json.JString "💹 センチメント");
                      ("value", json.JString (getSentimentEmoji (ai.Sentiment analysis)));
                      ("short", json.JBool true)]])
         ++ (if decide (ai.Tickers analysis = []) then []
             else [json.JObject
                     [("title", json.JString "🎯 関連銘柄");
                      ("value",
                       json.JString
                         (String.concat ", "
                            ((fun ticker =>
                                "<https://finance.yahoo.com/quote/" +:+ ticker
                                +:+ "|$" +:+ ticker +:+ ">") <$> ai.Tickers analysis)));
                      ("short", json.JBool true)]])
         ++ (if decide (ai.KeyPoints analysis = []) then []
             else [json.JObject
                     [("title", json.JString "📌 重要ポイント");
                      ("value",
                       json.JString
                         ("• " +:+ String.concat (LF +:+ "• ") (ai.KeyPoints analysis)));
                      ("short", json.JBool false)]]))%list) /\
    json.field "actions" att
    = Some (json.JArray
        (json.JObject
           [("type", json.JString "button");
            ("text", json.JString "🔗 ポストを見る");
            ("url", json.JString ("https://x.com/" +:+ twitter.Username tweet
                                  +:+ "/status/" +:+ twitter.ID tweet));
            ("style", json.JString "primary")]
         :: match ai.Tickers analysis with
            | first :: _ =>
                [json.JObject
                   [("type", json.JString "button");
                    ("text", json.JString "📊 チャート");
                    ("url", json.JString ("https://www.tradingview.com/chart/?symbol="
                                          +:+ first))]]
            | [] => []
            end)) /\
    json.field "author_name" att = Some (json.JString ("@" +:+ twitter.Username tweet)) /\
    json.field "text" att = Some (json.JString (twitter.Text tweet)) /\
    json.field "ts" att = Some (json.JNumber (pretty (twitter.CreatedAt tweet))) /\
    exists level icon colour,
      (level, icon, colour)
      ∈ [("critical", "🚨", "#FF0000"); ("high", "⚠️", "#FF9900");
         ("normal", "💡", "#36A64F"); ("low", "ℹ️", "#808080")] /\
      (level = ai.Urgency analysis \/
       level = "normal" /\ ai.Urgency analysis ∉ ["critical"; "high"; "normal"; "low"]) /\
      json.field "color" att = Some (json.JString colour) /\
      json.field "title" att
      = Some (json.JString (icon +:+ " [" +:+ ai.Category analysis +:+ "] スコア: "
                            +:+ pretty (ai.Score analysis) +:+ "/100")).
Proof.
  split; [reflexivity|]. split; [reflexivity|].
  exists (attachment tweet analysis). split; [reflexivity|].
  split; [|split; [|split; [|split; [|split]]]]; try reflexivity.
  - change (json.field "fields" (attachment tweet analysis))
      with (Some (json.JArray (fields analysis))).
    do 2 f_equal. unfold fields, tickerLinks, fieldOf.
    destruct (decide (ai.Sentiment analysis = "")) as [Hs|Hs];
      destruct (ai.Tickers analysis) as [|ticker tickers];
      destruct (ai.KeyPoints analysis) as [|point points];
      repeat case_decide; try done; exfalso; cbn in *; first [lia | congruence].
  - change (json.field "actions" (attachment tweet analysis))
      with (Some (json.JArray (actions tweet analysis))).
    do 2 f_equal. unfold actions. by destruct (ai.Tickers analysis).
  - change (json.field "color" (attachment tweet analysis))
      with (Some (json.JString (getColorByUrgency (ai.Urgency analysis)))).
    change (json.field "title" (attachment tweet analysis))
      with (Some (json.JString (getEmojiByUrgency (ai.Urgency analysis) +:+ " ["
                                +:+ ai.Category analysis +:+ "] スコア: "
                                +:+ pretty (ai.Score analysis) +:+ "/100"))).
    unfold getEmojiByUrgency, getColorByUrgency.
    destruct (decide (ai.Urgency analysis = "critical")) as [Hc|Hc].
    { exists "critical", "🚨", "#FF0000". rewrite Hc. set_solver. }
    destruct (decide (ai.Urgency analysis = "high")) as [Hh|Hh].
    { exists "high", "⚠️", "#FF9900". rewrite Hh. set_solver. }
    destruct (decide (ai.Urgency analysis = "normal")) as [Hn|Hn].
    { exists "normal", "💡", "#36A64F". rewrite Hn. set_solver. }
    destruct (decide (ai.Urgency analysis = "low")) as [Hl|Hl].
    { exists "low", "ℹ️", "#808080". rewrite Hl. set_solver. }
    exists "normal", "💡", "#36A64F".
    split; [do 2 apply list_elem_of_further; apply list_elem_of_here|].
    split; [|done]. right. split; [done|].
    rewrite !elem_of_cons, elem_of_nil. tauto.
Qed.

End SlackNotifier.

(** *** A webhook that answers 204 *)
Section SlackNotifierExamples.
Import slack slack.notifier.

Lemma notification_is_nil_exactly_on_200_witness :
  (NotifySimple example.webhook (example.tweet "1") "Alice (Priority: high)" tt).1
  = Some "Slack webhook returned status 204" /\
  (NotifyTweet example.webhook (example.tweet "1") (example.analysis 70) tt).1
  = Some "Slack webhook returned status 204".
Proof.
  split.
  - destruct (notification_is_nil_exactly_on_200 example.webhook (example.tweet "1")
                (example.analysis 70) "Alice (Priority: high)" tt
                (NotifySimple example.webhook (example.tweet "1") "Alice (Priority: high)")
                (simpleMessage example.webhook (example.tweet "1"))
                (or_intror (conj eq_refl eq_refl)))
      as (_ & _ & _ & Hstatus).
    apply (Hstatus {| http.StatusCode := 204; http.Body := "" |}); [reflexivity|discriminate].
  - destruct (notification_is_nil_exactly_on_200 example.webhook (example.tweet "1")
                (example.analysis 70) "Alice (Priority: high)" tt
                (NotifyTweet example.webhook (example.tweet "1") (example.analysis 70))
                (buildMessage example.webhook (example.tweet "1") (example.analysis 70))
                (or_introl (conj eq_refl eq_refl)))
      as (_ & _ & _ & Hstatus).
    apply (Hstatus {| http.StatusCode := 204; http.Body := "" |}); [reflexivity|discriminate].
Defined.

End SlackNotifierExamples.

(** ** The configuration *)
Section Configuration.
Import config.

Implicit Types (env : Loader) (cfg parsed : Config) (log : LogConfig).

Lemma Load_inr env path cfg log :
  Load env path = inr (cfg, log) ->
  exists data parsed plog,
    ReadFile env path = inr data /\
    Unmarshal env (ExpandEnv env data) = inr (parsed, plog) /\
    Interval cfg = (if decide (Interval parsed = "") then "5m" else Interval parsed) /\
    MinScore (AI cfg)
    = (if decide (MinScore (AI parsed) = 0) then 70 else MinScore (AI parsed)) /\
    Model (AI cfg)
    = (if decide (Model (AI parsed) = "") then "claude-3-5-sonnet-20241022"
       else Model (AI parsed)) /\
    SlackUsername (Slack cfg)
    = (if decide (SlackUsername (Slack parsed) = "") then "X Trading Bot"
       else SlackUsername (Slack parsed)) /\
    IconEmoji (Slack cfg)
    = (if decide (IconEmoji (Slack parsed) = "") then ":chart_with_upwards_trend:"
       else IconEmoji (Slack parsed)) /\
    Level log = (if decide (Level plog = "") then "info" else Level plog) /\
    Enabled (AI cfg) = Enabled (AI parsed) /\
    Traders cfg = Traders parsed /\
    Keywords cfg = Keywords parsed /\
    WebhookURL (Slack cfg) = WebhookURL (Slack parsed).
Proof.
  unfold Load. destruct (ReadFile env path) as [err|data]; [done|].
  destruct (Unmarshal env (ExpandEnv env data)) as [err|[parsed plog]] eqn:Hparse;
    [done|].
  intros [= <- <-]. exists data, parsed, plog. by repeat split.
Qed.


(** X27: when [main] loads its configuration with [Load], the crawler it
    starts has a minimum score that is not zero, and an interval and a
    model that are not empty. *)
Theorem started_crawler_has_defaults {World : Type} (p : main.Process World) env
    (d : os.Disk) (c : crawler.Crawler World) st interval :
  (forall path,
     main.config_Load p path
     = match Load env path with
       | inl err => inl err
       | inr loaded => inr loaded.1
       end) ->
  main.startup p d = main.Started c st interval ->
  MinScore (AI (crawler.config c)) <> 0 /\
  Interval (crawler.config c) <> "" /\
  Model (AI (crawler.config c)) <> "" /\
  main.ParseDuration p (Interval (crawler.config c)) = inr interval.
Proof.
  intros Hload. unfold main.startup. rewrite Hload.
  destruct (Load env (main.configPath p)) as [err|[cfg log]] eqn:HLoad; [done|].
  apply Load_inr in HLoad
    as (data & parsed & plog & _ & _ & Hi & Hm & Hmo & _).
  cbn [fst].
  destruct (decide (main.Getenv p "X_API_BEARER_TOKEN" = "")); [done|].
  match goal with
  | |- context [decide ((if ?x then ?a else ?b) = "")] =>
      destruct (decide ((if x then a else b) = "")); [done|]
  end.
  destruct (storage.NewSeenTweets _ d); [done|].
  destruct (main.ParseDuration p (Interval cfg)) eqn:Hparse; [done|].
  intros [= <- <- <-]. cbn [crawler.config].
  split; [rewrite Hm; clear; by case_decide|].
  split; [rewrite Hi; clear; by case_decide|].
  split; [rewrite Hmo; clear; by case_decide|]. done.
Qed.

End Configuration.

(** *** A file that gives a minimum score of zero *)
Section ConfigurationExamples.
Import config.


Lemma started_crawler_has_defaults_witness :
  exists c st,
    main.startup example.process_yaml ∅ = main.Started c st 300 /\
    MinScore (AI (crawler.config c)) <> 0 /\
    Interval (crawler.config c) <> "" /\
    Model (AI (crawler.config c)) <> "" /\
    main.ParseDuration example.process_yaml (Interval (crawler.config c)) = inr 300.
Proof.
  eexists _, _. split; [reflexivity|].
  apply (started_crawler_has_defaults example.process_yaml example.loader ∅ _
           example.fresh 300); [done|reflexivity].
Defined.

End ConfigurationExamples.

(** ** The call of the scorer *)
Section CallClaudeAPI.
Import ai ai.claude.
Context {World : Type}.

Implicit Types (f : Filter World) (w : World) (prompt text block : string).

(** X29: [callClaudeAPI] returns, whatever the API answers: it makes one
    exchange, a POST of the marshalled request with the key in its header,
    and does not panic on any text.  It returns an analysis exactly when
    the status is 200, the body decodes to at least one content block, and
    what [extractJSON] makes of the text of the first block unmarshals;
    the blocks after the first are not looked at.  When that text does not
    unmarshal, the error quotes what [extractJSON] returned, not the text
    of the block. *)
Theorem callClaudeAPI_returns f prompt w :
  let answer :=
    httpClient f (request f (json.JSONText (json.sorted (requestBody f prompt)))) w in
  exists r,
    callClaudeAPI f prompt w = Some (r, answer.2) /\
    (forall analysis,
       r = inr analysis <->
       exists resp text rest block,
         answer.1 = inr resp /\ http.StatusCode resp = 200 /\
         decodeContent f (http.Body resp) = inr (text :: rest) /\
         extractJSON text = Some block /\
         unmarshalAnalysis f block = inr analysis) /\
    (forall resp text rest block err,
       answer.1 = inr resp -> http.StatusCode resp = 200 ->
       decodeContent f (http.Body resp) = inr (text :: rest) ->
       extractJSON text = Some block ->
       unmarshalAnalysis f block = inl err ->
       r = inl ("failed to parse AI response: " +:+ err
                +:+ " (response: " +:+ block +:+ ")")).
Proof.
  intros answer. subst answer. unfold callClaudeAPI. cbn [json.Marshal].
  destruct (httpClient f _ w) as [[err|resp] w1]; cbn [fst snd].
  { eexists. split; [done|]. split; [|by intros].
    intros analysis. split; [done|]. by intros (? & ? & ? & ? & ? & _). }
  unfold http.StatusOK. case_decide as Hstatus.
  { eexists. split; [done|]. split; [|by intros ? ? ? ? ? [= <-]].
    intros analysis. split; [done|]. by intros (? & ? & ? & ? & [= <-] & ? & _). }
  destruct (decodeContent f (http.Body resp)) as [err|[|text rest]] eqn:Hdecode.
  { eexists. split; [done|]. split; [|by intros ? ? ? ? ? [= <-]; congruence].
    intros analysis. split; [done|]. intros (? & ? & ? & ? & [= <-] & _ & ? & _). congruence. }
  { eexists. split; [done|]. split; [|by intros ? ? ? ? ? [= <-]; congruence].
    intros analysis. split; [done|]. intros (? & ? & ? & ? & [= <-] & _ & ? & _). congruence. }
  destruct (extractJSON_part text) as (pre & block & post & Hblock & _). rewrite Hblock.
  destruct (unmarshalAnalysis f block) as [err|analysis0] eqn:Hparse.
  - eexists. split; [done|]. split.
    + intros analysis. split; [done|].
      intros (? & ? & ? & ? & [= <-] & _ & ? & ? & ?). congruence.
    + intros ? ? ? ? ? [= <-] _ ? ? ?. congruence.
  - eexists. split; [done|]. split.
    + intros analysis. split.
      * intros [= <-]. exists resp, text, rest, block. split; [done|].
        split; [lia|]. done.
      * intros (? & ? & ? & ? & [= <-] & _ & ? & ? & ?). congruence.
    + intros ? ? ? ? ? [= <-] _ ? ? ?. congruence.
Qed.

End CallClaudeAPI.

(** ** The crawler with the client over HTTP *)
Section CrawlerOverHTTP.
Import crawler.
Context {World : Type}.


End CrawlerOverHTTP.

Section CrawlerOverHTTPExamples.
Import crawler.


End CrawlerOverHTTPExamples.
